(** * Tenaxis: permission matrix, tenant-scoped repositories and domain services

    A shallow embedding of the authorization core of the Tenaxis front end
    ([src/lib/permissions.ts]) and of its service layer over the document
    store ([src/services/*.ts]), with the properties of the specification
    stated and settled against it.

    Layout: the embedding comes first (the fragment of the ECMAScript runtime
    the permission helpers run on, the permission matrix, the document store,
    the services); the lemmas and theorems follow. *)

From Stdlib Require Import ZArith List String Ascii Bool Lia Sorting.Sorted.
From stdpp Require Import gmap strings list pretty.

Open Scope string_scope.
Open Scope list_scope.
Open Scope Z_scope.

(** Exceptions raised by the code or by the runtime under it. [Error msg] is
    [new Error(msg)]; [TypeError] is the runtime's own; [FirestoreError code]
    is an error of the document store's client. *)
Inductive exn :=
| TypeError (msg : string)
| Error (msg : string)
| FirestoreError (code : string).

(** Lookup in an association list keyed by strings: the first binding wins. *)
Fixpoint assoc {A : Type} (k : string) (l : list (string * A)) : option A :=
  match l with
  | [] => None
  | (k', v) :: rest => if String.eqb k k' then Some v else assoc k rest
  end.

(** Result of evaluating an expression. [Unmodelled] marks the places where
    evaluation would leave the fragment of the runtime and of the store's
    client described here (for instance a property read on a string); the
    theorems conclude [Returns] or [Throws], so they say that the code does
    not reach it on the inputs they cover. *)
Inductive outcome (A : Type) : Type :=
| Returns (a : A)
| Throws (e : exn)
| Unmodelled.
Arguments Returns {A} a.
Arguments Throws {A} e.
Arguments Unmodelled {A}.

Definition bind {A B : Type} (c : outcome A) (k : A -> outcome B) : outcome B :=
  match c with
  | Returns a => k a
  | Throws e => Throws e
  | Unmodelled => Unmodelled
  end.

Notation "'do' x <- c ; k" := (bind c (fun x => k))
  (at level 10, x name, c at level 100, k at level 200).

(** ** The fragment of the ECMAScript runtime under [permissions.ts] *)
Module JS.

(** Runtime values.
    - [Obj props]: an ordinary object made by an object literal; [props] are
      its own enumerable string-keyed properties in property order, and its
      prototype is [%Object.prototype%];
    - [Arr xs]: an array of strings;
    - [Fn name len statics]: a built-in function object with its own [name]
      and [length] and further own properties [statics]; its prototype is
      [%Function.prototype%];
    - [ObjectPrototype], [FunctionPrototype]: the two intrinsic objects. *)
#[warnings="-register-all"]
Inductive value :=
| Undefined
| Null
| Num (n : Z)
| Str (s : string)
| Arr (xs : list string)
| Obj (props : list (string * value))
| Fn (name : string) (len : Z) (statics : list (string * value))
| ObjectPrototype
| FunctionPrototype.

(** ToBoolean. *)
Definition truthy (v : value) : bool :=
  match v with
  | Undefined | Null => false
  | Num n => negb (n =? 0)
  | Str s => negb (String.eqb s "")
  | Arr _ | Obj _ | Fn _ _ _ | ObjectPrototype | FunctionPrototype => true
  end.

Definition builtin (name : string) (len : Z) : string * value :=
  (name, Fn name len []).

(** The constructor [Object] with its own properties (ECMA-262, 20.1.2). *)
Definition object_constructor : value :=
  Fn "Object" 1
    (("prototype", ObjectPrototype) ::
     [ builtin "assign" 2; builtin "create" 2; builtin "defineProperties" 2;
       builtin "defineProperty" 3; builtin "entries" 1; builtin "freeze" 1;
       builtin "fromEntries" 1; builtin "getOwnPropertyDescriptor" 2;
       builtin "getOwnPropertyDescriptors" 1; builtin "getOwnPropertyNames" 1;
       builtin "getOwnPropertySymbols" 1; builtin "getPrototypeOf" 1;
       builtin "groupBy" 2; builtin "hasOwn" 2; builtin "is" 2;
       builtin "isExtensible" 1; builtin "isFrozen" 1; builtin "isSealed" 1;
       builtin "keys" 1; builtin "preventExtensions" 1; builtin "seal" 1;
       builtin "setPrototypeOf" 2; builtin "values" 1 ]).

(** The data properties of [%Object.prototype%] (ECMA-262, 20.1.3 and B.2.2);
    its accessor [__proto__] is treated in [get_from_object_prototype]. *)
Definition object_prototype_props : list (string * value) :=
  ("constructor", object_constructor) ::
  [ builtin "__defineGetter__" 2; builtin "__defineSetter__" 2;
    builtin "hasOwnProperty" 1; builtin "__lookupGetter__" 1;
    builtin "__lookupSetter__" 1; builtin "isPrototypeOf" 1;
    builtin "propertyIsEnumerable" 1; builtin "toString" 0;
    builtin "valueOf" 0; builtin "toLocaleString" 0 ].

(** The data properties of [%Function.prototype%] (ECMA-262, 20.2.3); its
    poisoned accessors [caller] and [arguments] are treated in
    [get_from_function_prototype]. *)
Definition function_prototype_props : list (string * value) :=
  ("length", Num 0) :: ("name", Str "") ::
  ("constructor", Fn "Function" 1 [("prototype", FunctionPrototype)]) ::
  [ builtin "apply" 2; builtin "bind" 1; builtin "call" 1;
    builtin "toString" 0 ].

(** Names every ordinary object answers to through its prototype. *)
Definition inherited_names : list string :=
  "__proto__" :: map fst object_prototype_props.

(** [[GetPrototypeOf]] on the objects of the fragment. *)
Definition getPrototypeOf (o : value) : outcome value :=
  match o with
  | Obj _ => Returns ObjectPrototype
  | Fn _ _ _ => Returns FunctionPrototype
  | FunctionPrototype => Returns ObjectPrototype
  | ObjectPrototype => Returns Null
  | Undefined | Null => Throws (TypeError "Cannot convert undefined or null to object")
  | Num _ | Str _ | Arr _ => Unmodelled
  end.

(** Property read that has reached [%Object.prototype%]: the [__proto__]
    getter answers with the receiver's prototype, a data property with its
    value, and the end of the chain with [undefined]. *)
Definition get_from_object_prototype (receiver : value) (k : string) : outcome value :=
  if String.eqb k "__proto__" then getPrototypeOf receiver
  else match assoc k object_prototype_props with
       | Some v => Returns v
       | None => Returns Undefined
       end.

(** Property read that has reached [%Function.prototype%]: [caller] and
    [arguments] are accessors whose getter is [%ThrowTypeError%]. *)
Definition get_from_function_prototype (receiver : value) (k : string) : outcome value :=
  if String.eqb k "caller" || String.eqb k "arguments"
  then Throws (TypeError "'caller', 'callee', and 'arguments' properties may not be accessed")
  else match assoc k function_prototype_props with
       | Some v => Returns v
       | None => get_from_object_prototype receiver k
       end.

(** [o[k]]: own properties first, then the prototype chain. *)
Definition get (o : value) (k : string) : outcome value :=
  match o with
  | Undefined | Null => Throws (TypeError "Cannot read properties of undefined")
  | Obj props =>
      match assoc k props with
      | Some v => Returns v
      | None => get_from_object_prototype o k
      end
  | ObjectPrototype => get_from_object_prototype o k
  | Fn name len statics =>
      match assoc k (("length", Num len) :: ("name", Str name) :: statics) with
      | Some v => Returns v
      | None => get_from_function_prototype o k
      end
  | FunctionPrototype => get_from_function_prototype o k
  | Num _ | Str _ | Arr _ => Unmodelled
  end.

(** [String.prototype.includes]: substring test. *)
Definition string_includes (s sub : string) : bool :=
  match String.index 0 sub s with
  | Some _ => true
  | None => false
  end.

(** [Array.prototype.includes] on an array of strings. *)
Definition array_includes (xs : list string) (x : string) : bool :=
  existsb (String.eqb x) xs.

(** The method call [v.includes(x)]: arrays and strings have the method; on
    the other values of the fragment the property read yields [undefined]
    (or a non-callable value) and the call throws a [TypeError]. *)
Definition includes (v : value) (x : string) : outcome bool :=
  match v with
  | Arr xs => Returns (array_includes xs x)
  | Str s => Returns (string_includes s x)
  | Undefined | Null => Throws (TypeError "Cannot read properties of undefined")
  | Num _ => Throws (TypeError "includes is not a function")
  | Obj _ | Fn _ _ _ | ObjectPrototype | FunctionPrototype =>
      do m <- get v "includes" ;
      match m with
      | Fn _ _ _ | FunctionPrototype => Unmodelled
      | _ => Throws (TypeError "includes is not a function")
      end
  end.

(** [Object.entries(o)]: the own enumerable string-keyed properties. The
    properties of built-in functions and of the intrinsic prototypes are not
    enumerable. *)
Definition Object_entries (o : value) : outcome (list (string * value)) :=
  match o with
  | Obj props => Returns props
  | Fn _ _ _ | ObjectPrototype | FunctionPrototype | Num _ => Returns []
  | Undefined | Null => Throws (TypeError "Cannot convert undefined or null to object")
  | Str _ | Arr _ => Unmodelled
  end.

(** [xs.filter(p)] for a callback that may throw. *)
Fixpoint filterM {A : Type} (p : A -> outcome bool) (xs : list A) : outcome (list A) :=
  match xs with
  | [] => Returns []
  | x :: rest =>
      do b <- p x ;
      do kept <- filterM p rest ;
      Returns (if b then x :: kept else kept)
  end.

(** [xs.indexOf(x)] on an array of strings: the first index, or -1. *)
Fixpoint indexOf (xs : list string) (x : string) : Z :=
  match xs with
  | [] => -1
  | y :: rest =>
      if String.eqb y x then 0
      else let i := indexOf rest x in if i =? -1 then -1 else i + 1
  end.

(** [xs.slice(start, stop)] and [xs.slice(start)]: a negative index counts
    from the end, and indices are clamped to the array. *)
Definition clamp_index (len i : Z) : Z :=
  if i <? 0 then Z.max (len + i) 0 else Z.min i len.

Definition slice {A : Type} (start stop : Z) (xs : list A) : list A :=
  let len := Z.of_nat (length xs) in
  let from := clamp_index len start in
  let to := clamp_index len stop in
  take (Z.to_nat (to - from)) (drop (Z.to_nat from) xs).

Definition slice_from {A : Type} (start : Z) (xs : list A) : list A :=
  slice start (Z.of_nat (length xs)) xs.

(** Numbers are IEEE doubles. The integers the services compute with are
    taken in the range of [Number.isSafeInteger], where a sum or a
    difference that stays in the range is exact; a result beyond it, which
    the runtime rounds to the nearest double, is left outside. *)
Definition MAX_SAFE_INTEGER : Z := 9007199254740991.

Definition isSafeInteger (n : Z) : bool :=
  (- MAX_SAFE_INTEGER <=? n) && (n <=? MAX_SAFE_INTEGER).

(** [a + b] and [a - b] on numbers. *)
Definition number_add (a b : Z) : outcome Z :=
  if isSafeInteger a && isSafeInteger b && isSafeInteger (a + b)
  then Returns (a + b) else Unmodelled.

Definition number_sub (a b : Z) : outcome Z :=
  if isSafeInteger a && isSafeInteger b && isSafeInteger (a - b)
  then Returns (a - b) else Unmodelled.

(** A string that is neither [undefined]/[null] nor empty, that is, truthy. *)
Definition nonempty (s : option string) : option string :=
  match s with
  | Some x => if String.eqb x "" then None else Some x
  | None => None
  end.

End JS.

(** ** [src/lib/permissions.ts] *)
Module Permissions.
Import JS.

(** [MODULES]: the values of the constant object, in declaration order. *)
Definition MODULES : list (string * string) :=
  [ ("DASHBOARD", "dashboard"); ("ASSETS", "assets");
    ("CONSUMABLES", "consumables"); ("MAINTENANCE", "maintenance");
    ("PROJECTS", "projects"); ("ORGANIZATIONS", "organizations");
    ("COMPANIES", "companies"); ("OFFICES", "offices");
    ("DEPARTMENTS", "departments"); ("USERS", "users");
    ("VENDORS", "vendors"); ("REPORTS", "reports");
    ("AUDIT_LOGS", "audit_logs"); ("SETTINGS", "settings") ].

(** [ACTIONS]. *)
Definition ACTIONS : list (string * string) :=
  [ ("CREATE", "create"); ("READ", "read"); ("UPDATE", "update");
    ("DELETE", "delete"); ("EXPORT", "export"); ("ASSIGN", "assign");
    ("TRANSFER", "transfer"); ("APPROVE", "approve") ].

(** The members of the union type [UserRole] ([src/types/index.ts]). *)
Definition UserRole : list string :=
  [ "SUPER_ADMIN"; "TENANT_ADMIN"; "ORG_ADMIN"; "IT_ADMIN"; "IT_TECHNICIAN";
    "OFFICE_ADMIN"; "FINANCE"; "MANAGEMENT" ].

Definition ModuleValue : list string := map snd MODULES.
Definition ActionValue : list string := map snd ACTIONS.

Definition ALL_ACTIONS : list string := ["create"; "read"; "update"; "delete"; "export"].
Definition READ_ONLY : list string := ["read"; "export"].
Definition READ_CREATE_UPDATE : list string := ["create"; "read"; "update"].

(** The entries of the literal [ROLE_PERMISSIONS], role by role and module by
    module, in source order. *)
Definition ROLE_PERMISSIONS_entries : list (string * list (string * list string)) :=
  [ ("SUPER_ADMIN",
      [ ("dashboard", ALL_ACTIONS); ("assets", ALL_ACTIONS);
        ("consumables", ALL_ACTIONS); ("maintenance", ALL_ACTIONS);
        ("projects", ALL_ACTIONS); ("organizations", ALL_ACTIONS);
        ("companies", ALL_ACTIONS); ("offices", ALL_ACTIONS);
        ("departments", ALL_ACTIONS); ("users", ALL_ACTIONS);
        ("vendors", ALL_ACTIONS); ("reports", ALL_ACTIONS);
        ("audit_logs", ["read"; "export"]); ("settings", ALL_ACTIONS) ]);
    ("TENANT_ADMIN",
      [ ("dashboard", ALL_ACTIONS); ("assets", ALL_ACTIONS);
        ("consumables", ALL_ACTIONS); ("maintenance", ALL_ACTIONS);
        ("projects", ALL_ACTIONS); ("organizations", ALL_ACTIONS);
        ("companies", ALL_ACTIONS); ("offices", ALL_ACTIONS);
        ("departments", ALL_ACTIONS); ("users", ALL_ACTIONS);
        ("vendors", ALL_ACTIONS); ("reports", ALL_ACTIONS);
        ("audit_logs", ["read"; "export"]); ("settings", ALL_ACTIONS) ]);
    ("ORG_ADMIN",
      [ ("dashboard", ["read"]); ("assets", ALL_ACTIONS);
        ("consumables", ALL_ACTIONS); ("maintenance", ALL_ACTIONS);
        ("projects", ALL_ACTIONS); ("organizations", ["read"; "update"]);
        ("companies", ALL_ACTIONS); ("offices", ALL_ACTIONS);
        ("departments", ALL_ACTIONS); ("users", ALL_ACTIONS);
        ("vendors", ALL_ACTIONS); ("reports", ["read"; "export"]);
        ("audit_logs", ["read"]); ("settings", ["read"; "update"]) ]);
    ("IT_ADMIN",
      [ ("dashboard", ["read"]); ("assets", ALL_ACTIONS);
        ("consumables", ALL_ACTIONS); ("maintenance", ALL_ACTIONS);
        ("projects", READ_CREATE_UPDATE); ("organizations", ["read"]);
        ("companies", ["read"]); ("offices", ["read"]);
        ("departments", ["read"]); ("users", ["read"]);
        ("vendors", READ_CREATE_UPDATE); ("reports", ["read"; "export"]);
        ("audit_logs", ["read"]); ("settings", ["read"]) ]);
    ("IT_TECHNICIAN",
      [ ("dashboard", ["read"]); ("assets", READ_CREATE_UPDATE);
        ("consumables", ["read"; "update"]); ("maintenance", READ_CREATE_UPDATE);
        ("projects", ["read"]); ("organizations", ["read"]);
        ("companies", ["read"]); ("offices", ["read"]);
        ("departments", ["read"]); ("users", ["read"]);
        ("vendors", ["read"]); ("reports", ["read"]);
        ("audit_logs", []); ("settings", []) ]);
    ("OFFICE_ADMIN",
      [ ("dashboard", ["read"]); ("assets", ["read"; "update"]);
        ("consumables", READ_CREATE_UPDATE); ("maintenance", READ_CREATE_UPDATE);
        ("projects", ["read"]); ("organizations", ["read"]);
        ("companies", ["read"]); ("offices", ["read"; "update"]);
        ("departments", READ_CREATE_UPDATE); ("users", ["read"]);
        ("vendors", ["read"]); ("reports", ["read"; "export"]);
        ("audit_logs", []); ("settings", ["read"]) ]);
    ("FINANCE",
      [ ("dashboard", ["read"]); ("assets", ["read"; "export"]);
        ("consumables", ["read"; "export"]); ("maintenance", ["read"; "export"]);
        ("projects", ["read"; "export"]); ("organizations", ["read"]);
        ("companies", ["read"]); ("offices", ["read"]);
        ("departments", ["read"]); ("users", ["read"]);
        ("vendors", ["read"; "export"]); ("reports", ["read"; "export"]);
        ("audit_logs", ["read"]); ("settings", []) ]);
    ("MANAGEMENT",
      [ ("dashboard", ["read"]); ("assets", READ_ONLY);
        ("consumables", READ_ONLY); ("maintenance", READ_ONLY);
        ("projects", READ_ONLY); ("organizations", ["read"]);
        ("companies", ["read"]); ("offices", ["read"]);
        ("departments", ["read"]); ("users", ["read"]);
        ("vendors", ["read"]); ("reports", ["read"; "export"]);
        ("audit_logs", ["read"]); ("settings", []) ]) ].

(** The object a literal of modules and action arrays evaluates to. *)
Definition module_object (ms : list (string * list string)) : value :=
  Obj (map (fun e => (fst e, Arr (snd e))) ms).

(** [ROLE_PERMISSIONS] as the runtime holds it: an ordinary object of
    ordinary objects of arrays. *)
Definition ROLE_PERMISSIONS : value :=
  Obj (map (fun e => (fst e, module_object (snd e))) ROLE_PERMISSIONS_entries).

Definition hasPermission (role module action : string) : outcome bool :=
  do rolePermissions <- get ROLE_PERMISSIONS role ;
  if negb (truthy rolePermissions) then Returns false else
  do modulePermissions <- get rolePermissions module ;
  if negb (truthy modulePermissions) then Returns false else
  includes modulePermissions action.

Definition canAccessModule (role module : string) : outcome bool :=
  hasPermission role module "read".

Definition getAccessibleModules (role : string) : outcome (list string) :=
  do rolePerms <- get ROLE_PERMISSIONS role ;
  if negb (truthy rolePerms) then Returns [] else
  do entries <- Object_entries rolePerms ;
  do kept <- filterM (fun e => includes (snd e) "read") entries ;
  Returns (map fst kept).

Definition isAdminRole (role : string) : bool :=
  array_includes ["SUPER_ADMIN"; "TENANT_ADMIN"; "ORG_ADMIN"] role.

Definition roleHierarchy : list string :=
  [ "SUPER_ADMIN"; "TENANT_ADMIN"; "ORG_ADMIN"; "IT_ADMIN"; "OFFICE_ADMIN";
    "IT_TECHNICIAN"; "FINANCE"; "MANAGEMENT" ].

Definition getAssignableRoles (currentUserRole : string) : list string :=
  let currentIndex := indexOf roleHierarchy currentUserRole in
  if currentIndex =? -1 then []
  else if currentIndex <=? 1 then slice_from 1 roleHierarchy
  else slice_from (currentIndex + 1) roleHierarchy.

(** The entry of the matrix for a role and a module, when there is one. *)
Definition matrix_entry (role module : string) : option (list string) :=
  match assoc role ROLE_PERMISSIONS_entries with
  | Some ms => assoc module ms
  | None => None
  end.

(** The hierarchy in the specification's words: the rank of a role is its
    position in [SUPER_ADMIN > TENANT_ADMIN > ORG_ADMIN > IT_ADMIN >
    OFFICE_ADMIN > IT_TECHNICIAN > FINANCE > MANAGEMENT], and a role is
    strictly below another when its position is larger. *)
Fixpoint rank_in (h : list string) (r : string) : option nat :=
  match h with
  | [] => None
  | x :: rest => if String.eqb x r then Some 0%nat else option_map S (rank_in rest r)
  end.

Definition spec_hierarchy : list string :=
  [ "SUPER_ADMIN"; "TENANT_ADMIN"; "ORG_ADMIN"; "IT_ADMIN"; "OFFICE_ADMIN";
    "IT_TECHNICIAN"; "FINANCE"; "MANAGEMENT" ].

Definition strictly_below (current r : string) : bool :=
  match rank_in spec_hierarchy current, rank_in spec_hierarchy r with
  | Some i, Some j => (i <? j)%nat
  | _, _ => false
  end.

Definition spec_assignable (current : string) : list string :=
  match rank_in spec_hierarchy current with
  | None => []
  | Some _ =>
      if String.eqb current "SUPER_ADMIN" || String.eqb current "TENANT_ADMIN"
      then filter (fun r => negb (String.eqb r "SUPER_ADMIN")) spec_hierarchy
      else filter (fun r => strictly_below current r) spec_hierarchy
  end.

(** One element of the answer of [getRolePermissions]: the object
    [{ module, actions }]. *)
Record Permission := { module : string; actions : value }.

Definition getRolePermissions (role : string) : outcome (list Permission) :=
  do rolePerms <- get ROLE_PERMISSIONS role ;
  if negb (truthy rolePerms) then Returns [] else
  do entries <- Object_entries rolePerms ;
  Returns (map (fun e => {| module := fst e; actions := snd e |}) entries).

(** [MODULES.USERS] is ["users"]; the second check runs when the first
    answers [false]. *)
Definition canManageUsers (role : string) : outcome bool :=
  do create <- hasPermission role "users" "create" ;
  if create then Returns true else hasPermission role "users" "update".

(** [MODULES.ORGANIZATIONS] is ["organizations"] and [MODULES.OFFICES] is
    ["offices"]; the second check runs when the first answers [true]. *)
Definition canManageOrganization (role : string) : outcome bool :=
  do update <- hasPermission role "organizations" "update" ;
  if update then hasPermission role "offices" "create" else Returns false.

(** The table of [getRoleDisplayName], an object literal. *)
Definition displayNames_entries : list (string * string) :=
  [ ("SUPER_ADMIN", "Super Administrator");
    ("TENANT_ADMIN", "Tenant Administrator");
    ("ORG_ADMIN", "Organization Administrator");
    ("IT_ADMIN", "IT Administrator");
    ("IT_TECHNICIAN", "IT Technician");
    ("OFFICE_ADMIN", "Office Administrator");
    ("FINANCE", "Finance");
    ("MANAGEMENT", "Management") ].

Definition displayNames : value :=
  Obj (map (fun e => (fst e, Str (snd e))) displayNames_entries).

(** [displayNames[role] || role]. *)
Definition getRoleDisplayName (role : string) : outcome value :=
  do name <- get displayNames role ;
  Returns (if truthy name then name else Str role).

End Permissions.

(** ** [src/composables/usePermission.ts] *)
Module UsePermission.
Import JS Permissions.

(** The checks of the composable, as functions of [authStore.userRole]: the
    role of the signed-in user, or [null]. *)
Definition can (userRole : option string) (module action : string) : outcome bool :=
  match nonempty userRole with
  | None => Returns false
  | Some role => hasPermission role module action
  end.

Definition canAccess (userRole : option string) (module : string) : outcome bool :=
  match nonempty userRole with
  | None => Returns false
  | Some role => canAccessModule role module
  end.

Definition isAdmin (userRole : option string) : bool :=
  match nonempty userRole with
  | None => false
  | Some role => isAdminRole role
  end.

Definition canCreate (userRole : option string) (module : string) : outcome bool :=
  can userRole module "create".

Definition canRead (userRole : option string) (module : string) : outcome bool :=
  can userRole module "read".

Definition canUpdate (userRole : option string) (module : string) : outcome bool :=
  can userRole module "update".

Definition canDelete (userRole : option string) (module : string) : outcome bool :=
  can userRole module "delete".

Definition canExport (userRole : option string) (module : string) : outcome bool :=
  can userRole module "export".

Definition canManageUsers (userRole : option string) : outcome bool :=
  canCreate userRole "users".

Definition canManageOrganization (userRole : option string) : outcome bool :=
  canUpdate userRole "organizations".

Definition canViewAuditLogs (userRole : option string) : outcome bool :=
  canRead userRole "audit_logs".

End UsePermission.


(** ** The document store and its client ([firebase/firestore])

    The store is an external collaborator; what follows is the contract the
    services rely on. Its scope: field values are scalars (anything else is
    kept opaque, and a dotted field path, which reaches inside a map value,
    is left outside), numbers are integers, the store answers every query
    and takes every write the client sends (indexes exist, documents stay
    within the size limits, the transport does not fail), and one session
    runs at a time. Where the checks of the client changed between its
    versions the model does not answer. *)
Module Firestore.

(** Field values, in the store's cross-type order. *)
Inductive fval :=
| FNull
| FBool (b : bool)
| FNum (n : Z)
| FTime (t : Z)
| FStr (s : string)
| FOther (repr : string).

#[global] Instance fval_eq_dec : EqDecision fval.
Proof. solve_decision. Defined.

Definition type_order (v : fval) : Z :=
  match v with
  | FNull => 0 | FBool _ => 1 | FNum _ => 2
  | FTime _ => 3 | FStr _ => 4 | FOther _ => 5
  end.

Definition fval_compare (a b : fval) : comparison :=
  match a, b with
  | FNull, FNull => Eq
  | FBool x, FBool y => Z.compare (Z.b2z x) (Z.b2z y)
  | FNum x, FNum y => Z.compare x y
  | FTime x, FTime y => Z.compare x y
  | FStr x, FStr y => String.compare x y
  | FOther x, FOther y => String.compare x y
  | _, _ => Z.compare (type_order a) (type_order b)
  end.

Definition fval_leb (a b : fval) : bool :=
  match fval_compare a b with Gt => false | _ => true end.

(** A document's data, and an entity as the services read it back:
    [{ id: snapshot.id, ...snapshot.data() }]. *)
Abbreviation fields := (gmap string fval).

Definition entity (id : string) (data : fields) : fields :=
  data ∪ {[ "id" := FStr id ]}.

(** A property of an object handed to the store: [undefined], a plain value,
    or the [increment(n)] transform. *)
Inductive wval :=
| WUndefined
| WVal (v : fval)
| WIncrement (n : Z).

Abbreviation jsobject := (gmap string wval).

(** A property read on an entity, as a value to write back. *)
Definition prop (e : fields) (k : string) : wval :=
  match e !! k with
  | Some v => WVal v
  | None => WUndefined
  end.

Definition path := list string.
Definition store := list (path * fields).

Fixpoint lookup_doc (p : path) (s : store) : option fields :=
  match s with
  | [] => None
  | (q, d) :: rest => if bool_decide (p = q) then Some d else lookup_doc p rest
  end.

Fixpoint replace_doc (p : path) (d : fields) (s : store) : store :=
  match s with
  | [] => []
  | (q, d') :: rest =>
      if bool_decide (p = q) then (q, d) :: rest else (q, d') :: replace_doc p d rest
  end.

Fixpoint remove_doc (p : path) (s : store) : store :=
  match s with
  | [] => []
  | (q, d') :: rest =>
      if bool_decide (p = q) then remove_doc p rest else (q, d') :: remove_doc p rest
  end.

Definition set_doc (p : path) (d : fields) (s : store) : store :=
  match lookup_doc p s with
  | Some _ => replace_doc p d s
  | None => s ++ [(p, d)]
  end.

(** The effect of one written property on the stored field. [increment]
    adds to a number and overwrites anything else. *)
Definition apply_field (old : option fval) (w : wval) : option fval :=
  match w with
  | WUndefined => old
  | WVal v => Some v
  | WIncrement n =>
      match old with
      | Some (FNum m) => Some (FNum (m + n))
      | _ => Some (FNum n)
      end
  end.

(** [update]: the written properties are merged into the document. The data
    are those the client parsed ([parseData] below), whose keys are plain
    field names; a key that is a dotted path does not get here. *)
Definition apply_update (d : fields) (data : jsobject) : fields :=
  merge (fun old w => match w with
                      | Some w => apply_field old w
                      | None => old
                      end) d data.

(** [set] without merge: the document is replaced. *)
Definition apply_set (data : jsobject) : fields := apply_update ∅ data.

Inductive mutation :=
| MSet (p : path) (data : jsobject)
| MCreate (p : path) (data : jsobject)
| MUpdate (p : path) (data : jsobject)
| MDelete (p : path).

(** One write against the store. [MCreate] requires the document to be
    absent and [MUpdate] requires it to be present. *)
Definition apply_mutation (m : mutation) (s : store) : outcome store :=
  match m with
  | MSet p data => Returns (set_doc p (apply_set data) s)
  | MCreate p data =>
      match lookup_doc p s with
      | Some _ => Throws (FirestoreError "already-exists")
      | None => Returns (s ++ [(p, apply_set data)])
      end
  | MUpdate p data =>
      match lookup_doc p s with
      | Some d => Returns (replace_doc p (apply_update d data) s)
      | None => Throws (FirestoreError "not-found")
      end
  | MDelete p => Returns (remove_doc p s)
  end.

(** A batch: every write applies, in order, or none does. *)
Fixpoint apply_mutations (ms : list mutation) (s : store) : outcome store :=
  match ms with
  | [] => Returns s
  | m :: rest =>
      do s' <- apply_mutation m s ;
      apply_mutations rest s'
  end.

Inductive where_op := OpLt | OpLe | OpEq | OpNe | OpGe | OpGt.
Inductive direction := asc | desc.

(** A value handed to [where]: a scalar or an array of scalars. *)
Inductive filter_value :=
| Scalar (v : fval)
| Array (vs : list fval).

(** The constraints [where], [orderBy] and [limit] build; an ['in'] filter
    holds its value as it was given. *)
Inductive QueryConstraint :=
| QWhere (field : string) (op : where_op) (v : fval)
| QWhereIn (field : string) (value : filter_value)
| QOrderBy (field : string) (dir : direction)
| QLimit (n : Z).

(** Requests that reach the store. *)
Inductive request :=
| ReqGetDoc (p : path)
| ReqRunQuery (coll : path) (constraints : list QueryConstraint)
| ReqCommit (ms : list mutation).

(** The world a service call runs in: the store, the requests sent to it so
    far, the supply of auto-generated ids, the clock behind
    [Timestamp.now()], and the [ignoreUndefinedProperties] setting of the
    client (chosen in [src/lib/firebase.ts]). *)
Record world := World {
  db : store;
  trace : list request;
  auto_ids : nat -> string;
  next_id : nat;
  clock : nat -> Z;
  ticks : nat;
  ignoreUndefinedProperties : bool;
}.

Definition with_db (s : store) (w : world) : world :=
  World s (trace w) (auto_ids w) (next_id w) (clock w) (ticks w)
        (ignoreUndefinedProperties w).

Definition with_request (r : request) (w : world) : world :=
  World (db w) (trace w ++ [r]) (auto_ids w) (next_id w) (clock w) (ticks w)
        (ignoreUndefinedProperties w).

(** Computations over the world. An exception leaves the effects that came
    before it in place. *)
Definition M (A : Type) : Type := world -> outcome A * world.

Definition ret {A : Type} (a : A) : M A := fun w => (Returns a, w).
Definition throw {A : Type} (e : exn) : M A := fun w => (Throws e, w).
Definition lift {A : Type} (o : outcome A) : M A := fun w => (o, w).

Definition mbind {A B : Type} (c : M A) (k : A -> M B) : M B :=
  fun w =>
    match c w with
    | (Returns a, w') => k a w'
    | (Throws e, w') => (Throws e, w')
    | (Unmodelled, w') => (Unmodelled, w')
    end.

Notation "'let!' x := c 'in' k" := (mbind c (fun x => k))
  (at level 10, x name, c at level 100, k at level 200).

Definition tick (w : world) : world :=
  World (db w) (trace w) (auto_ids w) (next_id w) (clock w) (S (ticks w))
        (ignoreUndefinedProperties w).

Definition take_id (w : world) : world :=
  World (db w) (trace w) (auto_ids w) (S (next_id w)) (clock w) (ticks w)
        (ignoreUndefinedProperties w).

(** [Timestamp.now()]. *)
Definition Timestamp_now : M Z :=
  fun w => (Returns (clock w (ticks w)), tick w).

(** Some character of the string satisfies [p]. *)
Fixpoint string_exists (p : ascii -> bool) (s : string) : bool :=
  match s with
  | EmptyString => false
  | String c rest => p c || string_exists p rest
  end.

(** [s.split(sep)] for a one-character separator. *)
Fixpoint split_on (sep : ascii) (s : string) : list string :=
  match s with
  | EmptyString => [""]
  | String c rest =>
      if Ascii.eqb c sep then "" :: split_on sep rest
      else match split_on sep rest with
           | seg :: segs => String c seg :: segs
           | [] => [String c ""]
           end
  end.

(** [s.indexOf('//') >= 0]. *)
Fixpoint has_double_slash (s : string) : bool :=
  match s with
  | EmptyString => false
  | String c rest =>
      (Ascii.eqb c "/"%char &&
       match rest with
       | String d _ => Ascii.eqb d "/"%char
       | EmptyString => false
       end) || has_double_slash rest
  end.

(** A plain id: not empty and without a slash. Document ids are such. *)
Definition is_segment (s : string) : bool :=
  negb (String.eqb s "") && negb (string_exists (fun c => Ascii.eqb c "/"%char) s).

(** A fresh auto-generated id: twenty letters and digits. A supply that
    hands out anything but a plain id is outside the model. *)
Definition autoId : M string :=
  fun w =>
    let id := auto_ids w (next_id w) in
    if is_segment id then (Returns id, take_id w) else (Unmodelled, take_id w).

(** [ResourcePath.fromString(...components)]: every component is split at
    its slashes and the empty pieces are dropped; a double slash is refused. *)
Definition resource_path (components : list string) : outcome path :=
  if existsb has_double_slash components
  then Throws (FirestoreError "invalid-argument")
  else Returns (concat (map (fun c => List.filter (fun x => negb (String.eqb x ""))
                                                  (split_on "/"%char c)) components)).

(** [collection(parent, path, ...pathSegments)], with [[]] as the parent for
    the database itself: the first component must not be empty and the
    resulting path must have an odd number of segments. *)
Definition collection (parent : path) (components : list string) : outcome path :=
  match components with
  | [] => Throws (FirestoreError "invalid-argument")
  | first :: _ =>
      if String.eqb first "" then Throws (FirestoreError "invalid-argument") else
      do relative <- resource_path components ;
      if Nat.even (length (parent ++ relative))
      then Throws (FirestoreError "invalid-argument")
      else Returns (parent ++ relative)
  end.

(** [doc(parent, path, ...pathSegments)]: an even number of segments. *)
Definition doc (parent : path) (components : list string) : outcome path :=
  match components with
  | [] => Throws (FirestoreError "invalid-argument")
  | first :: _ =>
      if String.eqb first "" then Throws (FirestoreError "invalid-argument") else
      do relative <- resource_path components ;
      if Nat.odd (length (parent ++ relative))
      then Throws (FirestoreError "invalid-argument")
      else Returns (parent ++ relative)
  end.

(** [doc(collectionRef, id)] and [doc(collectionRef)]. *)
Definition doc_in (coll : path) (id : string) : outcome path :=
  doc coll [id].

Definition doc_auto (coll : path) : M path :=
  let! id := autoId in
  lift (doc_in coll id).

(** [ref.id]: the last segment. *)
Definition ref_id (p : path) : string :=
  match last p with
  | Some id => id
  | None => ""
  end.

(** *** Field paths and field names *)

Definition reserved_char (c : ascii) : bool :=
  existsb (Ascii.eqb c) ["~"; "*"; "/"; "["; "]"]%char.

(** The segments of a field path given as a string
    ([fieldPathFromDotSeparatedString]): reserved characters and empty
    segments are refused. *)
Definition field_path_segments (f : string) : outcome (list string) :=
  if string_exists reserved_char f then Throws (FirestoreError "invalid-argument")
  else let segs := split_on "."%char f in
       if existsb (String.eqb "") segs then Throws (FirestoreError "invalid-argument")
       else Returns segs.

(** A field named by a string in a query. A dotted path reaches inside a
    map value, which is outside the scalar field values kept here, and
    [__name__] stands for the id of the document, not for a field. *)
Definition fieldPath (f : string) : outcome string :=
  do segs <- field_path_segments f ;
  match segs with
  | [_] => if String.eqb f "__name__" then Unmodelled else Returns f
  | _ => Unmodelled
  end.

(** [s.endsWith(suffix)]. *)
Definition ends_with (suffix s : string) : bool :=
  Nat.leb (String.length suffix) (String.length s) &&
  String.eqb (String.substring (String.length s - String.length suffix)
                               (String.length suffix) s) suffix.

(** A line terminator of the runtime's regular expressions: LF, CR, U+2028
    or U+2029 (in UTF-8). *)
Fixpoint has_line_terminator (s : string) : bool :=
  match s with
  | EmptyString => false
  | String c rest =>
      Ascii.eqb c "010"%char || Ascii.eqb c "013"%char ||
      (Ascii.eqb c "226"%char &&
       match rest with
       | String d (String e _) =>
           Ascii.eqb d "128"%char && (Ascii.eqb e "168"%char || Ascii.eqb e "169"%char)
       | _ => false
       end) ||
      has_line_terminator rest
  end.

(** The names the store reserves: [/^__.*__$/], whose dot matches no line
    terminator. *)
Definition reserved_name (s : string) : bool :=
  Nat.leb 4 (String.length s) && String.prefix "__" s && ends_with "__" s &&
  negb (has_line_terminator s).

(** The data of a write are parsed as those of a [set] ([addDoc], [setDoc],
    [batch.set]) or as those of an [update] ([updateDoc], [batch.update]). *)
Inductive data_source := SetData | UpdateData.

(** A key of the data of a write. A [set] takes it as the name of a field,
    which must not be empty or reserved. An [update] reads it as a dotted
    field path whose segments must be such names; a path of several
    segments writes inside a map value, which is outside the scalar field
    values kept here. *)
Definition data_key (source : data_source) (k : string) : outcome string :=
  match source with
  | SetData =>
      if String.eqb k "" || reserved_name k
      then Throws (FirestoreError "invalid-argument")
      else Returns k
  | UpdateData =>
      do segs <- field_path_segments k ;
      if existsb reserved_name segs then Throws (FirestoreError "invalid-argument")
      else match segs with
           | [_] => Returns k
           | _ => Unmodelled
           end
  end.

Definition refused_key (source : data_source) (k : string) : bool :=
  match data_key source k with Throws _ => true | _ => false end.

Definition plain_key (source : data_source) (k : string) : bool :=
  match data_key source k with Returns _ => true | _ => false end.

(** *** Queries *)

Definition is_inequality (op : where_op) : bool :=
  match op with OpEq => false | _ => true end.

(** [where(field, op, value)]: the field path is checked when the constraint
    is built, the value when the constraint is applied to a query. *)
Definition where_ (field : string) (op : where_op) (v : fval) : outcome QueryConstraint :=
  do f <- fieldPath field ;
  Returns (QWhere f op v).

(** [where(field, 'in', value)]. *)
Definition where_in (field : string) (value : filter_value) : outcome QueryConstraint :=
  do f <- fieldPath field ;
  Returns (QWhereIn f value).

Definition orderBy (field : string) (dir : direction) : outcome QueryConstraint :=
  do f <- fieldPath field ;
  Returns (QOrderBy f dir).

(** [limit(n)]: [n] must be positive. *)
Definition limit (n : Z) : outcome QueryConstraint :=
  if n <=? 0 then Throws (FirestoreError "invalid-argument")
  else Returns (QLimit n).

(** A filter compares values of one type only; [!=] matches any non-null
    value that differs. *)
Definition where_matches (op : where_op) (x v : fval) : bool :=
  match op with
  | OpNe => negb (bool_decide (x = FNull)) && negb (bool_decide (x = v))
  | _ =>
      (type_order x =? type_order v) &&
      match op, fval_compare x v with
      | OpLt, Lt | OpLe, Lt | OpLe, Eq | OpEq, Eq
      | OpGe, Eq | OpGe, Gt | OpGt, Gt => true
      | _, _ => false
      end
  end.

(** A document is kept when it passes every filter and has every field the
    query orders by. *)
Definition matches (d : fields) (c : QueryConstraint) : bool :=
  match c with
  | QWhere f op v =>
      match d !! f with
      | Some x => where_matches op x v
      | None => false
      end
  | QWhereIn f (Array vs) =>
      match d !! f with
      | Some x => bool_decide (x ∈ vs)
      | None => false
      end
  | QWhereIn f (Scalar _) => false
  | QOrderBy f _ => bool_decide (is_Some (d !! f))
  | QLimit _ => true
  end.

Definition explicit_orders (cs : list QueryConstraint) : list (string * direction) :=
  omap (fun c => match c with QOrderBy f d => Some (f, d) | _ => None end) cs.

Definition inequality_fields (cs : list QueryConstraint) : list string :=
  omap (fun c => match c with
                 | QWhere f op _ => if is_inequality op then Some f else None
                 | _ => None
                 end) cs.

Definition last_direction (os : list (string * direction)) : direction :=
  match last os with
  | Some (_, d) => d
  | None => asc
  end.

(** Insertion sort by a boolean order. *)
Fixpoint insert_by {A : Type} (leb : A -> A -> bool) (x : A) (l : list A) : list A :=
  match l with
  | [] => [x]
  | y :: rest => if leb x y then x :: y :: rest else y :: insert_by leb x rest
  end.

Definition sort_by {A : Type} (leb : A -> A -> bool) (l : list A) : list A :=
  foldr (insert_by leb) [] l.

(** The fields of range filters the query does not order by are ordered by
    implicitly, in the last explicit direction. *)
Definition implicit_orders (cs : list QueryConstraint) : list (string * direction) :=
  let ex := explicit_orders cs in
  let d := last_direction ex in
  map (fun f => (f, d))
      (sort_by String.leb
         (remove_dups (filter (fun f => f ∉ map fst ex) (inequality_fields cs)))).

Definition directed (dir : direction) (c : comparison) : comparison :=
  match dir with asc => c | desc => CompOpp c end.

Definition compare_field (f : string) (a b : fields) : comparison :=
  match a !! f, b !! f with
  | Some x, Some y => fval_compare x y
  | None, Some _ => Lt
  | Some _, None => Gt
  | None, None => Eq
  end.

(** Documents are compared field by field, and by id at the end. *)
Fixpoint compare_docs (orders : list (string * direction)) (keydir : direction)
    (a b : string * fields) : comparison :=
  match orders with
  | [] => directed keydir (String.compare (fst a) (fst b))
  | (f, dir) :: rest =>
      match directed dir (compare_field f (snd a) (snd b)) with
      | Eq => compare_docs rest keydir a b
      | c => c
      end
  end.

Definition doc_leb (orders : list (string * direction)) (keydir : direction)
    (a b : string * fields) : bool :=
  match compare_docs orders keydir a b with Gt => false | _ => true end.

(** The last [limit] of the query applies. *)
Definition query_limit (cs : list QueryConstraint) : option Z :=
  last (omap (fun c => match c with QLimit n => Some n | _ => None end) cs).

(** The documents directly inside a collection, with their ids. *)
Definition docs_in (coll : path) (s : store) : list (string * fields) :=
  omap (fun e : path * fields =>
          if bool_decide (fst e = coll ++ [ref_id (fst e)])
          then Some (ref_id (fst e), snd e) else None) s.

(** The answer to a query. Without any order the documents come by
    ascending id. *)
Definition run_query (coll : path) (cs : list QueryConstraint) (s : store)
    : list (string * fields) :=
  let kept := filter (fun d => forallb (matches (snd d)) cs) (docs_in coll s) in
  let ex := explicit_orders cs in
  let sorted := sort_by (doc_leb (ex ++ implicit_orders cs) (last_direction (ex ++ implicit_orders cs))) kept in
  match query_limit cs with
  | Some n => take (Z.to_nat n) sorted
  | None => sorted
  end.

(** [getDoc(ref)]: the data when the document exists. *)
Definition getDoc (p : path) : M (option fields) :=
  fun w => (Returns (lookup_doc p (db w)), with_request (ReqGetDoc p) w).

Definition is_range (op : where_op) : bool :=
  match op with OpLt | OpLe | OpGe | OpGt => true | _ => false end.

Definition is_not_equal (c : QueryConstraint) : bool :=
  match c with QWhere _ OpNe _ => true | _ => false end.

Definition is_in (c : QueryConstraint) : bool :=
  match c with QWhereIn _ _ => true | _ => false end.

(** Some field of [fields] is not [f]. *)
Definition other_than (f : string) (fields : list string) : bool :=
  existsb (fun g => negb (String.eqb g f)) fields.

(** One constraint applied to the query built so far ([_apply]). An ['in']
    filter needs a non-empty array and a query takes one ['!='] filter.
    Some checks changed between the versions of the client and are left
    outside: [null] or more than ten values in the array of an ['in']
    filter, a second ['in'] filter, [null] compared by a range filter,
    inequality filters on two fields, and an inequality filter on another
    field than the first ordering. *)
Definition apply_constraint (applied : list QueryConstraint) (c : QueryConstraint)
    : outcome (list QueryConstraint) :=
  match c with
  | QWhereIn _ (Scalar _) => Throws (FirestoreError "invalid-argument")
  | QWhereIn _ (Array []) => Throws (FirestoreError "invalid-argument")
  | QWhereIn _ (Array vs) =>
      if (10 <? Z.of_nat (length vs)) || bool_decide (FNull ∈ vs) || existsb is_in applied
      then Unmodelled
      else Returns (applied ++ [c])
  | QWhere f op v =>
      if is_not_equal c && existsb is_not_equal applied
      then Throws (FirestoreError "invalid-argument")
      else if is_range op && bool_decide (v = FNull) then Unmodelled
      else if is_inequality op &&
              (other_than f (inequality_fields applied) ||
               other_than f (take 1 (map fst (explicit_orders applied))))
      then Unmodelled
      else Returns (applied ++ [c])
  | QOrderBy f _ =>
      match explicit_orders applied with
      | [] => if other_than f (inequality_fields applied) then Unmodelled
              else Returns (applied ++ [c])
      | _ => Returns (applied ++ [c])
      end
  | QLimit _ => Returns (applied ++ [c])
  end.

Fixpoint query_loop (applied : list QueryConstraint) (constraints : list QueryConstraint)
    : outcome (list QueryConstraint) :=
  match constraints with
  | [] => Returns applied
  | c :: rest =>
      do applied' <- apply_constraint applied c ;
      query_loop applied' rest
  end.

(** [query(coll, ...constraints)]: the constraints are applied one after the
    other, and each is checked against the query built so far. *)
Definition query (coll : path) (constraints : list QueryConstraint)
    : outcome (path * list QueryConstraint) :=
  do applied <- query_loop [] constraints ;
  Returns (coll, applied).

(** [getDocs(query(coll, ...constraints))]: the snapshot's [docs]. A query
    the client refuses sends no request. *)
Definition getDocs (coll : path) (cs : list QueryConstraint) : M (list (string * fields)) :=
  let! q := lift (query coll cs) in
  fun w => (Returns (run_query (fst q) (snd q) (db w)),
            with_request (ReqRunQuery (fst q) (snd q)) w).

(** *** Writes *)

#[global] Instance wval_eq_dec : EqDecision wval.
Proof. solve_decision. Defined.

Definition defined_part (data : jsobject) : jsobject :=
  filter (fun kv : string * wval => snd kv <> WUndefined) data.

(** Parsed data whose keys are all plain field names go on to the store. *)
Definition accepted (source : data_source) (data : jsobject) : M jsobject :=
  fun w =>
    if bool_decide (map_Forall (fun k _ => plain_key source k = true) data)
    then (Returns data, w) else (Unmodelled, w).

(** What the client makes of the data of a write, before anything is sent.
    It refuses a key that is no field name (or, for an [update], no field
    path), and it refuses [undefined] properties unless it was configured
    to drop them. *)
Definition parseData (source : data_source) (data : jsobject) : M jsobject :=
  fun w =>
    if bool_decide (map_Forall (fun k _ => refused_key source k = false) data) then
      if bool_decide (defined_part data = data) then accepted source data w
      else if ignoreUndefinedProperties w then accepted source (defined_part data) w
      else (Throws (FirestoreError "invalid-argument"), w)
    else (Throws (FirestoreError "invalid-argument"), w).

(** One commit request: all of [ms] or nothing. *)
Definition send_commit (ms : list mutation) : M unit :=
  fun w =>
    let w1 := with_request (ReqCommit ms) w in
    match apply_mutations ms (db w) with
    | Returns s' => (Returns tt, with_db s' w1)
    | Throws e => (Throws e, w1)
    | Unmodelled => (Unmodelled, w1)
    end.

(** [addDoc(coll, data)]: a new document under a fresh id; the write requires
    that no document has that id. *)
Definition addDoc (coll : path) (data : jsobject) : M path :=
  let! docRef := doc_auto coll in
  let! parsed := parseData SetData data in
  let! _ := send_commit [MCreate docRef parsed] in
  ret docRef.

Definition updateDoc (ref : path) (data : jsobject) : M unit :=
  let! parsed := parseData UpdateData data in
  send_commit [MUpdate ref parsed].

Definition deleteDoc (ref : path) : M unit :=
  send_commit [MDelete ref].

(** [writeBatch(db)] and its methods; the batch is the list of writes
    collected so far. *)
Definition writeBatch : list mutation := [].

Definition batch_set (batch : list mutation) (ref : path) (data : jsobject) : M (list mutation) :=
  let! parsed := parseData SetData data in
  ret (batch ++ [MSet ref parsed]).

Definition batch_update (batch : list mutation) (ref : path) (data : jsobject) : M (list mutation) :=
  let! parsed := parseData UpdateData data in
  ret (batch ++ [MUpdate ref parsed]).

Definition batch_delete (batch : list mutation) (ref : path) : list mutation :=
  batch ++ [MDelete ref].

(** [batch.commit()]: an empty batch resolves without a request. *)
Definition batch_commit (batch : list mutation) : M unit :=
  match batch with
  | [] => ret tt
  | _ => send_commit batch
  end.

(** ToBoolean on a field value read back from the store; timestamps and
    the opaque values are objects. *)
Definition fval_truthy (v : fval) : bool :=
  match v with
  | FNull => false
  | FBool b => b
  | FNum n => negb (n =? 0)
  | FStr s => negb (String.eqb s "")
  | FTime _ | FOther _ => true
  end.

(** [x || undefined] for a property [x] of an entity. *)
Definition or_undefined (x : option fval) : wval :=
  match x with
  | Some v => if fval_truthy v then WVal v else WUndefined
  | None => WUndefined
  end.

(** The character U+F8FF in the store's encoding of strings (UTF-8). *)
Definition uf8ff : string :=
  String "239"%char (String "163"%char (String "191"%char EmptyString)).

End Firestore.

(** ** [COLLECTIONS] ([src/lib/constants.ts]) *)
Module COLLECTIONS.
Definition ASSETS := "assets".
Definition ASSET_EVENTS := "events".
Definition OFFICE_STOCK := "office_stock".
Definition STOCK_TRANSACTIONS := "stock_transactions".
Definition MAINTENANCE := "maintenance".
Definition AUDIT_LOGS := "audit_logs".
Definition MAINTENANCE_COMMENTS := "comments".
End COLLECTIONS.

(** ** [src/services/base.service.ts] *)
Module BaseService.
Import JS Firestore.

(** An instance: the collection it serves and the tenant bound to it. *)
Record t := Instance {
  collectionName : string;
  tenantId : option string;
}.

Definition new (collectionName : string) : t := Instance collectionName None.

Definition setTenant (this : t) (tenantId : string) : t :=
  Instance (collectionName this) (Some tenantId).

Definition getCollectionRef (this : t) : outcome path :=
  match nonempty (tenantId this) with
  | None => Throws (Error "Tenant ID must be set before performing operations")
  | Some tid => collection [] ["tenants"; tid; collectionName this]
  end.

Definition getDocRef (this : t) (id : string) : outcome path :=
  do coll <- getCollectionRef this ;
  doc_in coll id.

(** [this.tenantId] as a field value. *)
Definition tenant_value (tenantId : option string) : wval :=
  match tenantId with
  | Some tid => WVal (FStr tid)
  | None => WVal FNull
  end.

Definition addAuditFields (this : t) (data : jsobject) (userId : string) (isNew : bool)
    : M jsobject :=
  let! now := Timestamp_now in
  if isNew then
    ret (<["updated_by" := WVal (FStr userId)]>
         (<["updated_at" := WVal (FTime now)]>
         (<["created_by" := WVal (FStr userId)]>
         (<["created_at" := WVal (FTime now)]>
         (<["tenant_id" := tenant_value (tenantId this)]> data)))))
  else
    ret (<["updated_by" := WVal (FStr userId)]>
         (<["updated_at" := WVal (FTime now)]> data)).

Definition getById (this : t) (id : string) : M (option fields) :=
  let! docRef := lift (getDocRef this id) in
  let! docSnap := getDoc docRef in
  match docSnap with
  | None => ret None
  | Some data => ret (Some (entity (ref_id docRef) data))
  end.

Definition getAll (this : t) (constraints : list QueryConstraint) : M (list fields) :=
  let! collectionRef := lift (getCollectionRef this) in
  let! querySnapshot := getDocs collectionRef constraints in
  ret (map (fun d => entity (fst d) (snd d)) querySnapshot).

Record SortOption := { field : string; direction_ : direction }.

Record QueryParams := {
  page : option Z;
  page_size : option Z;
  sort : option SortOption;
}.

Record PaginatedResponse := {
  data : list fields;
  total : Z;
  page_ : Z;
  page_size_ : Z;
  has_more : bool;
}.

Definition getPaginated (this : t) (params : QueryParams)
    (additionalConstraints : list QueryConstraint) : M PaginatedResponse :=
  let page := default 1 (page params) in
  let page_size := default 25 (page_size params) in
  let! ordering := lift (match sort params with
                         | Some sort => orderBy (field sort) (direction_ sort)
                         | None => orderBy "created_at" desc
                         end) in
  let! lim := lift (do n <- number_add page_size 1 ; limit n) in
  let constraints := additionalConstraints ++ [ordering] ++ [lim] in
  let! collectionRef := lift (getCollectionRef this) in
  let! querySnapshot := getDocs collectionRef constraints in
  let docs := slice 0 page_size querySnapshot in
  let hasMore := page_size <? Z.of_nat (length querySnapshot) in
  ret {| data := map (fun d => entity (fst d) (snd d)) docs;
         total := 0;
         page_ := page;
         page_size_ := page_size;
         has_more := hasMore |}.

(** The created entity as returned: [{ id: docRef.id, ...docData }]. *)
Definition create (this : t) (data : jsobject) (userId : string) : M jsobject :=
  let! docData := addAuditFields this data userId true in
  let! coll := lift (getCollectionRef this) in
  let! docRef := addDoc coll docData in
  ret (docData ∪ {[ "id" := WVal (FStr (ref_id docRef)) ]}).

Definition update (this : t) (id : string) (data : jsobject) (userId : string) : M unit :=
  let! docRef := lift (getDocRef this id) in
  let! updateData := addAuditFields this data userId false in
  updateDoc docRef updateData.

Definition delete (this : t) (id : string) : M unit :=
  let! docRef := lift (getDocRef this id) in
  deleteDoc docRef.

Inductive op_kind := op_create | op_update | op_delete.

Record operation := {
  type : op_kind;
  id : option string;
  op_data : option jsobject;
  userId : option string;
}.

(** The body of the loop of [batchWrite] for one operation. *)
Definition batchWrite_step (this : t) (batch : list mutation) (op : operation)
    : M (list mutation) :=
  match type op, op_data op, nonempty (userId op) with
  | op_create, Some data, Some uid =>
      let! coll := lift (getCollectionRef this) in
      let! docRef := doc_auto coll in
      let! docData := addAuditFields this data uid true in
      batch_set batch docRef docData
  | _, _, _ =>
  match type op, nonempty (id op), op_data op, nonempty (userId op) with
  | op_update, Some i, Some data, Some uid =>
      let! docRef := lift (getDocRef this i) in
      let! updateData := addAuditFields this data uid false in
      batch_update batch docRef updateData
  | _, _, _, _ =>
  match type op, nonempty (id op) with
  | op_delete, Some i =>
      let! docRef := lift (getDocRef this i) in
      ret (batch_delete batch docRef)
  | _, _ => ret batch
  end end end.

Fixpoint batchWrite_loop (this : t) (batch : list mutation) (operations : list operation)
    : M (list mutation) :=
  match operations with
  | [] => ret batch
  | op :: rest =>
      let! batch' := batchWrite_step this batch op in
      batchWrite_loop this batch' rest
  end.

Definition batchWrite (this : t) (operations : list operation) : M unit :=
  let! batch := batchWrite_loop this writeBatch operations in
  batch_commit batch.

(** [FilterOption] and the [filters] of [QueryParams]; a filter's value is
    of unknown type: a scalar or an array of scalars here. *)
Inductive filter_operator :=
| op_eq | op_neq | op_gt | op_gte | op_lt | op_lte | op_contains | op_in.

Record FilterOption := {
  filter_field : string;
  operator : filter_operator;
  value_ : filter_value;
}.

(** [where(field, op, value)] for a comparison and a value of unknown type;
    comparing with an array is outside the scalar values kept here. *)
Definition where_value (field : string) (op : where_op) (v : filter_value)
    : outcome QueryConstraint :=
  match v with
  | Scalar x => where_ field op x
  | Array _ => do _ <- fieldPath field ; Unmodelled
  end.

(** The constraints one filter pushes. For ['contains'] the value is taken
    as a string; the concatenation that would convert another value is left
    outside. *)
Definition filter_constraints (filter : FilterOption) : outcome (list QueryConstraint) :=
  match operator filter with
  | op_eq => do c <- where_value (filter_field filter) OpEq (value_ filter) ; Returns [c]
  | op_neq => do c <- where_value (filter_field filter) OpNe (value_ filter) ; Returns [c]
  | op_gt => do c <- where_value (filter_field filter) OpGt (value_ filter) ; Returns [c]
  | op_gte => do c <- where_value (filter_field filter) OpGe (value_ filter) ; Returns [c]
  | op_lt => do c <- where_value (filter_field filter) OpLt (value_ filter) ; Returns [c]
  | op_lte => do c <- where_value (filter_field filter) OpLe (value_ filter) ; Returns [c]
  | op_in => do c <- where_in (filter_field filter) (value_ filter) ; Returns [c]
  | op_contains =>
      match value_ filter with
      | Scalar (FStr searchValue) =>
          do c1 <- where_ (filter_field filter) OpGe (FStr searchValue) ;
          do c2 <- where_ (filter_field filter) OpLe (FStr (searchValue +:+ uf8ff)) ;
          Returns [c1; c2]
      | _ => Unmodelled
      end
  end.

Fixpoint filters_loop (constraints : list QueryConstraint) (filters : list FilterOption)
    : outcome (list QueryConstraint) :=
  match filters with
  | [] => Returns constraints
  | filter :: rest =>
      do cs <- filter_constraints filter ;
      filters_loop (constraints ++ cs) rest
  end.

(** [buildQueryConstraints(params)], with the [filters] of the parameters
    given beside the fields of [QueryParams] above. *)
Definition buildQueryConstraints (filters : option (list FilterOption)) (params : QueryParams)
    : outcome (list QueryConstraint) :=
  do constraints <- match filters with
                    | Some fs => filters_loop [] fs
                    | None => Returns []
                    end ;
  do constraints <- match sort params with
                    | Some sort =>
                        do o <- orderBy (field sort) (direction_ sort) ;
                        Returns (constraints ++ [o])
                    | None => Returns constraints
                    end ;
  match page_size params with
  | Some n => if n =? 0 then Returns constraints
              else do l <- limit n ; Returns (constraints ++ [l])
  | None => Returns constraints
  end.

End BaseService.

(** ** [src/services/audit.service.ts] *)
Module AuditLogService.
Import JS Firestore.

Record t := Instance { tenantId : option string }.

Definition new : t := Instance None.

Definition setTenant (this : t) (tenantId : string) : t := Instance (Some tenantId).

Definition getCollectionRef (this : t) : outcome path :=
  match nonempty (tenantId this) with
  | None => Throws (Error "Tenant ID must be set")
  | Some tid => collection [] ["tenants"; tid; COLLECTIONS.AUDIT_LOGS]
  end.

(** One entry of [changes]; the old and new values are of unknown type and
    are kept by their rendering. *)
Record change := { field : string; old_value : string; new_value : string }.

Definition change_repr (c : change) : string :=
  "{field:" +:+ field c +:+ ",old_value:" +:+ old_value c +:+
  ",new_value:" +:+ new_value c +:+ "}".

Definition changes_value (cs : list change) : fval :=
  FOther ("[" +:+ String.concat "," (map change_repr cs) +:+ "]").

Definition optional {A : Type} (f : A -> fval) (o : option A) : wval :=
  match o with
  | Some a => WVal (f a)
  | None => WUndefined
  end.

Record log_params := {
  action : string;
  module : string;
  entityType : string;
  entityId : string;
  entityName : option string;
  description : string;
  changes : option (list change);
  userId : string;
  userEmail : string;
  userName : string;
  organizationId : string;
  ipAddress : option string;
  userAgent : option string;
}.

Definition log (this : t) (params : log_params) : M unit :=
  let! now := Timestamp_now in
  let logData : jsobject :=
    list_to_map
      [ ("tenant_id", BaseService.tenant_value (tenantId this));
        ("organization_id", WVal (FStr (organizationId params)));
        ("action", WVal (FStr (action params)));
        ("module", WVal (FStr (module params)));
        ("entity_type", WVal (FStr (entityType params)));
        ("entity_id", WVal (FStr (entityId params)));
        ("entity_name", optional FStr (entityName params));
        ("description", WVal (FStr (description params)));
        ("changes", optional changes_value (changes params));
        ("user_id", WVal (FStr (userId params)));
        ("user_email", WVal (FStr (userEmail params)));
        ("user_name", WVal (FStr (userName params)));
        ("ip_address", optional FStr (ipAddress params));
        ("user_agent", optional FStr (userAgent params));
        ("created_at", WVal (FTime now)) ] in
  let! coll := lift (getCollectionRef this) in
  let! _ := addDoc coll logData in
  ret tt.

Record user := { id : string; email : string; name : string }.

Definition logCreate (this : t) (module entityType entityId entityName : string)
    (u : user) (organizationId : string) : M unit :=
  log this {| action := "create"; module := module; entityType := entityType;
              entityId := entityId; entityName := Some entityName;
              description := "Created " +:+ entityType +:+ ": " +:+ entityName;
              changes := None;
              userId := id u; userEmail := email u; userName := name u;
              organizationId := organizationId;
              ipAddress := None; userAgent := None |}.

Definition logUpdate (this : t) (module entityType entityId entityName : string)
    (changes : list change) (u : user) (organizationId : string) : M unit :=
  let changedFields := String.concat ", " (map field changes) in
  log this {| action := "update"; module := module; entityType := entityType;
              entityId := entityId; entityName := Some entityName;
              description := "Updated " +:+ entityType +:+ ": " +:+ entityName +:+
                             " (fields: " +:+ changedFields +:+ ")";
              changes := Some changes;
              userId := id u; userEmail := email u; userName := name u;
              organizationId := organizationId;
              ipAddress := None; userAgent := None |}.

Definition logDelete (this : t) (module entityType entityId entityName : string)
    (u : user) (organizationId : string) : M unit :=
  log this {| action := "delete"; module := module; entityType := entityType;
              entityId := entityId; entityName := Some entityName;
              description := "Deleted " +:+ entityType +:+ ": " +:+ entityName;
              changes := None;
              userId := id u; userEmail := email u; userName := name u;
              organizationId := organizationId;
              ipAddress := None; userAgent := None |}.

Definition logAssign (this : t) (entityType entityId entityName assignedTo : string)
    (u : user) (organizationId : string) : M unit :=
  log this {| action := "assign"; module := "assets"; entityType := entityType;
              entityId := entityId; entityName := Some entityName;
              description := "Assigned " +:+ entityType +:+ ": " +:+ entityName +:+
                             " to " +:+ assignedTo;
              changes := None;
              userId := id u; userEmail := email u; userName := name u;
              organizationId := organizationId;
              ipAddress := None; userAgent := None |}.

Definition logTransfer (this : t) (entityType entityId entityName fromOffice toOffice : string)
    (u : user) (organizationId : string) : M unit :=
  log this {| action := "transfer"; module := "assets"; entityType := entityType;
              entityId := entityId; entityName := Some entityName;
              description := "Transferred " +:+ entityType +:+ ": " +:+ entityName +:+
                             " from " +:+ fromOffice +:+ " to " +:+ toOffice;
              changes := Some [ {| field := "office"; old_value := fromOffice;
                                   new_value := toOffice |} ];
              userId := id u; userEmail := email u; userName := name u;
              organizationId := organizationId;
              ipAddress := None; userAgent := None |}.

Definition logLogin (this : t) (u : user) (organizationId : string)
    (ipAddress userAgent : option string) : M unit :=
  log this {| action := "login"; module := "auth"; entityType := "user";
              entityId := id u; entityName := Some (name u);
              description := "User logged in: " +:+ email u;
              changes := None;
              userId := id u; userEmail := email u; userName := name u;
              organizationId := organizationId;
              ipAddress := ipAddress; userAgent := userAgent |}.

Definition logLogout (this : t) (u : user) (organizationId : string) : M unit :=
  log this {| action := "logout"; module := "auth"; entityType := "user";
              entityId := id u; entityName := Some (name u);
              description := "User logged out: " +:+ email u;
              changes := None;
              userId := id u; userEmail := email u; userName := name u;
              organizationId := organizationId;
              ipAddress := None; userAgent := None |}.

(** [`${n}`] for a number: the digits of a safe integer. Beyond them the
    runtime prints the shortest decimal that reads back as the same double,
    and from 1e21 on it switches to exponent notation. *)
Definition number_to_string (n : Z) : outcome string :=
  if isSafeInteger n then Returns (pretty n) else Unmodelled.

Definition logExport (this : t) (module exportType : string) (recordCount : Z)
    (u : user) (organizationId : string) : M unit :=
  let! count := lift (number_to_string recordCount) in
  log this {| action := "export"; module := module; entityType := exportType;
              entityId := "-"; entityName := None;
              description := "Exported " +:+ count +:+ " " +:+ exportType +:+
                             " records from " +:+ module;
              changes := None;
              userId := id u; userEmail := email u; userName := name u;
              organizationId := organizationId;
              ipAddress := None; userAgent := None |}.

Record logs_query := {
  page : option Z;
  page_size : option Z;
  q_module : option string;
  q_action : option string;
  q_userId : option string;
  q_entityType : option string;
  startDate : option Z;
  endDate : option Z;
}.

(** [if (x) constraints.push(c)]. *)
Definition push_if {A : Type} (x : option A) (c : A -> outcome QueryConstraint)
    (constraints : list QueryConstraint) : outcome (list QueryConstraint) :=
  match x with
  | Some a => do q <- c a ; Returns (constraints ++ [q])
  | None => Returns constraints
  end.

(** [x || d] for a number. *)
Definition number_or (x : option Z) (d : Z) : Z :=
  match x with
  | Some n => if n =? 0 then d else n
  | None => d
  end.

Definition getLogs (this : t) (params : logs_query) : M (BaseService.PaginatedResponse) :=
  let! constraints := lift (
    do c1 <- push_if (nonempty (q_module params)) (fun m => where_ "module" OpEq (FStr m)) [] ;
    do c2 <- push_if (nonempty (q_action params)) (fun a => where_ "action" OpEq (FStr a)) c1 ;
    do c3 <- push_if (nonempty (q_userId params)) (fun u => where_ "user_id" OpEq (FStr u)) c2 ;
    do c4 <- push_if (nonempty (q_entityType params)) (fun e => where_ "entity_type" OpEq (FStr e)) c3 ;
    do c5 <- push_if (startDate params) (fun d => where_ "created_at" OpGe (FTime d)) c4 ;
    do c6 <- push_if (endDate params) (fun d => where_ "created_at" OpLe (FTime d)) c5 ;
    do o <- orderBy "created_at" desc ;
    Returns (c6 ++ [o])) in
  let pageSize := number_or (page_size params) 50 in
  let! lim := lift (do n <- number_add pageSize 1 ; limit n) in
  let! coll := lift (getCollectionRef this) in
  let! snapshot := getDocs coll (constraints ++ [lim]) in
  let docs := slice 0 pageSize snapshot in
  let hasMore := pageSize <? Z.of_nat (length snapshot) in
  ret {| BaseService.data := map (fun d => entity (fst d) (snd d)) docs;
         BaseService.total := 0;
         BaseService.page_ := number_or (page params) 1;
         BaseService.page_size_ := pageSize;
         BaseService.has_more := hasMore |}.

Definition getEntityLogs (this : t) (entityType entityId : string) : M (list fields) :=
  let! coll := lift (getCollectionRef this) in
  let! constraints := lift (
    do c1 <- where_ "entity_type" OpEq (FStr entityType) ;
    do c2 <- where_ "entity_id" OpEq (FStr entityId) ;
    do c3 <- orderBy "created_at" desc ;
    do c4 <- limit 100 ;
    Returns [c1; c2; c3; c4]) in
  let! snapshot := getDocs coll constraints in
  ret (map (fun d => entity (fst d) (snd d)) snapshot).

(** [getUserActivity]: the start of the window comes from the runtime's
    calendar ([setDate(getDate() - days)] in local time), taken here as the
    function [days_before]. *)
Definition getUserActivity (days_before : Z -> Z -> Z) (this : t) (userId : string)
    (days : option Z) : M (list fields) :=
  let days := default 30 days in
  let! today := Timestamp_now in
  let startDate := days_before today days in
  let! coll := lift (getCollectionRef this) in
  let! constraints := lift (
    do c1 <- where_ "user_id" OpEq (FStr userId) ;
    do c2 <- where_ "created_at" OpGe (FTime startDate) ;
    do c3 <- orderBy "created_at" desc ;
    do c4 <- limit 200 ;
    Returns [c1; c2; c3; c4]) in
  let! snapshot := getDocs coll constraints in
  ret (map (fun d => entity (fst d) (snd d)) snapshot).

(** The calls a client of the service can make, and a session as a sequence
    of calls on the singleton instance; results and exceptions go to the
    caller and the session goes on. *)
Inductive call :=
| CallSetTenant (tenantId : string)
| CallLog (params : log_params)
| CallLogCreate (module entityType entityId entityName : string) (u : user) (org : string)
| CallLogUpdate (module entityType entityId entityName : string) (cs : list change)
                (u : user) (org : string)
| CallLogDelete (module entityType entityId entityName : string) (u : user) (org : string)
| CallLogAssign (entityType entityId entityName assignedTo : string) (u : user) (org : string)
| CallLogTransfer (entityType entityId entityName fromOffice toOffice : string)
                  (u : user) (org : string)
| CallLogLogin (u : user) (org : string) (ipAddress userAgent : option string)
| CallLogLogout (u : user) (org : string)
| CallLogExport (module exportType : string) (recordCount : Z) (u : user) (org : string)
| CallGetLogs (params : logs_query)
| CallGetEntityLogs (entityType entityId : string)
| CallGetUserActivity (userId : string) (days : option Z).

Definition after {A : Type} (this : t) (c : M A) (w : world) : t * world :=
  (this, snd (c w)).

Definition perform (days_before : Z -> Z -> Z) (st : t * world) (c : call) : t * world :=
  let (this, w) := st in
  match c with
  | CallSetTenant tid => (setTenant this tid, w)
  | CallLog p => after this (log this p) w
  | CallLogCreate m et ei en u o => after this (logCreate this m et ei en u o) w
  | CallLogUpdate m et ei en cs u o => after this (logUpdate this m et ei en cs u o) w
  | CallLogDelete m et ei en u o => after this (logDelete this m et ei en u o) w
  | CallLogAssign et ei en a u o => after this (logAssign this et ei en a u o) w
  | CallLogTransfer et ei en f t' u o => after this (logTransfer this et ei en f t' u o) w
  | CallLogLogin u o ip ua => after this (logLogin this u o ip ua) w
  | CallLogLogout u o => after this (logLogout this u o) w
  | CallLogExport m et n u o => after this (logExport this m et n u o) w
  | CallGetLogs p => after this (getLogs this p) w
  | CallGetEntityLogs et ei => after this (getEntityLogs this et ei) w
  | CallGetUserActivity uid days => after this (getUserActivity days_before this uid days) w
  end.

Definition session (days_before : Z -> Z -> Z) (st : t * world) (cs : list call) : t * world :=
  fold_left (perform days_before) cs st.

(** The audit log entries of a tenant, in the order the store holds them. *)
Definition entries (tenantId : string) (w : world) : list (string * fields) :=
  docs_in ["tenants"; tenantId; COLLECTIONS.AUDIT_LOGS] (db w).

End AuditLogService.

(** ** [StockService] ([src/services/consumable.service.ts]) *)
Module StockService.
Import JS Firestore.

Record t := Instance { tenantId : option string }.

Definition new : t := Instance None.

Definition setTenant (this : t) (tenantId : string) : t := Instance (Some tenantId).

Definition getStockCollectionRef (this : t) : outcome path :=
  match nonempty (tenantId this) with
  | None => Throws (Error "Tenant ID must be set")
  | Some tid => collection [] ["tenants"; tid; COLLECTIONS.OFFICE_STOCK]
  end.

Definition getTransactionCollectionRef (this : t) : outcome path :=
  match nonempty (tenantId this) with
  | None => Throws (Error "Tenant ID must be set")
  | Some tid => collection [] ["tenants"; tid; COLLECTIONS.STOCK_TRANSACTIONS]
  end.

Definition getConsumableStock (this : t) (officeId consumableId : string)
    : M (option fields) :=
  let! coll := lift (getStockCollectionRef this) in
  let! constraints := lift (
    do c1 <- where_ "office_id" OpEq (FStr officeId) ;
    do c2 <- where_ "consumable_id" OpEq (FStr consumableId) ;
    Returns [c1; c2]) in
  let! snapshot := getDocs coll constraints in
  match snapshot with
  | [] => ret None
  | d :: _ => ret (Some (entity (fst d) (snd d)))
  end.

(** [x < q] for a property [x] of an entity and a number [q]: [undefined]
    compares false, [null] and booleans convert to numbers; the conversion
    of the other values is outside the fragment. *)
Definition lt_number (x : option fval) (q : Z) : outcome bool :=
  match x with
  | None => Returns false
  | Some FNull => Returns (0 <? q)
  | Some (FBool b) => Returns (Z.b2z b <? q)
  | Some (FNum n) => Returns (n <? q)
  | Some (FTime _) | Some (FStr _) | Some (FOther _) => Unmodelled
  end.

(** [entity.id] used as a document id. *)
Definition entity_id (e : fields) : outcome string :=
  match e !! "id" with
  | Some (FStr s) => Returns s
  | _ => Unmodelled
  end.

(** [if (!stock || stock.quantity < quantity) throw new Error(msg)]; past
    the check the stock record is there. *)
Definition require_stock (stock : option fields) (quantity : Z) (msg : string)
    : outcome fields :=
  match stock with
  | None => Throws (Error msg)
  | Some e =>
      do short <- lt_number (e !! "quantity") quantity ;
      if short then Throws (Error msg) else Returns e
  end.

Definition issue (this : t) (officeId consumableId : string) (quantity : Z)
    (issuedTo userId : string) (notes : option string) : M unit :=
  match nonempty (tenantId this) with
  | None => throw (Error "Tenant ID must be set")
  | Some tid =>
  let! existingStock := getConsumableStock this officeId consumableId in
  let! existingStock := lift (require_stock existingStock quantity "Insufficient stock") in
  let batch := writeBatch in
  let! now := Timestamp_now in
  let! coll := lift (getStockCollectionRef this) in
  let! stockId := lift (entity_id existingStock) in
  let! stockRef := lift (doc_in coll stockId) in
  let! batch := batch_update batch stockRef
    (list_to_map [ ("quantity", WIncrement (- quantity));
                   ("last_issued", WVal (FTime now));
                   ("updated_at", WVal (FTime now)) ]) in
  let! tcoll := lift (getTransactionCollectionRef this) in
  let! transactionRef := doc_auto tcoll in
  let! batch := batch_set batch transactionRef
    (list_to_map [ ("tenant_id", WVal (FStr tid));
                   ("office_id", WVal (FStr officeId));
                   ("consumable_id", WVal (FStr consumableId));
                   ("type", WVal (FStr "issue"));
                   ("quantity", WVal (FNum quantity));
                   ("issued_to", WVal (FStr issuedTo));
                   ("notes", AuditLogService.optional FStr notes);
                   ("created_at", WVal (FTime now));
                   ("created_by", WVal (FStr userId)) ]) in
  batch_commit batch
  end.

Definition transfer (this : t) (fromOfficeId toOfficeId consumableId : string)
    (quantity : Z) (userId : string) (notes : option string) : M unit :=
  match nonempty (tenantId this) with
  | None => throw (Error "Tenant ID must be set")
  | Some tid =>
  let! sourceStock := getConsumableStock this fromOfficeId consumableId in
  let! sourceStock := lift (require_stock sourceStock quantity
                                          "Insufficient stock in source office") in
  let batch := writeBatch in
  let! now := Timestamp_now in
  let! coll := lift (getStockCollectionRef this) in
  let! sourceId := lift (entity_id sourceStock) in
  let! sourceRef := lift (doc_in coll sourceId) in
  let! batch := batch_update batch sourceRef
    (list_to_map [ ("quantity", WIncrement (- quantity));
                   ("updated_at", WVal (FTime now)) ]) in
  let! destStock := getConsumableStock this toOfficeId consumableId in
  let! batch :=
    match destStock with
    | Some dest =>
        let! coll := lift (getStockCollectionRef this) in
        let! destId := lift (entity_id dest) in
        let! destRef := lift (doc_in coll destId) in
        batch_update batch destRef
          (list_to_map [ ("quantity", WIncrement quantity);
                         ("updated_at", WVal (FTime now)) ])
    | None =>
        let! coll := lift (getStockCollectionRef this) in
        let! destRef := doc_auto coll in
        batch_set batch destRef
          (list_to_map [ ("tenant_id", WVal (FStr tid));
                         ("office_id", WVal (FStr toOfficeId));
                         ("consumable_id", WVal (FStr consumableId));
                         ("quantity", WVal (FNum quantity));
                         ("updated_at", WVal (FTime now)) ])
    end in
  let! tcoll := lift (getTransactionCollectionRef this) in
  let! outTransactionRef := doc_auto tcoll in
  let! batch := batch_set batch outTransactionRef
    (list_to_map [ ("tenant_id", WVal (FStr tid));
                   ("office_id", WVal (FStr fromOfficeId));
                   ("consumable_id", WVal (FStr consumableId));
                   ("type", WVal (FStr "transfer_out"));
                   ("quantity", WVal (FNum quantity));
                   ("transferred_to_office", WVal (FStr toOfficeId));
                   ("notes", AuditLogService.optional FStr notes);
                   ("created_at", WVal (FTime now));
                   ("created_by", WVal (FStr userId)) ]) in
  let! tcoll := lift (getTransactionCollectionRef this) in
  let! inTransactionRef := doc_auto tcoll in
  let! batch := batch_set batch inTransactionRef
    (list_to_map [ ("tenant_id", WVal (FStr tid));
                   ("office_id", WVal (FStr toOfficeId));
                   ("consumable_id", WVal (FStr consumableId));
                   ("type", WVal (FStr "transfer_in"));
                   ("quantity", WVal (FNum quantity));
                   ("transferred_from_office", WVal (FStr fromOfficeId));
                   ("notes", AuditLogService.optional FStr notes);
                   ("created_at", WVal (FTime now));
                   ("created_by", WVal (FStr userId)) ]) in
  batch_commit batch
  end.

(** What the service tracks for an office and a consumable: the stock
    record its lookup finds, and the quantity on it. *)
Definition stock_record (tenantId officeId consumableId : string) (w : world)
    : option (string * fields) :=
  head (run_query ["tenants"; tenantId; COLLECTIONS.OFFICE_STOCK]
          [QWhere "office_id" OpEq (FStr officeId);
           QWhere "consumable_id" OpEq (FStr consumableId)] (db w)).

Definition balance (tenantId officeId consumableId : string) (w : world) : option fval :=
  match stock_record tenantId officeId consumableId w with
  | Some d => snd d !! "quantity"
  | None => None
  end.

(** The stock transaction records of a tenant. *)
Definition transactions (tenantId : string) (w : world) : list (string * fields) :=
  docs_in ["tenants"; tenantId; COLLECTIONS.STOCK_TRANSACTIONS] (db w).

Definition getOfficeStock (this : t) (officeId : string) : M (list fields) :=
  let! coll := lift (getStockCollectionRef this) in
  let! c := lift (where_ "office_id" OpEq (FStr officeId)) in
  let! snapshot := getDocs coll [c] in
  ret (map (fun d => entity (fst d) (snd d)) snapshot).

Definition restock (this : t) (officeId consumableId : string) (quantity : Z)
    (userId : string) (notes : option string) : M unit :=
  match nonempty (tenantId this) with
  | None => throw (Error "Tenant ID must be set")
  | Some tid =>
  let batch := writeBatch in
  let! now := Timestamp_now in
  let! existingStock := getConsumableStock this officeId consumableId in
  let! batch :=
    match existingStock with
    | Some existing =>
        let! coll := lift (getStockCollectionRef this) in
        let! stockId := lift (entity_id existing) in
        let! stockRef := lift (doc_in coll stockId) in
        batch_update batch stockRef
          (list_to_map [ ("quantity", WIncrement quantity);
                         ("last_restocked", WVal (FTime now));
                         ("updated_at", WVal (FTime now)) ])
    | None =>
        let! coll := lift (getStockCollectionRef this) in
        let! stockRef := doc_auto coll in
        batch_set batch stockRef
          (list_to_map [ ("tenant_id", WVal (FStr tid));
                         ("office_id", WVal (FStr officeId));
                         ("consumable_id", WVal (FStr consumableId));
                         ("quantity", WVal (FNum quantity));
                         ("last_restocked", WVal (FTime now));
                         ("updated_at", WVal (FTime now)) ])
    end in
  let! tcoll := lift (getTransactionCollectionRef this) in
  let! transactionRef := doc_auto tcoll in
  let! batch := batch_set batch transactionRef
    (list_to_map [ ("tenant_id", WVal (FStr tid));
                   ("office_id", WVal (FStr officeId));
                   ("consumable_id", WVal (FStr consumableId));
                   ("type", WVal (FStr "restock"));
                   ("quantity", WVal (FNum quantity));
                   ("notes", AuditLogService.optional FStr notes);
                   ("created_at", WVal (FTime now));
                   ("created_by", WVal (FStr userId)) ]) in
  batch_commit batch
  end.

(** [existingStock?.quantity || 0] as a number: a missing record, a missing
    quantity and the falsy values give 0; the conversion of the other
    values that are not numbers is outside the fragment. *)
Definition quantity_or_zero (stock : option fields) : outcome Z :=
  match stock with
  | None => Returns 0
  | Some e =>
      match e !! "quantity" with
      | None | Some FNull | Some (FBool false) => Returns 0
      | Some (FNum n) => Returns n
      | Some (FStr s) => if String.eqb s "" then Returns 0 else Unmodelled
      | Some (FBool true) | Some (FTime _) | Some (FOther _) => Unmodelled
      end
  end.

Definition adjust (this : t) (officeId consumableId : string) (newQuantity : Z)
    (userId reason : string) : M unit :=
  match nonempty (tenantId this) with
  | None => throw (Error "Tenant ID must be set")
  | Some tid =>
  let! existingStock := getConsumableStock this officeId consumableId in
  let! oldQuantity := lift (quantity_or_zero existingStock) in
  let! difference := lift (number_sub newQuantity oldQuantity) in
  let batch := writeBatch in
  let! now := Timestamp_now in
  let! batch :=
    match existingStock with
    | Some existing =>
        let! coll := lift (getStockCollectionRef this) in
        let! stockId := lift (entity_id existing) in
        let! stockRef := lift (doc_in coll stockId) in
        batch_update batch stockRef
          (list_to_map [ ("quantity", WVal (FNum newQuantity));
                         ("updated_at", WVal (FTime now)) ])
    | None =>
        let! coll := lift (getStockCollectionRef this) in
        let! stockRef := doc_auto coll in
        batch_set batch stockRef
          (list_to_map [ ("tenant_id", WVal (FStr tid));
                         ("office_id", WVal (FStr officeId));
                         ("consumable_id", WVal (FStr consumableId));
                         ("quantity", WVal (FNum newQuantity));
                         ("updated_at", WVal (FTime now)) ])
    end in
  let! tcoll := lift (getTransactionCollectionRef this) in
  let! transactionRef := doc_auto tcoll in
  let! old := lift (AuditLogService.number_to_string oldQuantity) in
  let! new := lift (AuditLogService.number_to_string newQuantity) in
  let! batch := batch_set batch transactionRef
    (list_to_map [ ("tenant_id", WVal (FStr tid));
                   ("office_id", WVal (FStr officeId));
                   ("consumable_id", WVal (FStr consumableId));
                   ("type", WVal (FStr "adjustment"));
                   ("quantity", WVal (FNum difference));
                   ("notes", WVal (FStr ("Adjusted from " +:+ old +:+ " to " +:+ new +:+
                                         ". Reason: " +:+ reason)));
                   ("created_at", WVal (FTime now));
                   ("created_by", WVal (FStr userId)) ]) in
  batch_commit batch
  end.

(** [getTransactions(officeId, limit_count = 50)]. *)
Definition getTransactions (this : t) (officeId : string) (limit_count : option Z)
    : M (list fields) :=
  let limit_count := default 50 limit_count in
  let! coll := lift (getTransactionCollectionRef this) in
  let! constraints := lift (
    do c1 <- where_ "office_id" OpEq (FStr officeId) ;
    do c2 <- orderBy "created_at" desc ;
    Returns [c1; c2]) in
  let! snapshot := getDocs coll constraints in
  ret (map (fun d => entity (fst d) (snd d)) (slice 0 limit_count snapshot)).

Definition getConsumableTransactions (this : t) (consumableId : string) : M (list fields) :=
  let! coll := lift (getTransactionCollectionRef this) in
  let! constraints := lift (
    do c1 <- where_ "consumable_id" OpEq (FStr consumableId) ;
    do c2 <- orderBy "created_at" desc ;
    Returns [c1; c2]) in
  let! snapshot := getDocs coll constraints in
  ret (map (fun d => entity (fst d) (snd d)) snapshot).

End StockService.

(** ** [AssetService] ([src/services/asset.service.ts]) *)
Module AssetService.
Import JS Firestore.

(** The singleton extends [BaseService] over [COLLECTIONS.ASSETS]. *)
Definition instance (tenantId : option string) : BaseService.t :=
  BaseService.Instance COLLECTIONS.ASSETS tenantId.

(** [notes || fallback]. *)
Definition string_or (s : option string) (fallback : string) : string :=
  match nonempty s with
  | Some x => x
  | None => fallback
  end.

Definition transferToOffice (this : BaseService.t) (assetId toOfficeId transferredBy : string)
    (notes : option string) : M unit :=
  match nonempty (BaseService.tenantId this) with
  | None => throw (Error "Tenant ID must be set")
  | Some tid =>
  let batch := writeBatch in
  let! now := Timestamp_now in
  let! asset := BaseService.getById this assetId in
  match asset with
  | None => throw (Error "Asset not found")
  | Some asset =>
  let fromOfficeId := prop asset "office_id" in
  let! assetRef := lift (doc [] ["tenants"; tid; COLLECTIONS.ASSETS; assetId]) in
  let! batch := batch_update batch assetRef
    (list_to_map [ ("office_id", WVal (FStr toOfficeId));
                   ("assigned_to", WVal FNull);
                   ("assigned_at", WVal FNull);
                   ("status", WVal (FStr "available"));
                   ("updated_at", WVal (FTime now));
                   ("updated_by", WVal (FStr transferredBy)) ]) in
  let! events := lift (collection assetRef [COLLECTIONS.ASSET_EVENTS]) in
  let! eventRef := doc_auto events in
  let! batch := batch_set batch eventRef
    (list_to_map [ ("tenant_id", WVal (FStr tid));
                   ("asset_id", WVal (FStr assetId));
                   ("event_type", WVal (FStr "transferred"));
                   ("description", WVal (FStr (string_or notes "Asset transferred to another office")));
                   ("from_office_id", fromOfficeId);
                   ("to_office_id", WVal (FStr toOfficeId));
                   ("created_at", WVal (FTime now));
                   ("created_by", WVal (FStr transferredBy)) ]) in
  batch_commit batch
  end end.

Definition getByOffice (this : BaseService.t) (officeId : string) : M (list fields) :=
  let! constraints := lift (
    do c1 <- where_ "office_id" OpEq (FStr officeId) ;
    do c2 <- orderBy "created_at" desc ;
    Returns [c1; c2]) in
  BaseService.getAll this constraints.

Definition getByStatus (this : BaseService.t) (status : string) : M (list fields) :=
  let! constraints := lift (
    do c1 <- where_ "status" OpEq (FStr status) ;
    do c2 <- orderBy "created_at" desc ;
    Returns [c1; c2]) in
  BaseService.getAll this constraints.

Definition getByAssignedUser (this : BaseService.t) (userId : string) : M (list fields) :=
  let! constraints := lift (
    do c1 <- where_ "assigned_to" OpEq (FStr userId) ;
    do c2 <- where_ "status" OpEq (FStr "in_use") ;
    do c3 <- orderBy "assigned_at" desc ;
    Returns [c1; c2; c3]) in
  BaseService.getAll this constraints.

Definition getByCategory (this : BaseService.t) (categoryId : string) : M (list fields) :=
  let! constraints := lift (
    do c1 <- where_ "category_id" OpEq (FStr categoryId) ;
    do c2 <- orderBy "created_at" desc ;
    Returns [c1; c2]) in
  BaseService.getAll this constraints.

(** [`${x}`] for a property [x] of the data handed in. *)
Definition template (x : option wval) : outcome string :=
  match x with
  | None | Some WUndefined => Returns "undefined"
  | Some (WVal FNull) => Returns "null"
  | Some (WVal (FBool b)) => Returns (if b then "true" else "false")
  | Some (WVal (FNum n)) => AuditLogService.number_to_string n
  | Some (WVal (FStr s)) => Returns s
  | Some (WVal (FTime _)) | Some (WVal (FOther _)) | Some (WIncrement _) => Unmodelled
  end.

(** The created asset as returned: [{ id: assetRef.id, ...assetData }]. *)
Definition createWithEvent (this : BaseService.t) (data : jsobject) (userId : string)
    : M jsobject :=
  match nonempty (BaseService.tenantId this) with
  | None => throw (Error "Tenant ID must be set")
  | Some tid =>
  let batch := writeBatch in
  let! assets := lift (collection [] ["tenants"; tid; COLLECTIONS.ASSETS]) in
  let! assetRef := doc_auto assets in
  let! now := Timestamp_now in
  let assetData : jsobject :=
    <["updated_by" := WVal (FStr userId)]>
    (<["updated_at" := WVal (FTime now)]>
    (<["created_by" := WVal (FStr userId)]>
    (<["created_at" := WVal (FTime now)]>
    (<["tenant_id" := WVal (FStr tid)]> data)))) in
  let! batch := batch_set batch assetRef assetData in
  let! events := lift (collection assetRef [COLLECTIONS.ASSET_EVENTS]) in
  let! eventRef := doc_auto events in
  let! tag := lift (template (data !! "asset_tag")) in
  let! batch := batch_set batch eventRef
    (list_to_map [ ("tenant_id", WVal (FStr tid));
                   ("asset_id", WVal (FStr (ref_id assetRef)));
                   ("event_type", WVal (FStr "created"));
                   ("description", WVal (FStr ("Asset " +:+ tag +:+ " created")));
                   ("created_at", WVal (FTime now));
                   ("created_by", WVal (FStr userId)) ]) in
  let! _ := batch_commit batch in
  ret (assetData ∪ {[ "id" := WVal (FStr (ref_id assetRef)) ]})
  end.

Definition assignToUser (this : BaseService.t) (assetId userId assignedBy : string)
    : M unit :=
  match nonempty (BaseService.tenantId this) with
  | None => throw (Error "Tenant ID must be set")
  | Some tid =>
  let batch := writeBatch in
  let! now := Timestamp_now in
  let! asset := BaseService.getById this assetId in
  match asset with
  | None => throw (Error "Asset not found")
  | Some asset =>
  let! assetRef := lift (doc [] ["tenants"; tid; COLLECTIONS.ASSETS; assetId]) in
  let! batch := batch_update batch assetRef
    (list_to_map [ ("assigned_to", WVal (FStr userId));
                   ("assigned_at", WVal (FTime now));
                   ("status", WVal (FStr "in_use"));
                   ("updated_at", WVal (FTime now));
                   ("updated_by", WVal (FStr assignedBy)) ]) in
  let! events := lift (collection assetRef [COLLECTIONS.ASSET_EVENTS]) in
  let! eventRef := doc_auto events in
  let! batch := batch_set batch eventRef
    (list_to_map [ ("tenant_id", WVal (FStr tid));
                   ("asset_id", WVal (FStr assetId));
                   ("event_type", WVal (FStr "assigned"));
                   ("description", WVal (FStr "Asset assigned to user"));
                   ("from_user_id", or_undefined (asset !! "assigned_to"));
                   ("to_user_id", WVal (FStr userId));
                   ("created_at", WVal (FTime now));
                   ("created_by", WVal (FStr assignedBy)) ]) in
  batch_commit batch
  end end.

Definition unassign (this : BaseService.t) (assetId unassignedBy : string) : M unit :=
  match nonempty (BaseService.tenantId this) with
  | None => throw (Error "Tenant ID must be set")
  | Some tid =>
  let batch := writeBatch in
  let! now := Timestamp_now in
  let! asset := BaseService.getById this assetId in
  match asset with
  | None => throw (Error "Asset not found")
  | Some asset =>
  let! assetRef := lift (doc [] ["tenants"; tid; COLLECTIONS.ASSETS; assetId]) in
  let! batch := batch_update batch assetRef
    (list_to_map [ ("assigned_to", WVal FNull);
                   ("assigned_at", WVal FNull);
                   ("status", WVal (FStr "available"));
                   ("updated_at", WVal (FTime now));
                   ("updated_by", WVal (FStr unassignedBy)) ]) in
  let! events := lift (collection assetRef [COLLECTIONS.ASSET_EVENTS]) in
  let! eventRef := doc_auto events in
  let! batch := batch_set batch eventRef
    (list_to_map [ ("tenant_id", WVal (FStr tid));
                   ("asset_id", WVal (FStr assetId));
                   ("event_type", WVal (FStr "unassigned"));
                   ("description", WVal (FStr "Asset unassigned from user"));
                   ("from_user_id", or_undefined (asset !! "assigned_to"));
                   ("created_at", WVal (FTime now));
                   ("created_by", WVal (FStr unassignedBy)) ]) in
  batch_commit batch
  end end.

(** [disposalValue || null]. *)
Definition number_or_null (x : option Z) : fval :=
  match x with
  | Some n => if n =? 0 then FNull else FNum n
  | None => FNull
  end.

(** The map [{ disposal_value: disposalValue }] as the client takes it: an
    [undefined] inside a map is refused, or dropped, like one at the top.
    The map itself is kept by its rendering. *)
Definition disposal_metadata (disposalValue : option Z) : M wval :=
  match disposalValue with
  | Some n => ret (WVal (FOther ("{disposal_value:" +:+ pretty n +:+ "}")))
  | None =>
      fun w => if ignoreUndefinedProperties w then (Returns (WVal (FOther "{}")), w)
               else (Throws (FirestoreError "invalid-argument"), w)
  end.

Definition dispose (this : BaseService.t) (assetId reason : string)
    (disposalValue : option Z) (disposedBy : string) : M unit :=
  match nonempty (BaseService.tenantId this) with
  | None => throw (Error "Tenant ID must be set")
  | Some tid =>
  let batch := writeBatch in
  let! now := Timestamp_now in
  let! assetRef := lift (doc [] ["tenants"; tid; COLLECTIONS.ASSETS; assetId]) in
  let! batch := batch_update batch assetRef
    (list_to_map [ ("status", WVal (FStr "disposed"));
                   ("disposal_date", WVal (FTime now));
                   ("disposal_reason", WVal (FStr reason));
                   ("disposal_value", WVal (number_or_null disposalValue));
                   ("assigned_to", WVal FNull);
                   ("assigned_at", WVal FNull);
                   ("updated_at", WVal (FTime now));
                   ("updated_by", WVal (FStr disposedBy)) ]) in
  let! events := lift (collection assetRef [COLLECTIONS.ASSET_EVENTS]) in
  let! eventRef := doc_auto events in
  let! metadata := disposal_metadata disposalValue in
  let! batch := batch_set batch eventRef
    (list_to_map [ ("tenant_id", WVal (FStr tid));
                   ("asset_id", WVal (FStr assetId));
                   ("event_type", WVal (FStr "disposed"));
                   ("description", WVal (FStr reason));
                   ("metadata", metadata);
                   ("created_at", WVal (FTime now));
                   ("created_by", WVal (FStr disposedBy)) ]) in
  batch_commit batch
  end.

Definition getEvents (this : BaseService.t) (assetId : string) : M (list fields) :=
  match nonempty (BaseService.tenantId this) with
  | None => throw (Error "Tenant ID must be set")
  | Some tid =>
  let! eventsRef := lift (collection [] ["tenants"; tid; COLLECTIONS.ASSETS; assetId;
                                         COLLECTIONS.ASSET_EVENTS]) in
  let! o := lift (orderBy "created_at" desc) in
  let! snapshot := getDocs eventsRef [o] in
  ret (map (fun d => entity (fst d) (snd d)) snapshot)
  end.

(** The events of an asset, in the order the store holds them. *)
Definition events (tenantId assetId : string) (w : world) : list (string * fields) :=
  docs_in ["tenants"; tenantId; COLLECTIONS.ASSETS; assetId; COLLECTIONS.ASSET_EVENTS] (db w).

End AssetService.

(** ** [MaintenanceService] ([src/services/maintenance.service.ts]) *)
Module MaintenanceService.
Import JS Firestore.

Definition instance (tenantId : option string) : BaseService.t :=
  BaseService.Instance COLLECTIONS.MAINTENANCE tenantId.

Definition assign (this : BaseService.t) (ticketId technicianId assignedBy : string) : M unit :=
  let! now := Timestamp_now in
  BaseService.update this ticketId
    (list_to_map [ ("assigned_to", WVal (FStr technicianId));
                   ("assigned_at", WVal (FTime now));
                   ("status", WVal (FStr "in_progress")) ])
    assignedBy.

Definition startWork (this : BaseService.t) (ticketId userId : string) : M unit :=
  let! now := Timestamp_now in
  BaseService.update this ticketId
    (list_to_map [ ("status", WVal (FStr "in_progress"));
                   ("started_at", WVal (FTime now)) ])
    userId.

(** The ticket document of a tenant. *)
Definition ticket (tenantId ticketId : string) (w : world) : option fields :=
  lookup_doc ["tenants"; tenantId; COLLECTIONS.MAINTENANCE; ticketId] (db w).

Definition getByStatus (this : BaseService.t) (status : string) : M (list fields) :=
  let! constraints := lift (
    do c1 <- where_ "status" OpEq (FStr status) ;
    do c2 <- orderBy "created_at" desc ;
    Returns [c1; c2]) in
  BaseService.getAll this constraints.

Definition getOpen (this : BaseService.t) : M (list fields) :=
  let! constraints := lift (
    do c1 <- where_in "status"
               (Array [FStr "open"; FStr "in_progress"; FStr "waiting_parts"]) ;
    do c2 <- orderBy "priority" desc ;
    do c3 <- orderBy "created_at" asc ;
    Returns [c1; c2; c3]) in
  BaseService.getAll this constraints.

(** [data.status || 'open'] for the status handed in. *)
Definition status_or_open (x : option wval) : outcome wval :=
  match x with
  | None | Some WUndefined => Returns (WVal (FStr "open"))
  | Some (WVal v) => Returns (WVal (if fval_truthy v then v else FStr "open"))
  | Some (WIncrement _) => Unmodelled
  end.

(** [createTicket]: the ticket number comes from the calendar and from
    [Math.random] ([generateTicketNumber] in [src/lib/utils.ts]) and is
    taken here as the argument [ticketNumber]. *)
Definition createTicket (ticketNumber : string) (this : BaseService.t) (data : jsobject)
    (userId : string) : M jsobject :=
  let! now := Timestamp_now in
  let! status := lift (status_or_open (data !! "status")) in
  let ticketData : jsobject :=
    <["status" := status]>
    (<["reported_by" := WVal (FStr userId)]>
    (<["reported_at" := WVal (FTime now)]>
    (<["ticket_number" := WVal (FStr ticketNumber)]> data))) in
  BaseService.create this ticketData userId.

Definition waitingForParts (this : BaseService.t) (ticketId userId : string) : M unit :=
  BaseService.update this ticketId
    (list_to_map [ ("status", WVal (FStr "waiting_parts")) ])
    userId.

Definition complete (this : BaseService.t) (ticketId resolutionNotes : string)
    (actualCost : option Z) (rootCause : option string) (userId : string) : M unit :=
  let! now := Timestamp_now in
  BaseService.update this ticketId
    (list_to_map [ ("status", WVal (FStr "completed"));
                   ("completed_at", WVal (FTime now));
                   ("resolution_notes", WVal (FStr resolutionNotes));
                   ("actual_cost", AuditLogService.optional FNum actualCost);
                   ("root_cause", AuditLogService.optional FStr rootCause) ])
    userId.

Definition cancel (this : BaseService.t) (ticketId reason userId : string) : M unit :=
  BaseService.update this ticketId
    (list_to_map [ ("status", WVal (FStr "cancelled"));
                   ("resolution_notes", WVal (FStr ("Cancelled: " +:+ reason))) ])
    userId.

(** [addComment]; the attachments, an array of strings, are kept by their
    rendering. The comment as returned: [{ id: docRef.id, ...commentData }]. *)
Definition addComment (this : BaseService.t) (ticketId content userId : string)
    (attachments : option (list string)) : M jsobject :=
  match nonempty (BaseService.tenantId this) with
  | None => throw (Error "Tenant ID must be set")
  | Some tid =>
  let! commentsRef := lift (collection [] ["tenants"; tid; COLLECTIONS.MAINTENANCE; ticketId;
                                           COLLECTIONS.MAINTENANCE_COMMENTS]) in
  let! now := Timestamp_now in
  let commentData : jsobject :=
    list_to_map [ ("ticket_id", WVal (FStr ticketId));
                  ("content", WVal (FStr content));
                  ("attachments",
                   AuditLogService.optional
                     (fun xs => FOther ("[" +:+ String.concat "," xs +:+ "]")) attachments);
                  ("created_at", WVal (FTime now));
                  ("created_by", WVal (FStr userId)) ] in
  let! docRef := addDoc commentsRef commentData in
  ret (commentData ∪ {[ "id" := WVal (FStr (ref_id docRef)) ]})
  end.

Definition getComments (this : BaseService.t) (ticketId : string) : M (list fields) :=
  match nonempty (BaseService.tenantId this) with
  | None => throw (Error "Tenant ID must be set")
  | Some tid =>
  let! commentsRef := lift (collection [] ["tenants"; tid; COLLECTIONS.MAINTENANCE; ticketId;
                                           COLLECTIONS.MAINTENANCE_COMMENTS]) in
  let! o := lift (orderBy "created_at" asc) in
  let! snapshot := getDocs commentsRef [o] in
  ret (map (fun d => entity (fst d) (snd d)) snapshot)
  end.

End MaintenanceService.

(** ** The properties, as predicates over the embedding *)
Module Contracts.
Import JS Permissions Firestore.

(** The contract of [hasPermission] at one input: [true] exactly when the
    matrix has an entry for the role and the module that lists the action,
    [false] otherwise, and no exception. *)
Definition permission_contract (role module action : string) : Prop :=
  (hasPermission role module action = Returns true <->
   exists acts, matrix_entry role module = Some acts /\ In action acts) /\
  (hasPermission role module action = Returns true \/
   hasPermission role module action = Returns false).

(** The three actions that [ACTIONS] declares and no entry of the matrix
    lists. *)
Definition unwired_actions : list string := ["assign"; "transfer"; "approve"].

(** [hasPermission] from its second and from its third statement on. *)
Definition check_module (modulePermissions : value) (action : string) : outcome bool :=
  if negb (truthy modulePermissions) then Returns false
  else includes modulePermissions action.

Definition check_role (rolePermissions : value) (module action : string) : outcome bool :=
  if negb (truthy rolePermissions) then Returns false else
  do modulePermissions <- get rolePermissions module ;
  check_module modulePermissions action.

(** [getAccessibleModules] from its second statement on. *)
Definition modules_of (rolePerms : value) : outcome (list string) :=
  if negb (truthy rolePerms) then Returns [] else
  do entries <- Object_entries rolePerms ;
  do kept <- filterM (fun e => includes (snd e) "read") entries ;
  Returns (map fst kept).

(** Every value a property read can find on the prototype chain from
    [%Object.prototype%] on, and every value a read on an object can find. *)
Definition inherited_values (receiver : value) : list value :=
  match getPrototypeOf receiver with
  | Returns p => [p]
  | _ => []
  end ++ map snd object_prototype_props ++ [Undefined].

Definition reachable (o : value) : list value :=
  match o with
  | Obj props => map snd props ++ inherited_values o
  | ObjectPrototype => inherited_values o
  | Fn name len statics =>
      Num len :: Str name :: map snd statics ++
      map snd function_prototype_props ++ inherited_values o
  | FunctionPrototype => map snd function_prototype_props ++ inherited_values o
  | _ => []
  end.

Definition never_grants (modulePermissions : value) (action : string) : bool :=
  match check_module modulePermissions action with
  | Returns true => false
  | _ => true
  end.

(** The error of a repository used before [setTenant]. *)
Definition configuration_error : exn :=
  Error "Tenant ID must be set before performing operations".

(** No read and no write: the store is as it was and no request went out. *)
Definition untouched (w w' : world) : Prop :=
  db w' = db w /\ trace w' = trace w.

(** A call fails with the configuration error without touching the store. *)
Definition rejected_unbound {A : Type} (c : M A) (w : world) : Prop :=
  fst (c w) = Throws configuration_error /\ untouched w (snd (c w)).

(** The operations [batchWrite] acts on: a create with data and a user id,
    an update with an id, data and a user id, a delete with an id. *)
Definition acts_on (op : BaseService.operation) : bool :=
  match BaseService.type op with
  | BaseService.op_create =>
      bool_decide (is_Some (BaseService.op_data op)) &&
      bool_decide (is_Some (nonempty (BaseService.userId op)))
  | BaseService.op_update =>
      bool_decide (is_Some (nonempty (BaseService.id op))) &&
      bool_decide (is_Some (BaseService.op_data op)) &&
      bool_decide (is_Some (nonempty (BaseService.userId op)))
  | BaseService.op_delete =>
      bool_decide (is_Some (nonempty (BaseService.id op)))
  end.

(** The service has no stock, or less than [q], of a consumable in an
    office. *)
Definition insufficient_for (tenantId officeId consumableId : string) (q : Z)
    (w : world) : Prop :=
  StockService.stock_record tenantId officeId consumableId w = None \/
  exists b, StockService.balance tenantId officeId consumableId w = Some (FNum b) /\ b < q.

(** A rejected stock operation: the given error, and the store, the balance
    and the transaction records as they were. *)
Definition rejected_in_full (msg : string) (tenantId officeId consumableId : string)
    (w : world) (r : outcome unit * world) : Prop :=
  fst r = Throws (Error msg) /\
  db (snd r) = db w /\
  StockService.balance tenantId officeId consumableId (snd r) =
    StockService.balance tenantId officeId consumableId w /\
  StockService.transactions tenantId (snd r) = StockService.transactions tenantId w.

(** The document of an asset. *)
Definition asset_ref (tenantId assetId : string) : path :=
  ["tenants"; tenantId; COLLECTIONS.ASSETS; assetId].

(** What a transfer of an asset to an office leaves behind, from world [w]
    to world [w']: the asset is in the new office, unassigned and
    available; the event under the next auto-generated id holds the old and
    the new office; and the session sent one read of the asset and then one
    batch with both writes. *)
Definition transferred (tenantId assetId toOfficeId : string) (w w' : world) : Prop :=
  let eventRef := asset_ref tenantId assetId ++
                  [COLLECTIONS.ASSET_EVENTS; auto_ids w (next_id w)] in
  exists before after event,
    lookup_doc (asset_ref tenantId assetId) (db w) = Some before /\
    lookup_doc (asset_ref tenantId assetId) (db w') = Some after /\
    after !! "office_id" = Some (FStr toOfficeId) /\
    after !! "assigned_to" = Some FNull /\
    after !! "status" = Some (FStr "available") /\
    lookup_doc eventRef (db w') = Some event /\
    event !! "event_type" = Some (FStr "transferred") /\
    event !! "from_office_id" = before !! "office_id" /\
    event !! "to_office_id" = Some (FStr toOfficeId) /\
    exists u e, trace w' = trace w ++
      [ReqGetDoc (asset_ref tenantId assetId);
       ReqCommit [MUpdate (asset_ref tenantId assetId) u; MSet eventRef e]].

(** Most recently created first: along the list [created_at] never grows
    (an entity without [created_at] counts as oldest). *)
Definition created_not_before (a b : fields) : bool :=
  match compare_field "created_at" a b with
  | Lt => false
  | _ => true
  end.

Fixpoint newest_first (l : list fields) : bool :=
  match l with
  | a :: rest =>
      match rest with
      | b :: _ => created_not_before a b && newest_first rest
      | [] => true
      end
  | [] => true
  end.

(** A computation that only ever appends documents to the store. *)
Definition appends_only {A : Type} (c : M A) : Prop :=
  forall w, db w `prefix_of` db (snd (c w)).

(** A world to run examples in: an empty store, ids [id0], [id1], ..., a
    clock that starts at 1000, and a client that refuses [undefined]. *)
Definition sample_world : world :=
  {| db := []; trace := [];
     auto_ids := fun n => "id" +:+ pretty n; next_id := 0;
     clock := fun n => 1000 + Z.of_nat n; ticks := 0;
     ignoreUndefinedProperties := false |}.

(** The same world with a client configured to drop [undefined]. *)
Definition lenient_world : world :=
  {| db := []; trace := [];
     auto_ids := fun n => "id" +:+ pretty n; next_id := 0;
     clock := fun n => 1000 + Z.of_nat n; ticks := 0;
     ignoreUndefinedProperties := true |}.

(** Tenant [t1] holds 5 units of consumable [c1] in office [o1]. *)
Definition stock_world : world :=
  with_db [ (["tenants"; "t1"; "office_stock"; "s1"],
             list_to_map [ ("office_id", FStr "o1"); ("consumable_id", FStr "c1");
                           ("quantity", FNum 5) ]) ] sample_world.

(** Tenant [t1] holds two assets: [a], created at 1, and [b], created at 2. *)
Definition two_assets_world : world :=
  with_db [ (["tenants"; "t1"; "assets"; "a"], {[ "created_at" := FTime 1 ]});
            (["tenants"; "t1"; "assets"; "b"], {[ "created_at" := FTime 2 ]}) ]
          sample_world.

(** Tenant [t1] holds the open ticket [k1], which was never started. *)
Definition ticket_world : world :=
  with_db [ (["tenants"; "t1"; "maintenance"; "k1"], {[ "status" := FStr "open" ]}) ]
          sample_world.

(** Tenant [t1] holds asset [a1] in office [o1], assigned to [bob]. *)
Definition asset_world : world :=
  with_db [ (["tenants"; "t1"; "assets"; "a1"],
             list_to_map [ ("office_id", FStr "o1"); ("assigned_to", FStr "bob");
                           ("status", FStr "in_use") ]) ] sample_world.

End Contracts.

(** ** Further notions used by the properties of the services *)
Module Behaviour.
Import JS Permissions Firestore.

(** The fields [addAuditFields] stamps on a new document. *)
Definition audit_names : list string :=
  ["tenant_id"; "created_at"; "created_by"; "updated_at"; "updated_by"].

(** A store without two entries for one path, as the writes of the client
    leave it. *)
Definition well_formed (s : store) : Prop := NoDup (map fst s).

(** A computation that leaves the store as it is, whatever its outcome. *)
Definition keeps_store {A : Type} (c : M A) : Prop :=
  forall w, db (snd (c w)) = db w.

(** The constraints of a query without its limits. *)
Definition unlimited (cs : list QueryConstraint) : list QueryConstraint :=
  List.filter (fun c => match c with QLimit _ => false | _ => true end) cs.

(** Tenant [t1] holds three assets, created at 1, 2 and 3. *)
Definition three_assets_world : world :=
  with_db [ (["tenants"; "t1"; "assets"; "a"], {[ "created_at" := FTime 1 ]});
            (["tenants"; "t1"; "assets"; "b"], {[ "created_at" := FTime 2 ]});
            (["tenants"; "t1"; "assets"; "c"], {[ "created_at" := FTime 3 ]}) ]
          Contracts.sample_world.

(** Tenant [t1] holds two stock transactions of office [o1] and one of
    office [o2]. *)
Definition transactions_world : world :=
  with_db [ (["tenants"; "t1"; "stock_transactions"; "x1"],
             list_to_map [ ("office_id", FStr "o1"); ("type", FStr "restock");
                           ("quantity", FNum 5); ("created_at", FTime 1) ]);
            (["tenants"; "t1"; "stock_transactions"; "x2"],
             list_to_map [ ("office_id", FStr "o2"); ("type", FStr "restock");
                           ("quantity", FNum 9); ("created_at", FTime 2) ]);
            (["tenants"; "t1"; "stock_transactions"; "x3"],
             list_to_map [ ("office_id", FStr "o1"); ("type", FStr "issue");
                           ("quantity", FNum 3); ("created_at", FTime 3) ]) ]
          Contracts.sample_world.

(** The event of an asset written under the next id of the supply. *)
Definition next_event_ref (tenantId assetId : string) (w : world) : path :=
  Contracts.asset_ref tenantId assetId ++ [COLLECTIONS.ASSET_EVENTS; auto_ids w (next_id w)].

(** A call that finds no asset: the error, one read of the asset, and the
    store as it was. *)
Definition asset_not_found (tenantId assetId : string) (w : world)
    (r : outcome unit * world) : Prop :=
  fst r = Throws (Error "Asset not found") /\
  db (snd r) = db w /\
  trace (snd r) = trace w ++ [ReqGetDoc (Contracts.asset_ref tenantId assetId)].

(** Tenant [t1] holds asset [a2], available and assigned to no one. *)
Definition free_asset_world : world :=
  with_db [ (["tenants"; "t1"; "assets"; "a2"],
             list_to_map [ ("office_id", FStr "o1"); ("assigned_to", FNull);
                           ("status", FStr "available") ]) ] Contracts.sample_world.

(** Tenant [t1] holds three audit log entries: two about asset [a1],
    created at 1 and 3, and one about asset [a2]. *)
Definition audit_world : world :=
  with_db [ (["tenants"; "t1"; "audit_logs"; "l1"],
             list_to_map [ ("entity_type", FStr "asset"); ("entity_id", FStr "a1");
                           ("action", FStr "create"); ("created_at", FTime 1) ]);
            (["tenants"; "t1"; "audit_logs"; "l2"],
             list_to_map [ ("entity_type", FStr "asset"); ("entity_id", FStr "a2");
                           ("action", FStr "create"); ("created_at", FTime 2) ]);
            (["tenants"; "t1"; "audit_logs"; "l3"],
             list_to_map [ ("entity_type", FStr "asset"); ("entity_id", FStr "a1");
                           ("action", FStr "update"); ("created_at", FTime 3) ]) ]
          Contracts.sample_world.

(** The parameters of a call of [log] that passes no optional one. *)
Definition sample_params : AuditLogService.log_params :=
  {| AuditLogService.action := "create"; AuditLogService.module := "assets";
     AuditLogService.entityType := "asset"; AuditLogService.entityId := "a1";
     AuditLogService.entityName := None;
     AuditLogService.description := "Created asset";
     AuditLogService.changes := None;
     AuditLogService.userId := "u1"; AuditLogService.userEmail := "alice@example.org";
     AuditLogService.userName := "Alice";
     AuditLogService.organizationId := "org1";
     AuditLogService.ipAddress := None; AuditLogService.userAgent := None |}.

(** A computation that completes or leaves the store as it was. *)
Definition all_or_nothing {A : Type} (c : M A) : Prop :=
  forall w, (exists a, fst (c w) = Returns a) \/ db (snd (c w)) = db w.

(** The kind of a write of a batch. *)
Inductive write_kind := KSet | KCreate | KUpdate | KDelete.

Definition kind (m : mutation) : write_kind :=
  match m with
  | MSet _ _ => KSet
  | MCreate _ _ => KCreate
  | MUpdate _ _ => KUpdate
  | MDelete _ => KDelete
  end.

(** A computation that writes through one commit at its end. When it
    completes, the last request it sent is a commit whose writes are, in
    order, of the kinds of one of [shapes], and the store is the store
    before with exactly the writes of that commit applied. When it does not
    complete, the store is as it was. *)
Definition commits_once {A : Type} (shapes : list (list write_kind)) (c : M A) : Prop :=
  forall w,
    match fst (c w) with
    | Returns _ =>
        exists ms,
          In (map kind ms) shapes /\
          last (trace (snd (c w))) = Some (ReqCommit ms) /\
          apply_mutations ms (db w) = Returns (db (snd (c w)))
    | _ => db (snd (c w)) = db w
    end.

End Behaviour.

(** * Properties of the permission helpers *)
Section PermissionFacts.
Import JS Permissions Contracts.

Lemma assoc_In {A : Type} (k : string) (l : list (string * A)) (v : A) :
  assoc k l = Some v -> In (k, v) l.
Proof.
  induction l as [|[k' v'] l IH]; simpl; [discriminate|].
  destruct (String.eqb_spec k k') as [->|Hne].
  - intros [= ->]. now left.
  - intros H. right. now apply IH.
Qed.

Lemma assoc_None {A : Type} (k : string) (l : list (string * A)) :
  ~ In k (map fst l) -> assoc k l = None.
Proof.
  induction l as [|[k' v'] l IH]; simpl; [reflexivity|].
  intros Hn. destruct (String.eqb_spec k k') as [->|Hne].
  - exfalso. apply Hn. now left.
  - apply IH. intros Hin. apply Hn. now right.
Qed.

Lemma assoc_map {A B : Type} (f : A -> B) (k : string) (l : list (string * A)) :
  assoc k (map (fun e => (fst e, f (snd e))) l) = option_map f (assoc k l).
Proof.
  induction l as [|[k' v'] l IH]; simpl; [reflexivity|].
  now destruct (String.eqb k k').
Qed.

Lemma assoc_NoDup {A : Type} (k : string) (l : list (string * A)) (v : A) :
  NoDup (map fst l) -> In (k, v) l -> assoc k l = Some v.
Proof.
  induction l as [|[k' v'] l IH]; simpl; [tauto|].
  intros Hnd [Heq|Hin].
  - injection Heq as -> ->. now rewrite String.eqb_refl.
  - apply NoDup_cons in Hnd as [Hk' Hnd'].
    destruct (String.eqb_spec k k') as [->|Hne].
    + exfalso. apply Hk'. apply list_elem_of_In.
      change k' with (fst (k', v)). now apply in_map.
    + now apply IH.
Qed.

Lemma array_includes_In (xs : list string) (x : string) :
  array_includes xs x = true <-> In x xs.
Proof.
  unfold array_includes. rewrite existsb_exists. split.
  - intros (y & Hy & Heq). apply String.eqb_eq in Heq. now subst.
  - intros H. exists x. split; [assumption|apply String.eqb_refl].
Qed.

(** A name that is not inherited leads an ordinary object to its own
    property or to [undefined]. *)
Lemma get_own (props : list (string * value)) (k : string) :
  ~ In k inherited_names ->
  get (Obj props) k = Returns (match assoc k props with
                               | Some v => v
                               | None => Undefined
                               end).
Proof.
  intros Hk. unfold get. destruct (assoc k props); [reflexivity|].
  unfold get_from_object_prototype.
  destruct (String.eqb_spec k "__proto__") as [->|_].
  - exfalso. apply Hk. now left.
  - rewrite assoc_None; [reflexivity|].
    intros Hin. apply Hk. now right.
Qed.

(** [hasPermission] on names that are not inherited: the matrix decides. *)
Lemma hasPermission_own (role module action : string) :
  ~ In role inherited_names -> ~ In module inherited_names ->
  hasPermission role module action =
  Returns (match matrix_entry role module with
           | Some acts => array_includes acts action
           | None => false
           end).
Proof.
  intros Hr Hm. unfold hasPermission, matrix_entry, ROLE_PERMISSIONS.
  rewrite (get_own _ role Hr), assoc_map.
  destruct (assoc role ROLE_PERMISSIONS_entries) as [ms|]; [|reflexivity].
  cbn [option_map bind module_object truthy negb]. unfold module_object.
  rewrite (get_own _ module Hm), assoc_map.
  destruct (assoc module ms) as [acts|]; reflexivity.
Qed.

Lemma hasPermission_unfold (role module action : string) :
  hasPermission role module action =
  do rolePermissions <- get ROLE_PERMISSIONS role ; check_role rolePermissions module action.
Proof. reflexivity. Qed.

Lemma getAccessibleModules_unfold (role : string) :
  getAccessibleModules role = do rolePerms <- get ROLE_PERMISSIONS role ; modules_of rolePerms.
Proof. reflexivity. Qed.

Lemma assoc_values {A : Type} (k : string) (l : list (string * A)) (v : A) :
  assoc k l = Some v -> In v (map snd l).
Proof.
  intros H. apply assoc_In in H. change v with (snd (k, v)). now apply in_map.
Qed.

Lemma get_from_object_prototype_values (receiver : value) (k : string) (x : value) :
  get_from_object_prototype receiver k = Returns x -> In x (inherited_values receiver).
Proof.
  unfold get_from_object_prototype, inherited_values.
  destruct (String.eqb k "__proto__").
  - intros ->. apply in_or_app. left. now left.
  - destruct (assoc k object_prototype_props) as [v|] eqn:Hk; intros [= <-];
      apply in_or_app; right; apply in_or_app.
    + left. eapply assoc_values, Hk.
    + right. now left.
Qed.

Lemma get_from_function_prototype_values (receiver : value) (k : string) (x : value) :
  get_from_function_prototype receiver k = Returns x ->
  In x (map snd function_prototype_props ++ inherited_values receiver).
Proof.
  unfold get_from_function_prototype.
  destruct (_ || _); [discriminate|].
  destruct (assoc k function_prototype_props) as [v|] eqn:Hk.
  - intros [= <-]. apply in_or_app. left. eapply assoc_values, Hk.
  - intros H. apply in_or_app. right. now apply get_from_object_prototype_values in H.
Qed.

(** Whatever a property read returns is among the reachable values. *)
Lemma get_reachable (o : value) (k : string) (x : value) :
  get o k = Returns x -> In x (reachable o).
Proof.
  destruct o as [| | | | |props|name len statics| |]; simpl; try discriminate.
  - destruct (assoc k props) as [v|] eqn:Hk.
    + intros [= <-]. apply in_or_app. left. eapply assoc_values, Hk.
    + intros H. apply in_or_app. right.
      now apply get_from_object_prototype_values in H.
  - destruct (String.eqb k "length"); [intros [= <-]; now left|].
    destruct (String.eqb k "name"); [intros [= <-]; right; now left|].
    destruct (assoc k statics) as [v|] eqn:Hk.
    + intros [= <-]. right. right. apply in_or_app. left. eapply assoc_values, Hk.
    + intros H. right. right. apply in_or_app. right.
      now apply get_from_function_prototype_values in H.
  - apply get_from_object_prototype_values.
  - apply get_from_function_prototype_values.
Qed.

(** No value found through the prototype chain lets a declared action
    through: the strings there are names of built-ins, none of which
    contains the name of an action. *)
Lemma inherited_never_grant :
  forallb (fun a =>
    forallb (fun mp => never_grants mp a) (inherited_values (Obj [])) &&
    forallb (fun rp => forallb (fun mp => never_grants mp a) (reachable rp))
            (inherited_values ROLE_PERMISSIONS)) ActionValue = true.
Proof. vm_compute. reflexivity. Qed.

Lemma never_grants_spec (mp : value) (a : string) :
  never_grants mp a = true -> check_module mp a <> Returns true.
Proof.
  unfold never_grants. destruct (check_module mp a) as [[]| |]; congruence.
Qed.

(** A role found on the prototype chain grants nothing. *)
Lemma check_role_inherited (rp : value) (module a : string) :
  In a ActionValue -> In rp (inherited_values ROLE_PERMISSIONS) ->
  check_role rp module a <> Returns true.
Proof.
  intros Ha Hrp. pose proof inherited_never_grant as Hall.
  rewrite forallb_forall in Hall. specialize (Hall a Ha).
  apply andb_prop in Hall as [_ Hall].
  rewrite forallb_forall in Hall. specialize (Hall rp Hrp).
  rewrite forallb_forall in Hall.
  unfold check_role. destruct (negb (truthy rp)); [discriminate|].
  destruct (get rp module) as [mp| |] eqn:Hget; simpl; try discriminate.
  apply never_grants_spec, Hall. eapply get_reachable, Hget.
Qed.

(** A module found on the prototype chain of a role's entry grants nothing. *)
Lemma check_module_inherited (props : list (string * value)) (module a : string) (mp : value) :
  In a ActionValue -> assoc module props = None ->
  get (Obj props) module = Returns mp -> check_module mp a <> Returns true.
Proof.
  intros Ha Hnone Hget. pose proof inherited_never_grant as Hall.
  rewrite forallb_forall in Hall. specialize (Hall a Ha).
  apply andb_prop in Hall as [Hall _].
  rewrite forallb_forall in Hall.
  apply never_grants_spec, Hall.
  simpl in Hget. rewrite Hnone in Hget.
  now apply get_from_object_prototype_values in Hget.
Qed.

(** For a declared action, [true] comes from an entry of the matrix only,
    whatever the role and the module. *)
Lemma hasPermission_granted (role module a : string) :
  In a ActionValue ->
  hasPermission role module a = Returns true ->
  exists acts, matrix_entry role module = Some acts /\ In a acts.
Proof.
  intros Ha. rewrite hasPermission_unfold. unfold matrix_entry, ROLE_PERMISSIONS.
  destruct (get _ role) as [rp| |] eqn:Hget; cbn [bind]; try discriminate.
  cbn [get] in Hget. rewrite assoc_map in Hget.
  destruct (assoc role ROLE_PERMISSIONS_entries) as [ms|] eqn:Hrole; cbn [option_map] in Hget.
  - injection Hget as <-. unfold check_role, module_object.
    cbn [truthy negb].
    destruct (get _ module) as [mp| |] eqn:Hmod; cbn [bind]; try discriminate.
    destruct (assoc module ms) as [acts|] eqn:Hm.
    + cbn [get] in Hmod. rewrite assoc_map, Hm in Hmod. injection Hmod as <-.
      unfold check_module. cbn [truthy negb includes]. intros [= H].
      exists acts. split; [reflexivity|]. now apply array_includes_In.
    + intros H. exfalso. revert H. eapply check_module_inherited; eauto.
      now rewrite assoc_map, Hm.
  - intros H. exfalso. revert H. apply check_role_inherited; [assumption|].
    now apply get_from_object_prototype_values in Hget.
Qed.

(** An entry of the matrix is found first, before the prototype chain. *)
Lemma hasPermission_entry (role module a : string) (acts : list string) :
  matrix_entry role module = Some acts ->
  hasPermission role module a = Returns (array_includes acts a).
Proof.
  unfold matrix_entry, hasPermission, ROLE_PERMISSIONS. cbn [get].
  rewrite assoc_map.
  destruct (assoc role ROLE_PERMISSIONS_entries) as [ms|]; [|discriminate].
  intros Hm. cbn [option_map bind truthy negb]. unfold module_object.
  cbn [get]. rewrite assoc_map, Hm. reflexivity.
Qed.

Lemma declared_not_inherited (x : string) :
  In x UserRole \/ In x ModuleValue -> ~ In x inherited_names.
Proof.
  intros H Hin.
  assert (Hb : existsb (fun y => existsb (String.eqb y) inherited_names)
                       (UserRole ++ ModuleValue) = false) by (vm_compute; reflexivity).
  apply not_true_iff_false in Hb. apply Hb. apply existsb_exists.
  exists x. split.
  - apply in_or_app. tauto.
  - apply existsb_exists. exists x. split; [assumption|apply String.eqb_refl].
Qed.

(** C1 (as amended). For every role and module that is not the name of a
    property inherited from [Object.prototype] (so for the eight roles, the
    fourteen modules, and names such as ["unknown_role"]) and every action,
    [hasPermission] returns [true] exactly when [ROLE_PERMISSIONS] has an
    entry for the role and the module whose list contains the action, and
    returns [false] otherwise; it does not throw. *)
Theorem hasPermission_fail_closed (role module action : string) :
  ~ In role inherited_names -> ~ In module inherited_names ->
  permission_contract role module action.
Proof.
  intros Hr Hm. unfold permission_contract.
  rewrite (hasPermission_own _ _ _ Hr Hm).
  destruct (matrix_entry role module) as [acts|].
  - split.
    + split.
      * intros [= H]. exists acts. split; [reflexivity|]. now apply array_includes_In.
      * intros (acts' & [= <-] & Hin). f_equal. now apply array_includes_In.
    + destruct (array_includes acts action); [left|right]; reflexivity.
  - split; [|right; reflexivity].
    split; [discriminate|]. intros (acts & Habs & _). discriminate.
Qed.

Lemma hasPermission_fail_closed_witness :
  ~ In "IT_TECHNICIAN" inherited_names /\ ~ In "unknown_module" inherited_names /\
  permission_contract "IT_TECHNICIAN" "unknown_module" "read".
Proof.
  assert (H1 : ~ In "IT_TECHNICIAN" inherited_names) by (simpl; intuition discriminate).
  assert (H2 : ~ In "unknown_module" inherited_names) by (simpl; intuition discriminate).
  split; [exact H1|split; [exact H2|]].
  exact (hasPermission_fail_closed "IT_TECHNICIAN" "unknown_module" "read" H1 H2).
Defined.

(** C1, counterexample. The module name ["constructor"] has no entry under
    [SUPER_ADMIN], yet the check throws instead of returning [false]: the
    lookup finds [Object] on the prototype chain, which has no [includes].
    The role name ["constructor"] has no entry at all, yet the check returns
    [true] for the module ["name"] and the action ["Object"]. *)
Lemma hasPermission_inherited_counterexample :
  matrix_entry "SUPER_ADMIN" "constructor" = None /\
  hasPermission "SUPER_ADMIN" "constructor" "read" =
    Throws (TypeError "includes is not a function") /\
  matrix_entry "constructor" "name" = None /\
  hasPermission "constructor" "name" "Object" = Returns true /\
  ~ (forall role module action, permission_contract role module action).
Proof.
  repeat split; try (vm_compute; reflexivity).
  intros H. destruct (H "SUPER_ADMIN" "constructor" "read") as [_ [Ht|Hf]].
  - vm_compute in Ht. discriminate.
  - vm_compute in Hf. discriminate.
Qed.

(** C4. [getAssignableRoles] returns the roles strictly below the current
    one in the hierarchy, every role but [SUPER_ADMIN] for the two top
    ranks, and the empty list for a role outside the hierarchy. *)
Theorem getAssignableRoles_hierarchy (currentRole : string) :
  getAssignableRoles currentRole = spec_assignable currentRole /\
  (~ In currentRole spec_hierarchy -> getAssignableRoles currentRole = []).
Proof.
  assert (Heq : getAssignableRoles currentRole = spec_assignable currentRole).
  { unfold getAssignableRoles, spec_assignable, roleHierarchy, spec_hierarchy.
    cbn [indexOf rank_in].
    repeat match goal with
    | |- context [String.eqb ?x currentRole] =>
        destruct (String.eqb_spec x currentRole) as [<-|];
        [vm_compute; reflexivity|]
    end.
    reflexivity. }
  split; [exact Heq|].
  intros Hn. rewrite Heq. unfold spec_assignable.
  destruct (rank_in spec_hierarchy currentRole) eqn:Hrank; [|reflexivity].
  exfalso. apply Hn. clear Heq Hn. revert n Hrank.
  induction spec_hierarchy as [|x h IH]; intros n; simpl; [discriminate|].
  destruct (String.eqb_spec x currentRole) as [->|_]; [now left|].
  destruct (rank_in h currentRole); [|discriminate].
  intros _. right. eapply IH. reflexivity.
Qed.

Lemma getAssignableRoles_hierarchy_witness :
  ~ In "unknown_role" spec_hierarchy /\
  getAssignableRoles "unknown_role" = [] /\
  getAssignableRoles "SUPER_ADMIN" =
    ["TENANT_ADMIN"; "ORG_ADMIN"; "IT_ADMIN"; "OFFICE_ADMIN"; "IT_TECHNICIAN";
     "FINANCE"; "MANAGEMENT"] /\
  getAssignableRoles "IT_ADMIN" = ["OFFICE_ADMIN"; "IT_TECHNICIAN"; "FINANCE"; "MANAGEMENT"] /\
  getAssignableRoles "MANAGEMENT" = [].
Proof.
  assert (H : ~ In "unknown_role" spec_hierarchy) by (simpl; intuition discriminate).
  split; [exact H|]. split.
  - exact (proj2 (getAssignableRoles_hierarchy "unknown_role") H).
  - split; [|split].
    + exact (proj1 (getAssignableRoles_hierarchy "SUPER_ADMIN")).
    + exact (proj1 (getAssignableRoles_hierarchy "IT_ADMIN")).
    + exact (proj1 (getAssignableRoles_hierarchy "MANAGEMENT")).
Defined.

Lemma filterM_arrays (x : string) (ms : list (string * list string)) :
  filterM (fun e => includes (snd e) x) (map (fun e => (fst e, Arr (snd e))) ms) =
  Returns (map (fun e => (fst e, Arr (snd e)))
               (List.filter (fun e => array_includes (snd e) x) ms)).
Proof.
  induction ms as [|[m acts] ms IH]; simpl; [reflexivity|].
  rewrite IH. simpl. now destruct (array_includes acts x).
Qed.

(** No role of the matrix names a module twice. *)
Lemma modules_NoDup (role : string) (ms : list (string * list string)) :
  assoc role ROLE_PERMISSIONS_entries = Some ms -> NoDup (map fst ms).
Proof.
  intros H. apply assoc_In in H.
  assert (Hall : Forall (fun e => NoDup (map fst (snd e))) ROLE_PERMISSIONS_entries).
  { apply (bool_decide_unpack _). vm_compute. exact I. }
  rewrite Forall_forall in Hall. apply (Hall (role, ms)). now apply list_elem_of_In.
Qed.

(** A role found on the prototype chain has no enumerable module. *)
Lemma modules_of_inherited (rp : value) :
  In rp (inherited_values ROLE_PERMISSIONS) -> modules_of rp = Returns [].
Proof.
  assert (Hall : forallb (fun rp => match modules_of rp with
                                    | Returns [] => true
                                    | _ => false
                                    end) (inherited_values ROLE_PERMISSIONS) = true)
    by (vm_compute; reflexivity).
  rewrite forallb_forall in Hall. intros Hin. specialize (Hall rp Hin).
  destruct (modules_of rp) as [[|]| |]; congruence.
Qed.

(** C9. [canAccessModule] is [hasPermission] for ["read"], and
    [getAccessibleModules] lists exactly the modules that [canAccessModule]
    accepts, for every role. *)
Theorem accessible_modules_read (role : string) :
  (forall module, canAccessModule role module = hasPermission role module "read") /\
  exists ms, getAccessibleModules role = Returns ms /\
    forall module, In module ms <-> canAccessModule role module = Returns true.
Proof.
  split; [reflexivity|].
  assert (Hread : In "read" ActionValue) by (simpl; tauto).
  rewrite getAccessibleModules_unfold. unfold ROLE_PERMISSIONS at 1. cbn [get].
  rewrite assoc_map.
  destruct (assoc role ROLE_PERMISSIONS_entries) as [ms|] eqn:Hrole; cbn [option_map bind].
  - unfold modules_of, module_object. cbn [truthy negb Object_entries bind].
    rewrite filterM_arrays. cbn [bind]. eexists. split; [reflexivity|].
    intros module. unfold canAccessModule. rewrite map_map. cbn [fst].
    pose proof (modules_NoDup _ _ Hrole) as Hnd. split.
    + intros Hin. apply in_map_iff in Hin as ([m acts] & <- & Hin).
      apply filter_In in Hin as [Hin Hacts]. cbn [fst snd] in *.
      rewrite (hasPermission_entry role m "read" acts); [now rewrite Hacts|].
      unfold matrix_entry. rewrite Hrole. now apply assoc_NoDup.
    + intros Htrue. apply (hasPermission_granted _ _ _ Hread) in Htrue
        as (acts & Hentry & Hin).
      unfold matrix_entry in Hentry. rewrite Hrole in Hentry.
      apply in_map_iff. exists (module, acts). split; [reflexivity|].
      apply filter_In. split; [now apply assoc_In|].
      now apply array_includes_In.
  - destruct (get_from_object_prototype _ role) as [rp| |] eqn:Hget.
    + apply get_from_object_prototype_values in Hget.
      cbn [bind]. rewrite (modules_of_inherited rp Hget).
      exists []. split; [reflexivity|]. intros module. split; [intros []|].
      intros Htrue. apply (hasPermission_granted _ _ _ Hread) in Htrue
        as (acts & Hentry & _).
      unfold matrix_entry in Hentry. now rewrite Hrole in Hentry.
    + exfalso. unfold get_from_object_prototype in Hget.
      cbn [getPrototypeOf] in Hget.
      destruct (String.eqb role "__proto__"); [discriminate|].
      destruct (assoc role object_prototype_props); discriminate.
    + exfalso. unfold get_from_object_prototype in Hget.
      cbn [getPrototypeOf] in Hget.
      destruct (String.eqb role "__proto__"); [discriminate|].
      destruct (assoc role object_prototype_props); discriminate.
Qed.

(** No entry of the matrix lists [assign], [transfer] or [approve]. *)
Lemma matrix_lists_no_unwired (role module a : string) (acts : list string) :
  In a unwired_actions -> matrix_entry role module = Some acts -> ~ In a acts.
Proof.
  intros Ha Hentry Hin. unfold matrix_entry in Hentry.
  destruct (assoc role ROLE_PERMISSIONS_entries) as [ms|] eqn:Hrole; [|discriminate].
  apply assoc_In in Hrole. apply assoc_In in Hentry.
  assert (Hall : forallb (fun e => forallb (fun me =>
                   forallb (fun x => negb (existsb (String.eqb x) unwired_actions)) (snd me))
                   (snd e)) ROLE_PERMISSIONS_entries = true) by (vm_compute; reflexivity).
  rewrite forallb_forall in Hall. specialize (Hall _ Hrole).
  rewrite forallb_forall in Hall. specialize (Hall _ Hentry).
  rewrite forallb_forall in Hall. specialize (Hall _ Hin).
  apply negb_true_iff, not_true_iff_false in Hall. apply Hall.
  apply existsb_exists. exists a. split; [assumption|apply String.eqb_refl].
Qed.

(** C10. For [assign], [transfer] and [approve] the check never answers
    [true], whatever the role and the module, and it answers [false] for
    every role of [UserRole] and every module of [MODULES], [SUPER_ADMIN]
    included. *)
Theorem unwired_actions_denied (role module a : string) :
  In a unwired_actions ->
  hasPermission role module a <> Returns true /\
  (In role UserRole -> In module ModuleValue ->
   hasPermission role module a = Returns false).
Proof.
  intros Ha.
  assert (Hact : In a ActionValue).
  { simpl in Ha |- *. intuition. }
  assert (Hnot : hasPermission role module a <> Returns true).
  { intros Htrue. apply (hasPermission_granted _ _ _ Hact) in Htrue
      as (acts & Hentry & Hin).
    exact (matrix_lists_no_unwired _ _ _ _ Ha Hentry Hin). }
  split; [exact Hnot|].
  intros Hr Hm. revert Hnot.
  rewrite hasPermission_own by (apply declared_not_inherited; tauto).
  destruct (matrix_entry role module) as [acts|]; [|reflexivity].
  destruct (array_includes acts a); [intros Hnot; now contradiction Hnot|reflexivity].
Qed.

Lemma unwired_actions_denied_witness :
  In "assign" unwired_actions /\
  hasPermission "SUPER_ADMIN" "assets" "assign" <> Returns true /\
  (In "SUPER_ADMIN" UserRole -> In "assets" ModuleValue ->
   hasPermission "SUPER_ADMIN" "assets" "assign" = Returns false).
Proof.
  assert (H : In "assign" unwired_actions) by (simpl; tauto).
  split; [exact H|].
  exact (unwired_actions_denied "SUPER_ADMIN" "assets" "assign" H).
Defined.

End PermissionFacts.

(** * Properties of the store's client *)
Section StoreFacts.
Import JS Firestore Contracts.

Lemma is_segment_nonempty (t : string) :
  is_segment t = true -> nonempty (Some t) = Some t.
Proof.
  unfold is_segment, nonempty. now destruct (String.eqb t "").
Qed.

Lemma split_on_plain (sep : ascii) (s : string) :
  string_exists (fun c => Ascii.eqb c sep) s = false -> split_on sep s = [s].
Proof.
  induction s as [|c s IH]; cbn [string_exists split_on]; [reflexivity|].
  intros H. apply orb_false_elim in H as [Hc Hs]. rewrite Hc, (IH Hs). reflexivity.
Qed.

Lemma no_slash_no_double_slash (s : string) :
  string_exists (fun c => Ascii.eqb c "/"%char) s = false -> has_double_slash s = false.
Proof.
  induction s as [|c s IH]; cbn [string_exists has_double_slash]; [reflexivity|].
  intros H. apply orb_false_elim in H as [Hc Hs]. rewrite Hc, (IH Hs). reflexivity.
Qed.

(** Plain ids pass through the parsing of a path as they are. *)
Lemma resource_path_segments (components : list string) :
  forallb is_segment components = true -> resource_path components = Returns components.
Proof.
  intros Hall. unfold resource_path.
  assert (Hds : existsb has_double_slash components = false).
  { induction components as [|c cs IH]; [reflexivity|].
    cbn [forallb existsb] in *. apply andb_prop in Hall as [Hc Hcs].
    rewrite (IH Hcs), orb_false_r. apply no_slash_no_double_slash.
    unfold is_segment in Hc. apply andb_prop in Hc as [_ Hc].
    now apply negb_true_iff in Hc. }
  rewrite Hds. f_equal.
  induction components as [|c cs IH]; [reflexivity|].
  cbn [forallb existsb map concat] in *. apply andb_prop in Hall as [Hc Hcs].
  apply orb_false_elim in Hds as [_ Hds]. rewrite (IH Hcs Hds).
  unfold is_segment in Hc. apply andb_prop in Hc as [Hne Hc].
  apply negb_true_iff in Hc. rewrite (split_on_plain _ _ Hc).
  cbn [List.filter]. rewrite Hne. reflexivity.
Qed.

Lemma is_segment_first (s : string) : is_segment s = true -> String.eqb s "" = false.
Proof. unfold is_segment. now destruct (String.eqb s ""). Qed.

(** On plain ids [collection] and [doc] only count the segments. *)
Lemma collection_segments (parent : path) (first : string) (rest : list string) :
  forallb is_segment (first :: rest) = true ->
  collection parent (first :: rest) =
  if Nat.even (length (parent ++ first :: rest))
  then Throws (FirestoreError "invalid-argument")
  else Returns (parent ++ first :: rest).
Proof.
  intros Hall. unfold collection. rewrite (resource_path_segments _ Hall).
  cbn [forallb] in Hall. apply andb_prop in Hall as [Hfirst _].
  now rewrite (is_segment_first _ Hfirst).
Qed.

Lemma doc_segments (parent : path) (first : string) (rest : list string) :
  forallb is_segment (first :: rest) = true ->
  doc parent (first :: rest) =
  if Nat.odd (length (parent ++ first :: rest))
  then Throws (FirestoreError "invalid-argument")
  else Returns (parent ++ first :: rest).
Proof.
  intros Hall. unfold doc. rewrite (resource_path_segments _ Hall).
  cbn [forallb] in Hall. apply andb_prop in Hall as [Hfirst _].
  now rewrite (is_segment_first _ Hfirst).
Qed.

(** The collections of a bound tenant. *)
Lemma collection_of_tenant (tid name : string) :
  is_segment tid = true -> is_segment name = true ->
  collection [] ["tenants"; tid; name] = Returns ["tenants"; tid; name].
Proof.
  intros Ht Hn. rewrite collection_segments; [reflexivity|].
  cbn [forallb]. rewrite Ht, Hn. reflexivity.
Qed.

Lemma entity_lookup (id k : string) (data : fields) :
  k <> "id" -> entity id data !! k = data !! k.
Proof.
  intros Hk. unfold entity. rewrite lookup_union, lookup_singleton_ne by congruence.
  now destruct (data !! k).
Qed.

Lemma mbind_Returns {A B : Type} (c : M A) (k : A -> M B) (w w' : world) (b : B) :
  mbind c k w = (Returns b, w') ->
  exists a w1, c w = (Returns a, w1) /\ k a w1 = (Returns b, w').
Proof.
  unfold mbind. destruct (c w) as [[a| |] w1]; try discriminate.
  intros H. now exists a, w1.
Qed.

Lemma lift_Returns {A : Type} (o : outcome A) (w w' : world) (a : A) :
  lift o w = (Returns a, w') -> o = Returns a /\ w' = w.
Proof. unfold lift. now intros [= -> ->]. Qed.

(** A field path a query takes names the field as it is. *)
Lemma fieldPath_Returns (f f' : string) : fieldPath f = Returns f' -> f' = f.
Proof.
  unfold fieldPath, field_path_segments.
  destruct (string_exists reserved_char f); cbn [bind]; [discriminate|].
  destruct (existsb _ _); cbn [bind]; [discriminate|].
  destruct (split_on "."%char f) as [|? [|? ?]]; try discriminate.
  destruct (String.eqb f "__name__"); congruence.
Qed.

(** Sums and differences within the safe integers are exact. *)
Lemma number_add_safe (a b : Z) :
  - MAX_SAFE_INTEGER <= a <= MAX_SAFE_INTEGER ->
  - MAX_SAFE_INTEGER <= b <= MAX_SAFE_INTEGER ->
  - MAX_SAFE_INTEGER <= a + b <= MAX_SAFE_INTEGER ->
  number_add a b = Returns (a + b).
Proof.
  intros Ha Hb Hab. unfold number_add, isSafeInteger.
  repeat (rewrite (proj2 (Z.leb_le _ _)) by lia). reflexivity.
Qed.

Lemma number_sub_Returns (a b d : Z) :
  number_sub a b = Returns d -> d = a - b.
Proof.
  unfold number_sub. destruct (_ && _); [|discriminate]. now intros [= <-].
Qed.

(** A query the client accepts is the collection with the constraints as
    they were given. *)
Lemma query_loop_Returns (applied cs q : list QueryConstraint) :
  query_loop applied cs = Returns q -> q = applied ++ cs.
Proof.
  revert applied. induction cs as [|c cs IH]; intros applied; cbn [query_loop].
  - intros [= <-]. now rewrite app_nil_r.
  - destruct (apply_constraint applied c) as [applied'| |] eqn:Hc; cbn [bind];
      try discriminate.
    intros H. apply IH in H as ->.
    assert (applied' = applied ++ [c]) as ->.
    { unfold apply_constraint in Hc.
      repeat match type of Hc with
             | match ?x with _ => _ end = _ => destruct x
             | (if ?b then _ else _) = _ => destruct b
             end; congruence. }
    now rewrite <- app_assoc.
Qed.

Lemma query_Returns (coll : path) (cs : list QueryConstraint)
    (q : path * list QueryConstraint) :
  query coll cs = Returns q -> q = (coll, cs).
Proof.
  unfold query. destruct (query_loop [] cs) as [applied| |] eqn:Hq; cbn [bind];
    try discriminate.
  intros [= <-]. now apply query_loop_Returns in Hq as ->.
Qed.

Lemma getDocs_accepted (coll : path) (cs : list QueryConstraint)
    (q : path * list QueryConstraint) (w : world) :
  query coll cs = Returns q ->
  getDocs coll cs w =
    (Returns (run_query coll cs (db w)), with_request (ReqRunQuery coll cs) w).
Proof.
  intros Hq. unfold getDocs, mbind, lift. rewrite Hq.
  now apply query_Returns in Hq as ->.
Qed.

Lemma getDocs_Returns (coll : path) (cs : list QueryConstraint)
    (docs : list (string * fields)) (w w' : world) :
  getDocs coll cs w = (Returns docs, w') ->
  docs = run_query coll cs (db w) /\ w' = with_request (ReqRunQuery coll cs) w.
Proof.
  unfold getDocs, mbind, lift.
  destruct (query coll cs) as [q| |] eqn:Hq; try discriminate.
  apply query_Returns in Hq as ->. now intros [= <- <-].
Qed.

(** A query the client refuses sends no request. *)
Lemma getDocs_refused (coll : path) (cs : list QueryConstraint) (w : world) :
  (forall q, query coll cs <> Returns q) ->
  exists o, getDocs coll cs w = (o, w) /\ forall docs, o <> Returns docs.
Proof.
  intros Hq. unfold getDocs, mbind, lift.
  destruct (query coll cs) as [q| |] eqn:Heq.
  - now contradiction (Hq q).
  - eexists. split; [reflexivity|discriminate].
  - eexists. split; [reflexivity|discriminate].
Qed.

(** What the client makes of the data of a write: it comes back as given,
    less the [undefined] properties, or the write is refused. *)
Lemma parseData_Returns (source : data_source) (data parsed : jsobject) (w w' : world) :
  parseData source data w = (Returns parsed, w') ->
  w' = w /\
  forall k, parsed !! k = match data !! k with
                          | Some WUndefined => None
                          | x => x
                          end.
Proof.
  unfold parseData, accepted.
  destruct (bool_decide (map_Forall _ data)); [|discriminate].
  destruct (bool_decide_reflect (defined_part data = data)) as [Heq|_].
  - destruct (bool_decide (map_Forall _ data)); [|discriminate].
    intros [= <- <-]. split; [reflexivity|]. intros k.
    destruct (data !! k) as [[]|] eqn:Hk; try reflexivity.
    rewrite <- Heq in Hk. unfold defined_part in Hk.
    apply map_lookup_filter_Some in Hk as [_ Hk]. now contradiction Hk.
  - destruct (ignoreUndefinedProperties w); [|discriminate].
    destruct (bool_decide (map_Forall _ (defined_part data))); [|discriminate].
    intros [= <- <-]. split; [reflexivity|]. intros k. unfold defined_part.
    destruct (data !! k) as [[]|] eqn:Hk.
    + apply map_lookup_filter_None. right. intros x Hx Hp.
      rewrite Hk in Hx. injection Hx as <-. now apply Hp.
    + apply map_lookup_filter_Some. split; [assumption|discriminate].
    + apply map_lookup_filter_Some. split; [assumption|discriminate].
    + apply map_lookup_filter_None. now left.
Qed.

(** The client parses before it sends: the world is as it was. *)
Lemma parseData_world (source : data_source) (data : jsobject) (w : world) :
  snd (parseData source data w) = w.
Proof.
  unfold parseData, accepted.
  repeat match goal with
         | |- context [if ?b then _ else _] => destruct b
         end; reflexivity.
Qed.

(** A key the client takes is the name of the field it writes, and a key it
    refuses is refused with invalid-argument. *)
Lemma data_key_Returns (source : data_source) (k k' : string) :
  data_key source k = Returns k' -> k' = k.
Proof.
  destruct source; unfold data_key.
  - destruct (_ || _); congruence.
  - destruct (field_path_segments k) as [segs| |]; cbn [bind]; try discriminate.
    destruct (existsb reserved_name segs); [discriminate|].
    destruct segs as [|? [|? ?]]; congruence.
Qed.

Lemma data_key_Throws (source : data_source) (k : string) (e : exn) :
  data_key source k = Throws e -> e = FirestoreError "invalid-argument".
Proof.
  destruct source; unfold data_key.
  - destruct (_ || _); congruence.
  - unfold field_path_segments.
    destruct (string_exists reserved_char k); cbn [bind]; [congruence|].
    destruct (existsb (String.eqb "") (split_on "."%char k)); cbn [bind]; [congruence|].
    destruct (existsb reserved_name (split_on "."%char k)); [congruence|].
    destruct (split_on "."%char k) as [|? [|? ?]]; congruence.
Qed.

Lemma plain_key_spec (source : data_source) (k : string) :
  plain_key source k = true <-> data_key source k = Returns k.
Proof.
  unfold plain_key. split.
  - destruct (data_key source k) as [k'| |] eqn:Hk; try discriminate.
    now apply data_key_Returns in Hk as ->.
  - now intros ->.
Qed.

(** The keys of an object literal. *)
Lemma plain_keys_list (source : data_source) (l : list (string * wval)) :
  forallb (plain_key source) (map fst l) = true ->
  forall k, is_Some ((list_to_map l : jsobject) !! k) -> data_key source k = Returns k.
Proof.
  intros Hall k [v Hk]. apply plain_key_spec.
  apply elem_of_list_to_map_2 in Hk.
  rewrite forallb_forall in Hall. apply Hall.
  apply in_map_iff. exists (k, v). split; [reflexivity|].
  now apply list_elem_of_In.
Qed.

Lemma plain_keys_insert (source : data_source) (i : string) (x : wval) (data : jsobject) :
  data_key source i = Returns i ->
  (forall k, is_Some (data !! k) -> data_key source k = Returns k) ->
  forall k, is_Some (<[i := x]> data !! k) -> data_key source k = Returns k.
Proof.
  intros Hi Hdata k Hk. destruct (decide (k = i)) as [->|Hne]; [exact Hi|].
  rewrite lookup_insert_ne in Hk by congruence. now apply Hdata.
Qed.

Lemma accepted_plain (source : data_source) (data : jsobject) (w : world) :
  (forall k, is_Some (data !! k) -> data_key source k = Returns k) ->
  accepted source data w = (Returns data, w).
Proof.
  intros Hplain. unfold accepted. rewrite bool_decide_true; [reflexivity|].
  intros k x Hk. cbn beta. apply plain_key_spec, Hplain. now exists x.
Qed.

Lemma none_refused (source : data_source) (data : jsobject) :
  (forall k, is_Some (data !! k) -> data_key source k = Returns k) ->
  map_Forall (fun k _ => refused_key source k = false) data.
Proof.
  intros Hplain k x Hk. cbn beta. unfold refused_key.
  rewrite (Hplain k) by (now exists x). reflexivity.
Qed.

(** Data with plain keys and without an [undefined] property pass the
    client as they are. *)
Lemma parseData_defined (source : data_source) (data : jsobject) (w : world) :
  (forall k, is_Some (data !! k) -> data_key source k = Returns k) ->
  (forall k, data !! k <> Some WUndefined) ->
  parseData source data w = (Returns data, w).
Proof.
  intros Hplain Hdef. unfold parseData.
  rewrite (bool_decide_true _ (none_refused _ _ Hplain)).
  rewrite bool_decide_true; [now apply accepted_plain|].
  unfold defined_part. apply map_filter_id. intros k x Hk. cbn [snd]. intros ->.
  now apply (Hdef k).
Qed.

(** A client told to drop [undefined] properties passes the others on. *)
Lemma parseData_lenient (source : data_source) (data : jsobject) (w : world) :
  (forall k, is_Some (data !! k) -> data_key source k = Returns k) ->
  ignoreUndefinedProperties w = true ->
  parseData source data w = (Returns (defined_part data), w).
Proof.
  intros Hplain Hlenient. unfold parseData.
  rewrite (bool_decide_true _ (none_refused _ _ Hplain)).
  assert (Hpart : forall k, is_Some (defined_part data !! k) -> data_key source k = Returns k).
  { intros k [x Hk]. apply Hplain. unfold defined_part in Hk.
    apply map_lookup_filter_Some in Hk as [Hk _]. now exists x. }
  destruct (bool_decide_reflect (defined_part data = data)) as [Heq|_].
  - rewrite Heq. now apply accepted_plain.
  - rewrite Hlenient. now apply accepted_plain.
Qed.

(** Data with an [undefined] property are refused by a client that was not
    told to drop them. *)
Lemma parseData_undefined (source : data_source) (data : jsobject) (k : string) (w : world) :
  data !! k = Some WUndefined -> ignoreUndefinedProperties w = false ->
  parseData source data w = (Throws (FirestoreError "invalid-argument"), w).
Proof.
  intros Hk Hstrict. unfold parseData.
  destruct (bool_decide (map_Forall _ data)); [|reflexivity].
  rewrite bool_decide_false, Hstrict; [reflexivity|].
  intros Heq. rewrite <- Heq in Hk. unfold defined_part in Hk.
  apply map_lookup_filter_Some in Hk as [_ Hk]. now apply Hk.
Qed.

(** Data with a key that is no field name are refused. *)
Lemma parseData_refused (source : data_source) (data : jsobject) (k : string) (e : exn)
    (w : world) :
  is_Some (data !! k) -> data_key source k = Throws e ->
  parseData source data w = (Throws (FirestoreError "invalid-argument"), w).
Proof.
  intros [x Hk] He. unfold parseData. rewrite bool_decide_false; [reflexivity|].
  intros Hall. specialize (Hall k x Hk). cbn beta in Hall.
  unfold refused_key in Hall. now rewrite He in Hall.
Qed.

(** What passes the client has plain keys. *)
Lemma parseData_keys (source : data_source) (data parsed : jsobject) (w w' : world) :
  parseData source data w = (Returns parsed, w') ->
  forall k, is_Some (parsed !! k) -> data_key source k = Returns k.
Proof.
  unfold parseData, accepted.
  destruct (bool_decide (map_Forall _ data)); [|discriminate].
  destruct (bool_decide (defined_part data = data)).
  - destruct (bool_decide_reflect (map_Forall (fun k _ => plain_key source k = true) data))
      as [Hall|]; [|discriminate].
    intros [= <- <-] k [x Hk]. apply plain_key_spec. exact (Hall k x Hk).
  - destruct (ignoreUndefinedProperties w); [|discriminate].
    destruct (bool_decide_reflect
                (map_Forall (fun k _ => plain_key source k = true) (defined_part data)))
      as [Hall|]; [|discriminate].
    intros [= <- <-] k [x Hk]. apply plain_key_spec. exact (Hall k x Hk).
Qed.

Lemma apply_update_lookup (d : fields) (data : jsobject) (k : string) :
  apply_update d data !! k = match data !! k with
                             | Some w => apply_field (d !! k) w
                             | None => d !! k
                             end.
Proof.
  unfold apply_update. rewrite lookup_merge.
  destruct (d !! k), (data !! k); reflexivity.
Qed.

Lemma apply_set_lookup (data : jsobject) (k : string) :
  apply_set data !! k = match data !! k with
                        | Some w => apply_field None w
                        | None => None
                        end.
Proof. unfold apply_set. now rewrite apply_update_lookup, lookup_empty. Qed.

Lemma lookup_doc_replace (p q : path) (d : fields) (s : store) :
  lookup_doc q (replace_doc p d s) =
  if bool_decide (q = p) then option_map (fun _ => d) (lookup_doc p s)
  else lookup_doc q s.
Proof.
  induction s as [|[r d'] s IH]; simpl.
  - now destruct (bool_decide (q = p)).
  - destruct (bool_decide_reflect (p = r)) as [->|Hpr]; simpl.
    + destruct (bool_decide_reflect (q = r)); reflexivity.
    + rewrite IH. destruct (bool_decide_reflect (q = r)) as [->|Hqr];
        [|reflexivity].
      rewrite bool_decide_false by congruence. reflexivity.
Qed.

Lemma lookup_doc_app (q : path) (s s' : store) :
  lookup_doc q (s ++ s') =
  match lookup_doc q s with
  | Some d => Some d
  | None => lookup_doc q s'
  end.
Proof.
  induction s as [|[r d'] s IH]; simpl; [reflexivity|].
  now destruct (bool_decide (q = r)).
Qed.

Lemma lookup_doc_set (p q : path) (d : fields) (s : store) :
  lookup_doc q (set_doc p d s) =
  if bool_decide (q = p) then Some d else lookup_doc q s.
Proof.
  unfold set_doc. destruct (lookup_doc p s) as [d0|] eqn:Hp.
  - rewrite lookup_doc_replace, Hp. reflexivity.
  - rewrite lookup_doc_app. simpl.
    destruct (bool_decide_reflect (q = p)) as [->|Hne].
    + now rewrite Hp.
    + now destruct (lookup_doc q s).
Qed.

(** A document of a collection three segments deep, under a plain id. *)
Lemma doc_in_collection (root tid name id : string) :
  is_segment id = true ->
  doc_in [root; tid; name] id = Returns [root; tid; name; id].
Proof.
  intros Hid. unfold doc_in. rewrite doc_segments; [reflexivity|].
  cbn [forallb]. now rewrite Hid.
Qed.

End StoreFacts.

(** * Properties of the tenant-scoped repository *)
Section RepositoryFacts.
Import JS Firestore BaseService Contracts.

(** Before [setTenant] there is no collection to address. *)
Lemma getCollectionRef_unbound (collectionName : string) :
  getCollectionRef (new collectionName) = Throws configuration_error.
Proof. reflexivity. Qed.

(** The collection of a bound instance. *)
Lemma getCollectionRef_bound (this : t) (tid : string) :
  tenantId this = Some tid -> is_segment tid = true ->
  is_segment (collectionName this) = true ->
  getCollectionRef this = Returns ["tenants"; tid; collectionName this].
Proof.
  intros Htid Hseg Hcoll. unfold getCollectionRef.
  rewrite Htid, (is_segment_nonempty _ Hseg). now apply collection_of_tenant.
Qed.

(** [getById] on a bound instance: one point read, and the entity when the
    document is there. *)
Lemma getById_bound (this : t) (tid id : string) (w : world) :
  tenantId this = Some tid -> is_segment tid = true ->
  is_segment (collectionName this) = true -> is_segment id = true ->
  let ref := ["tenants"; tid; collectionName this; id] in
  getById this id w =
  (Returns (option_map (entity id) (lookup_doc ref (db w))), with_request (ReqGetDoc ref) w).
Proof.
  intros Htid Hseg Hcoll Hid. cbv zeta. unfold getById, getDocRef.
  rewrite (getCollectionRef_bound this tid) by assumption. cbn [bind].
  rewrite doc_in_collection by assumption.
  unfold mbind, lift, getDoc.
  destruct (lookup_doc _ (db w)); reflexivity.
Qed.

(** A successful [update]: the document was there, and the written
    properties (the caller's and the two modification stamps) are merged
    into it. *)
Lemma update_Returns (this : t) (tid id : string) (data : jsobject) (userId : string)
    (w w' : world) :
  tenantId this = Some tid -> is_segment tid = true ->
  is_segment (collectionName this) = true -> is_segment id = true ->
  update this id data userId w = (Returns tt, w') ->
  let ref := ["tenants"; tid; collectionName this; id] in
  let stamped := <["updated_by" := WVal (FStr userId)]>
                 (<["updated_at" := WVal (FTime (clock w (ticks w)))]> data) in
  exists before parsed,
    lookup_doc ref (db w) = Some before /\
    lookup_doc ref (db w') = Some (apply_update before parsed) /\
    forall k, parsed !! k = match stamped !! k with
                            | Some WUndefined => None
                            | x => x
                            end.
Proof.
  intros Htid Hseg Hcoll Hid. unfold update, getDocRef.
  rewrite (getCollectionRef_bound this tid) by assumption. cbn [bind].
  rewrite doc_in_collection by assumption.
  intros H. cbv zeta.
  apply mbind_Returns in H as (docRef & w1 & Href & H).
  apply lift_Returns in Href as [[= <-] ->].
  apply mbind_Returns in H as (updateData & w1 & Hstamp & H).
  unfold addAuditFields in Hstamp.
  apply mbind_Returns in Hstamp as (now & w2 & Hnow & Hstamp).
  injection Hnow as <- <-. injection Hstamp as <- <-.
  unfold updateDoc in H.
  apply mbind_Returns in H as (parsed & w1 & Hparsed & H).
  apply parseData_Returns in Hparsed as [-> Hparsed].
  unfold send_commit in H. cbn [apply_mutations apply_mutation db tick] in H.
  destruct (lookup_doc _ (db w)) as [before|] eqn:Hbefore; [|discriminate].
  cbn [bind] in H. injection H as <-.
  exists before, parsed. cbn [db with_db].
  rewrite lookup_doc_replace, Hbefore, bool_decide_true by reflexivity.
  repeat split. exact Hparsed.
Qed.

(** The loop of [batchWrite] on an unbound instance: it stops at the first
    operation it acts on, and until then nothing happens. *)
Lemma batchWrite_loop_unbound (collectionName : string) (operations : list operation)
    (batch : list mutation) (w : world) :
  batchWrite_loop (new collectionName) batch operations w =
  if existsb acts_on operations then (Throws configuration_error, w)
  else (Returns batch, w).
Proof.
  induction operations as [|op rest IH]; [reflexivity|].
  cbn [batchWrite_loop existsb]. unfold mbind at 1.
  destruct op as [ty i d u]. unfold batchWrite_step, acts_on.
  cbn [type id op_data userId].
  destruct ty, (nonempty i) as [i'|], d as [d'|], (nonempty u) as [u'|];
    try (cbn; exact IH); reflexivity.
Qed.

(** C2 (as amended). On an instance on which [setTenant] was never called,
    [getById], [getAll], [create], [update] and [delete] fail with the
    configuration error for every argument, and [batchWrite] fails with it
    as soon as its list holds an operation it acts on; on a list without
    one, the empty list included, [batchWrite] completes without an error.
    In every case no read or write is performed. *)
Theorem unbound_repository_rejects (collectionName : string) (w : world) :
  let this := new collectionName in
  (forall id, rejected_unbound (getById this id) w) /\
  (forall constraints, rejected_unbound (getAll this constraints) w) /\
  (forall data userId, rejected_unbound (create this data userId) w) /\
  (forall id data userId, rejected_unbound (update this id data userId) w) /\
  (forall id, rejected_unbound (delete this id) w) /\
  (forall operations,
     untouched w (snd (batchWrite this operations w)) /\
     fst (batchWrite this operations w) =
       if existsb acts_on operations then Throws configuration_error
       else Returns tt).
Proof.
  cbv zeta. repeat split; try reflexivity.
  - unfold batchWrite, mbind. rewrite batchWrite_loop_unbound.
    destruct (existsb acts_on operations); reflexivity.
  - unfold batchWrite, mbind. rewrite batchWrite_loop_unbound.
    destruct (existsb acts_on operations); reflexivity.
  - unfold batchWrite, mbind. rewrite batchWrite_loop_unbound.
    destruct (existsb acts_on operations); reflexivity.
Qed.

(** C2, counterexample. [batchWrite] with the empty list on an instance that
    never saw [setTenant] completes; it does not fail with the
    configuration error. *)
Lemma batchWrite_empty_counterexample :
  fst (batchWrite (new "assets") [] sample_world) = Returns tt /\
  ~ (forall collectionName operations w,
       fst (batchWrite (new collectionName) operations w) = Throws configuration_error).
Proof.
  split; [reflexivity|].
  intros H. specialize (H "assets" [] sample_world). discriminate H.
Qed.

End RepositoryFacts.

(** * Properties of the stock service *)
Section StockFacts.
Import JS Firestore StockService Contracts.

(** The lookup of the stock record is one query; it leaves the store as it
    is. *)
Lemma getConsumableStock_spec (this : t) (tid officeId consumableId : string) (w : world) :
  tenantId this = Some tid -> is_segment tid = true ->
  exists w', getConsumableStock this officeId consumableId w =
    (Returns (option_map (fun d => entity (fst d) (snd d))
                         (stock_record tid officeId consumableId w)), w') /\
    db w' = db w.
Proof.
  intros Htid Hseg.
  unfold getConsumableStock, getStockCollectionRef, stock_record.
  rewrite Htid, (is_segment_nonempty _ Hseg), collection_of_tenant
    by (assumption || reflexivity).
  unfold mbind, lift.
  change (where_ "office_id" OpEq (FStr officeId))
    with (Returns (QWhere "office_id" OpEq (FStr officeId))).
  change (where_ "consumable_id" OpEq (FStr consumableId))
    with (Returns (QWhere "consumable_id" OpEq (FStr consumableId))).
  cbn [bind]. erewrite getDocs_accepted by reflexivity.
  destruct (run_query _ _ (db w)) as [|d rest]; eexists; split; reflexivity.
Qed.

(** C3. When the service has no stock record for the office and the
    consumable, or one whose quantity [b] is below the requested [q], [issue]
    fails with 'Insufficient stock' and [transfer] out of that office fails
    with 'Insufficient stock in source office'; the store is left as it was:
    the balance stays [b] and no transaction record is created. *)
Theorem insufficient_stock_rejected (this : t) (tid officeId toOfficeId consumableId : string)
    (q : Z) (issuedTo userId : string) (notes : option string) (w : world) :
  tenantId this = Some tid -> is_segment tid = true ->
  insufficient_for tid officeId consumableId q w ->
  rejected_in_full "Insufficient stock" tid officeId consumableId w
    (issue this officeId consumableId q issuedTo userId notes w) /\
  rejected_in_full "Insufficient stock in source office" tid officeId consumableId w
    (transfer this officeId toOfficeId consumableId q userId notes w).
Proof.
  intros Htid Hseg Hshort.
  destruct (getConsumableStock_spec this tid officeId consumableId w Htid Hseg)
    as (w' & Hget & Hdb).
  assert (Hreq : forall msg,
    require_stock (option_map (fun d => entity (fst d) (snd d))
                     (stock_record tid officeId consumableId w)) q msg
    = Throws (Error msg)).
  { intros msg. unfold insufficient_for, balance in Hshort.
    destruct (stock_record tid officeId consumableId w) as [d|]; [|reflexivity].
    destruct Hshort as [Hnone|(b & Hb & Hlt)]; [discriminate|].
    cbn [option_map require_stock]. rewrite entity_lookup, Hb by discriminate.
    cbn [lt_number bind]. apply Z.ltb_lt in Hlt. now rewrite Hlt. }
  assert (Hrej : forall msg r, r = (Throws (Error msg), w') ->
    rejected_in_full msg tid officeId consumableId w r).
  { intros msg r ->. unfold rejected_in_full, balance, stock_record, transactions.
    cbn [fst snd]. rewrite Hdb. repeat split; reflexivity. }
  split; apply Hrej.
  - unfold issue. rewrite Htid, (is_segment_nonempty _ Hseg).
    unfold mbind at 1. rewrite Hget.
    unfold mbind at 1. unfold lift. now rewrite Hreq.
  - unfold transfer. rewrite Htid, (is_segment_nonempty _ Hseg).
    unfold mbind at 1. rewrite Hget.
    unfold mbind at 1. unfold lift. now rewrite Hreq.
Qed.

Lemma insufficient_stock_rejected_witness :
  tenantId (Instance (Some "t1")) = Some "t1" /\ is_segment "t1" = true /\
  insufficient_for "t1" "o1" "c1" 7 stock_world /\
  rejected_in_full "Insufficient stock" "t1" "o1" "c1" stock_world
    (issue (Instance (Some "t1")) "o1" "c1" 7 "u1" "u2" None stock_world) /\
  rejected_in_full "Insufficient stock in source office" "t1" "o1" "c1" stock_world
    (transfer (Instance (Some "t1")) "o1" "o2" "c1" 7 "u2" None stock_world).
Proof.
  assert (H1 : tenantId (Instance (Some "t1")) = Some "t1") by reflexivity.
  assert (H0 : is_segment "t1" = true) by reflexivity.
  assert (H2 : insufficient_for "t1" "o1" "c1" 7 stock_world).
  { right. exists 5. split; [vm_compute; reflexivity|lia]. }
  split; [exact H1|split; [exact H0|split; [exact H2|]]].
  exact (insufficient_stock_rejected (Instance (Some "t1")) "t1" "o1" "o2" "c1" 7
           "u1" "u2" None stock_world H1 H0 H2).
Defined.

End StockFacts.

(** * Properties of the asset service *)
Section AssetFacts.
Import JS Firestore AssetService Contracts.

(** C5. Whenever [transferToOffice] succeeds, whatever the asset's state
    before: the asset's [office_id] is the new office, its [assigned_to] is
    cleared ([null]) and its [status] is ['available']; the transfer event
    holds the old and the new office; and both writes went out in one
    batch, after the one read of the asset. *)
Theorem transferToOffice_resets (tid assetId toOfficeId transferredBy : string)
    (notes : option string) (w w' : world) :
  is_segment tid = true -> is_segment assetId = true ->
  transferToOffice (instance (Some tid)) assetId toOfficeId transferredBy notes w
    = (Returns tt, w') ->
  transferred tid assetId toOfficeId w w'.
Proof.
  intros Hseg Hid H. unfold transferred. cbv zeta.
  unfold transferToOffice in H. cbn [instance BaseService.tenantId] in H.
  rewrite (is_segment_nonempty _ Hseg) in H.
  apply mbind_Returns in H as (now & w1 & Hnow & H).
  injection Hnow as <- <-.
  apply mbind_Returns in H as (asset & w2 & Hget & H).
  rewrite (getById_bound _ tid) in Hget by (assumption || reflexivity).
  injection Hget as <- <-.
  cbn [BaseService.collectionName instance db tick] in H.
  fold (asset_ref tid assetId) in H |- *.
  destruct (lookup_doc (asset_ref tid assetId) (db w)) as [before|] eqn:Hbefore;
    [|discriminate].
  cbn [option_map] in H.
  assert (Hsegs : forallb is_segment ["tenants"; tid; COLLECTIONS.ASSETS; assetId] = true).
  { cbn [forallb]. now rewrite Hseg, Hid. }
  apply mbind_Returns in H as (assetRef & w3 & Href & H).
  apply lift_Returns in Href as [Href ->].
  rewrite (doc_segments _ _ _ Hsegs) in Href.
  injection Href as <-. fold (asset_ref tid assetId) in H.
  apply mbind_Returns in H as (batch1 & w3 & Hb1 & H).
  unfold batch_update in Hb1.
  apply mbind_Returns in Hb1 as (u & w4 & Hu & Hb1).
  apply parseData_Returns in Hu as [-> Hu]. injection Hb1 as <- <-.
  apply mbind_Returns in H as (events & w3 & Hev & H).
  apply lift_Returns in Hev as [Hev ->].
  rewrite collection_segments in Hev by reflexivity.
  injection Hev as <-.
  apply mbind_Returns in H as (eventRef & w3 & Heref & H).
  unfold doc_auto in Heref.
  apply mbind_Returns in Heref as (eid & w4 & Heid & Heref).
  unfold autoId in Heid. cbn [auto_ids next_id with_request tick] in Heid.
  assert (Hauto : is_segment (auto_ids w (next_id w)) = true).
  { clear -Heid. destruct (is_segment (auto_ids w (next_id w)));
      [reflexivity|discriminate]. }
  rewrite Hauto in Heid. injection Heid as <- <-.
  apply lift_Returns in Heref as [Heref ->].
  unfold doc_in in Heref.
  rewrite doc_segments in Heref by (cbn [forallb]; now rewrite Hauto).
  injection Heref as <-.
  apply mbind_Returns in H as (batch2 & w3 & Hb2 & H).
  unfold batch_set in Hb2.
  apply mbind_Returns in Hb2 as (e & w4 & He & Hb2).
  apply parseData_Returns in He as [-> He]. injection Hb2 as <- <-.
  cbn [app batch_commit] in H. unfold send_commit in H.
  cbn [apply_mutations apply_mutation db take_id with_request tick] in H.
  rewrite Hbefore in H. cbn [bind] in H. injection H as <-.
  set (eventRef := asset_ref tid assetId ++ [COLLECTIONS.ASSET_EVENTS; auto_ids w (next_id w)]).
  assert (Hdiff : asset_ref tid assetId <> eventRef).
  { intros Heq. apply (f_equal length) in Heq. discriminate Heq. }
  exists before, (apply_update before u), (apply_set e).
  cbn [db with_db].
  rewrite !lookup_doc_set, !lookup_doc_replace, Hbefore.
  rewrite (bool_decide_false _ Hdiff), !bool_decide_true by reflexivity.
  rewrite !apply_update_lookup, !apply_set_lookup, !Hu, !He.
  repeat split; try (vm_compute; reflexivity).
  - change (list_to_map _ !! "from_office_id")
      with (Some (prop (entity assetId before) "office_id")).
    unfold prop. rewrite entity_lookup by discriminate.
    now destruct (before !! "office_id").
  - exists u, e. cbn [trace with_db with_request take_id tick].
    now rewrite <- app_assoc.
Qed.

Lemma transferToOffice_resets_witness :
  is_segment "t1" = true /\ is_segment "a1" = true /\
  exists w',
    transferToOffice (instance (Some "t1")) "a1" "o9" "admin" None asset_world
      = (Returns tt, w') /\
    transferred "t1" "a1" "o9" asset_world w'.
Proof.
  assert (Hrun : transferToOffice (instance (Some "t1")) "a1" "o9" "admin" None asset_world
                 = (Returns tt, snd (transferToOffice (instance (Some "t1")) "a1" "o9"
                                       "admin" None asset_world)))
    by (vm_compute; reflexivity).
  split; [reflexivity|]. split; [reflexivity|].
  eexists. split; [exact Hrun|].
  exact (transferToOffice_resets "t1" "a1" "o9" "admin" None asset_world _
           eq_refl eq_refl Hrun).
Defined.

End AssetFacts.

(** * Properties of the audit log service *)
Section AuditFacts.
Import JS Firestore AuditLogService Contracts.

Lemma appends_only_same {A : Type} (c : M A) :
  (forall w, db (snd (c w)) = db w) -> appends_only c.
Proof. intros H w. now rewrite H. Qed.

Lemma appends_only_bind {A B : Type} (c : M A) (k : A -> M B) :
  appends_only c -> (forall a, appends_only (k a)) -> appends_only (mbind c k).
Proof.
  intros Hc Hk w. unfold mbind. specialize (Hc w).
  destruct (c w) as [[a| |] w1]; cbn [snd] in *; try assumption.
  etrans; [exact Hc|apply Hk].
Qed.

Lemma appends_only_lift {A : Type} (o : outcome A) : appends_only (lift o).
Proof. now apply appends_only_same. Qed.

Lemma appends_only_ret {A : Type} (a : A) : appends_only (ret a).
Proof. now apply appends_only_same. Qed.

Lemma appends_only_now : appends_only Timestamp_now.
Proof. now apply appends_only_same. Qed.

Lemma appends_only_getDocs (coll : path) (cs : list QueryConstraint) :
  appends_only (getDocs coll cs).
Proof.
  apply appends_only_same. intros w. unfold getDocs, mbind, lift.
  now destruct (query coll cs).
Qed.

Lemma appends_only_parseData (source : data_source) (data : jsobject) :
  appends_only (parseData source data).
Proof.
  apply appends_only_same. intros w. unfold parseData, accepted.
  repeat match goal with
         | |- context [if ?b then _ else _] => destruct b
         end; reflexivity.
Qed.

(** [addDoc] creates a document or fails; it never touches another one. *)
Lemma appends_only_addDoc (coll : path) (data : jsobject) : appends_only (addDoc coll data).
Proof.
  unfold addDoc, doc_auto.
  apply appends_only_bind.
  { apply appends_only_bind; [|intros id; apply appends_only_lift].
    apply appends_only_same. intros w. unfold autoId.
    now destruct (is_segment _). }
  intros docRef. apply appends_only_bind; [apply appends_only_parseData|].
  intros parsed. apply appends_only_bind; [|intros ?; apply appends_only_ret].
  intros w. unfold send_commit. cbn [apply_mutations apply_mutation].
  destruct (lookup_doc docRef (db w)); cbn [bind snd db with_db with_request];
    [reflexivity|].
  now apply prefix_app_r.
Qed.

Lemma appends_only_log (this : t) (params : log_params) : appends_only (log this params).
Proof.
  unfold log.
  apply appends_only_bind; [apply appends_only_now|]. intros now.
  apply appends_only_bind; [apply appends_only_lift|]. intros coll.
  apply appends_only_bind; [apply appends_only_addDoc|]. intros _.
  apply appends_only_ret.
Qed.

Lemma appends_only_getLogs (this : t) (params : logs_query) :
  appends_only (getLogs this params).
Proof.
  unfold getLogs.
  apply appends_only_bind; [apply appends_only_lift|]. intros constraints.
  apply appends_only_bind; [apply appends_only_lift|]. intros lim.
  apply appends_only_bind; [apply appends_only_lift|]. intros coll.
  apply appends_only_bind; [apply appends_only_getDocs|]. intros snapshot.
  apply appends_only_ret.
Qed.

Lemma appends_only_getEntityLogs (this : t) (entityType entityId : string) :
  appends_only (getEntityLogs this entityType entityId).
Proof.
  unfold getEntityLogs.
  apply appends_only_bind; [apply appends_only_lift|]. intros coll.
  apply appends_only_bind; [apply appends_only_lift|]. intros constraints.
  apply appends_only_bind; [apply appends_only_getDocs|]. intros snapshot.
  apply appends_only_ret.
Qed.

Lemma appends_only_getUserActivity (days_before : Z -> Z -> Z) (this : t)
    (userId : string) (days : option Z) :
  appends_only (getUserActivity days_before this userId days).
Proof.
  unfold getUserActivity.
  apply appends_only_bind; [apply appends_only_now|]. intros today.
  apply appends_only_bind; [apply appends_only_lift|]. intros coll.
  apply appends_only_bind; [apply appends_only_lift|]. intros constraints.
  apply appends_only_bind; [apply appends_only_getDocs|]. intros snapshot.
  apply appends_only_ret.
Qed.

(** One call of the service leaves every document in place. *)
Lemma perform_appends_only (days_before : Z -> Z -> Z) (st : t * world) (c : call) :
  db (snd st) `prefix_of` db (snd (perform days_before st c)).
Proof.
  destruct st as [this w]. destruct c; cbn [perform after snd]; try reflexivity;
    try apply appends_only_log.
  - unfold logExport. apply appends_only_bind; [apply appends_only_lift|].
    intros ?. apply appends_only_log.
  - apply appends_only_getLogs.
  - apply appends_only_getEntityLogs.
  - apply appends_only_getUserActivity.
Qed.

Lemma docs_in_prefix (coll : path) (s s' : store) :
  s `prefix_of` s' -> docs_in coll s `prefix_of` docs_in coll s'.
Proof.
  intros [k ->]. unfold docs_in. rewrite omap_app. now apply prefix_app_r.
Qed.

(** C6. After any sequence of calls to the audit log service the store
    begins with the documents it held before, unchanged and in place; so
    for every tenant the entries written earlier are a prefix of the
    entries held after. *)
Theorem audit_log_append_only (days_before : Z -> Z -> Z) (this : t) (w : world)
    (calls : list call) :
  let w' := snd (session days_before (this, w) calls) in
  db w `prefix_of` db w' /\
  forall tenantId, entries tenantId w `prefix_of` entries tenantId w'.
Proof.
  cbv zeta.
  assert (H : db w `prefix_of` db (snd (session days_before (this, w) calls))).
  { unfold session. change w with (snd (this, w)) at 1.
    generalize (this, w). induction calls as [|c calls IH]; intros st; [reflexivity|].
    cbn [fold_left]. etrans; [apply (perform_appends_only days_before st c)|apply IH]. }
  split; [exact H|]. intros tenantId. now apply docs_in_prefix.
Qed.

(** The log does grow: one [logCreate] on a bound instance adds one entry
    (the entry carries [undefined] optional properties, so the client must
    be set to drop them). *)
Example logCreate_appends :
  let st := session (fun now days => now - days) (new, lenient_world)
              [ CallSetTenant "t1";
                CallLogCreate "assets" "asset" "a1" "Laptop"
                  {| id := "u1"; email := "u1@example.org"; name := "U" |} "org1" ] in
  map fst (entries "t1" (snd st)) = ["id0"].
Proof. vm_compute. reflexivity. Qed.

End AuditFacts.

(** * Ordering of query results *)
Section OrderFacts.
Import JS Firestore BaseService Contracts.

Lemma fval_compare_antisym (a b : fval) :
  fval_compare b a = CompOpp (fval_compare a b).
Proof.
  destruct a, b; cbn [fval_compare type_order]; try reflexivity;
    try apply Z.compare_antisym.
  - rewrite String.compare_antisym. now destruct (String.compare s s0).
  - rewrite String.compare_antisym. now destruct (String.compare repr repr0).
Qed.

Lemma compare_field_antisym (f : string) (a b : fields) :
  compare_field f b a = CompOpp (compare_field f a b).
Proof.
  unfold compare_field. destruct (a !! f), (b !! f); try reflexivity.
  apply fval_compare_antisym.
Qed.

Lemma directed_antisym (dir : direction) (c : comparison) :
  directed dir (CompOpp c) = CompOpp (directed dir c).
Proof. now destruct dir. Qed.

Lemma compare_docs_antisym (orders : list (string * direction)) (keydir : direction)
    (a b : string * fields) :
  compare_docs orders keydir b a = CompOpp (compare_docs orders keydir a b).
Proof.
  induction orders as [|[f dir] rest IH]; cbn [compare_docs].
  - rewrite String.compare_antisym, directed_antisym.
    now destruct (directed keydir (String.compare (fst a) (fst b))).
  - rewrite compare_field_antisym, directed_antisym.
    destruct (directed dir (compare_field f (snd a) (snd b))); cbn [CompOpp];
      [exact IH|reflexivity|reflexivity].
Qed.

(** The order of a query is total. *)
Lemma doc_leb_total (orders : list (string * direction)) (keydir : direction)
    (a b : string * fields) :
  doc_leb orders keydir a b = false -> doc_leb orders keydir b a = true.
Proof.
  unfold doc_leb. rewrite (compare_docs_antisym orders keydir a b).
  now destruct (compare_docs orders keydir a b).
Qed.

Lemma insert_by_Sorted {A : Type} (leb : A -> A -> bool) (x : A) (l : list A) :
  (forall a b, leb a b = false -> leb b a = true) ->
  Sorted (fun a b => leb a b = true) l ->
  Sorted (fun a b => leb a b = true) (insert_by leb x l).
Proof.
  intros Htotal. induction l as [|y l IH]; intros Hs; cbn [insert_by].
  - repeat constructor.
  - destruct (leb x y) eqn:Hxy.
    + constructor; [assumption|]. now constructor.
    + inversion Hs as [|? ? Hl Hhd]; subst.
      constructor; [now apply IH|].
      destruct l as [|z l]; cbn [insert_by].
      * constructor. now apply Htotal.
      * destruct (leb x z); constructor.
        -- now apply Htotal.
        -- now inversion Hhd.
Qed.

(** Insertion sort by a total order sorts. *)
Lemma sort_by_Sorted {A : Type} (leb : A -> A -> bool) (l : list A) :
  (forall a b, leb a b = false -> leb b a = true) ->
  Sorted (fun a b => leb a b = true) (sort_by leb l).
Proof.
  intros Htotal. induction l as [|x l IH]; cbn [sort_by foldr]; [constructor|].
  now apply insert_by_Sorted.
Qed.

Lemma Sorted_take {A : Type} (R : A -> A -> Prop) (n : nat) (l : list A) :
  Sorted R l -> Sorted R (take n l).
Proof.
  revert n. induction l as [|x l IH]; intros [|n] Hs; cbn [take]; try constructor.
  - apply IH. now inversion Hs.
  - inversion Hs as [|? ? _ Hhd]; subst.
    destruct l as [|y l], n as [|n]; cbn [take]; constructor. now inversion Hhd.
Qed.

(** A page is a beginning of the snapshot. *)
Lemma slice_0_take {A : Type} (stop : Z) (l : list A) :
  exists n, slice 0 stop l = take n l.
Proof.
  unfold slice, clamp_index. cbn [Z.ltb Z.compare].
  rewrite (Z.min_l 0) by lia. cbn [Z.to_nat drop]. eexists. reflexivity.
Qed.

(** Sorted by a query that orders by [created_at] descending first means
    newest first. *)
Lemma created_desc_newest_first (orders : list (string * direction)) (keydir : direction)
    (l : list (string * fields)) :
  Sorted (fun a b => doc_leb (("created_at", desc) :: orders) keydir a b = true) l ->
  newest_first (map (fun d => entity (fst d) (snd d)) l) = true.
Proof.
  induction l as [|a l IH]; intros Hs; [reflexivity|].
  inversion Hs as [|? ? Hl Hhd]; subst. specialize (IH Hl).
  destruct l as [|b l]; [reflexivity|].
  cbn [map newest_first] in IH |- *. rewrite IH, andb_true_r.
  inversion Hhd as [|? ? Hab]; subst.
  unfold created_not_before, compare_field.
  rewrite !entity_lookup by discriminate.
  unfold doc_leb in Hab. cbn [compare_docs directed] in Hab.
  fold (compare_field "created_at" (snd a) (snd b)).
  destruct (compare_field "created_at" (snd a) (snd b)); cbn [CompOpp] in Hab;
    [reflexivity|discriminate|reflexivity].
Qed.

(** Any beginning of the answer to a query that orders by [created_at]
    descending first is newest first. *)
Lemma run_query_newest_first (coll : path) (cs : list QueryConstraint) (s : store)
    (orders : list (string * direction)) (n : nat) :
  explicit_orders cs = ("created_at", desc) :: orders ->
  newest_first (map (fun d => entity (fst d) (snd d)) (take n (run_query coll cs s))) = true.
Proof.
  intros Hex. unfold run_query. rewrite Hex. cbn [app].
  eapply created_desc_newest_first. apply Sorted_take.
  destruct (query_limit cs); [apply Sorted_take|];
    apply sort_by_Sorted, doc_leb_total.
Qed.






End OrderFacts.

(** * Properties of the maintenance service *)
Section MaintenanceFacts.
Import JS Firestore MaintenanceService Contracts.

(** Whenever [assign] succeeds the ticket is ['in_progress'] and its
    [started_at] is what it was before: [assign] does not stamp it. *)
Lemma assign_effect (tid ticketId technicianId assignedBy : string) (w w' : world) :
  is_segment tid = true -> is_segment ticketId = true ->
  assign (instance (Some tid)) ticketId technicianId assignedBy w = (Returns tt, w') ->
  exists before after,
    ticket tid ticketId w = Some before /\
    ticket tid ticketId w' = Some after /\
    after !! "status" = Some (FStr "in_progress") /\
    after !! "started_at" = before !! "started_at".
Proof.
  unfold assign, ticket. intros Hseg Hid H.
  apply mbind_Returns in H as (now & w1 & Hnow & H). injection Hnow as <- <-.
  apply (update_Returns _ tid) in H; try assumption; try reflexivity.
  cbv zeta in H. destruct H as (before & parsed & Hb & Ha & Hp).
  cbn [instance BaseService.collectionName db tick] in Hb, Ha.
  exists before, (apply_update before parsed). repeat split; try assumption.
  - rewrite apply_update_lookup, Hp. vm_compute. reflexivity.
  - rewrite apply_update_lookup, Hp.
    change (_ !! "started_at") with (@None wval) at 1. reflexivity.
Qed.

(** Whenever [startWork] succeeds the ticket is ['in_progress'] and its
    [started_at] is the time of the call. *)
Lemma startWork_effect (tid ticketId userId : string) (w w' : world) :
  is_segment tid = true -> is_segment ticketId = true ->
  startWork (instance (Some tid)) ticketId userId w = (Returns tt, w') ->
  exists after,
    ticket tid ticketId w' = Some after /\
    after !! "status" = Some (FStr "in_progress") /\
    after !! "started_at" = Some (FTime (clock w (ticks w))).
Proof.
  unfold startWork, ticket. intros Hseg Hid H.
  apply mbind_Returns in H as (now & w1 & Hnow & H). injection Hnow as <- <-.
  apply (update_Returns _ tid) in H; try assumption; try reflexivity.
  cbv zeta in H. destruct H as (before & parsed & Hb & Ha & Hp).
  cbn [instance BaseService.collectionName db tick] in Hb, Ha.
  exists (apply_update before parsed). repeat split; try assumption.
  - rewrite apply_update_lookup, Hp. vm_compute. reflexivity.
  - rewrite apply_update_lookup, Hp. vm_compute. reflexivity.
Qed.

(** C8, the code at the failing input. [assign] on the open ticket [k1],
    which has no [started_at], succeeds and leaves the ticket
    ['in_progress'] with [started_at] still absent; [startWork] on the same
    ticket stamps it. *)
Theorem assign_enters_in_progress_unstamped :
  ticket "t1" "k1" ticket_world = Some {[ "status" := FStr "open" ]} /\
  (exists w' after,
     assign (instance (Some "t1")) "k1" "tech1" "admin" ticket_world = (Returns tt, w') /\
     ticket "t1" "k1" w' = Some after /\
     after !! "status" = Some (FStr "in_progress") /\
     after !! "started_at" = None) /\
  (exists w' after,
     startWork (instance (Some "t1")) "k1" "tech1" ticket_world = (Returns tt, w') /\
     ticket "t1" "k1" w' = Some after /\
     after !! "status" = Some (FStr "in_progress") /\
     after !! "started_at" = Some (FTime 1000)).
Proof.
  split; [reflexivity|]. split.
  - assert (Hrun : assign (instance (Some "t1")) "k1" "tech1" "admin" ticket_world
                   = (Returns tt, snd (assign (instance (Some "t1")) "k1" "tech1" "admin"
                                         ticket_world)))
      by (vm_compute; reflexivity).
    destruct (assign_effect "t1" "k1" _ _ _ _ eq_refl eq_refl Hrun)
      as (before & after & Hb & Ha & Hs & Hst).
    eexists _, after. repeat split; try eassumption.
    rewrite Hst. injection Hb as <-. reflexivity.
  - assert (Hrun : startWork (instance (Some "t1")) "k1" "tech1" ticket_world
                   = (Returns tt, snd (startWork (instance (Some "t1")) "k1" "tech1"
                                         ticket_world)))
      by (vm_compute; reflexivity).
    destruct (startWork_effect "t1" "k1" _ _ _ eq_refl eq_refl Hrun)
      as (after & Ha & Hs & Hst).
    eexists _, after. repeat split; eassumption.
Qed.

End MaintenanceFacts.

(** * Further properties of the permission helpers *)
Section PermissionHelperFacts.
Import JS Permissions Contracts.

(** A property read on [ROLE_PERMISSIONS] that misses the matrix ends on
    the prototype chain, and returns. *)
Lemma get_role_inherited (role : string) :
  assoc role ROLE_PERMISSIONS_entries = None ->
  exists rp, get ROLE_PERMISSIONS role = Returns rp /\
             In rp (inherited_values ROLE_PERMISSIONS).
Proof.
  intros Hrole. unfold ROLE_PERMISSIONS at 1. cbn [get]. rewrite assoc_map, Hrole.
  cbn [option_map].
  destruct (get_from_object_prototype _ role) as [rp| |] eqn:Hget.
  - exists rp. split; [reflexivity|].
    now apply get_from_object_prototype_values in Hget.
  - exfalso. unfold get_from_object_prototype in Hget. cbn [getPrototypeOf] in Hget.
    destruct (String.eqb role "__proto__"); [discriminate|].
    destruct (assoc role object_prototype_props); discriminate.
  - exfalso. unfold get_from_object_prototype in Hget. cbn [getPrototypeOf] in Hget.
    destruct (String.eqb role "__proto__"); [discriminate|].
    destruct (assoc role object_prototype_props); discriminate.
Qed.

(** On a module of [MODULES] the matrix decides for every role, whatever
    its name: no value on the prototype chain has a property of that name. *)
Lemma hasPermission_module (role module action : string) :
  In module ModuleValue ->
  hasPermission role module action =
  Returns (match matrix_entry role module with
           | Some acts => array_includes acts action
           | None => false
           end).
Proof.
  intros Hm. unfold matrix_entry.
  destruct (assoc role ROLE_PERMISSIONS_entries) as [ms|] eqn:Hrole.
  - unfold hasPermission, ROLE_PERMISSIONS. cbn [get]. rewrite assoc_map, Hrole.
    cbn [option_map bind truthy negb]. unfold module_object.
    rewrite get_own by (apply declared_not_inherited; tauto).
    rewrite assoc_map. destruct (assoc module ms); reflexivity.
  - destruct (get_role_inherited role Hrole) as (rp & Hget & Hin).
    rewrite hasPermission_unfold, Hget. cbn [bind].
    assert (Hall : forallb (fun rp => forallb (fun m =>
                     negb (truthy rp) ||
                     match get rp m with Returns Undefined => true | _ => false end)
                     ModuleValue) (inherited_values ROLE_PERMISSIONS) = true)
      by (vm_compute; reflexivity).
    rewrite forallb_forall in Hall. specialize (Hall rp Hin).
    rewrite forallb_forall in Hall. specialize (Hall module Hm).
    unfold check_role. destruct (negb (truthy rp)); [reflexivity|].
    cbn [orb] in Hall. destruct (get rp module) as [[]| |]; try discriminate.
    reflexivity.
Qed.

(** The roles of the matrix are those of [UserRole]. *)
Lemma matrix_roles (role : string) (ms : list (string * list string)) :
  assoc role ROLE_PERMISSIONS_entries = Some ms -> In role UserRole.
Proof.
  intros H. apply assoc_In in H.
  assert (Hall : forallb (fun e : string * list (string * list string) =>
                            array_includes UserRole (fst e))
                         ROLE_PERMISSIONS_entries = true) by (vm_compute; reflexivity).
  rewrite forallb_forall in Hall. specialize (Hall _ H).
  now apply array_includes_In.
Qed.

(** A role of [UserRole] has its entry in the matrix. *)
Lemma UserRole_matrix (role : string) :
  In role UserRole -> exists ms, assoc role ROLE_PERMISSIONS_entries = Some ms.
Proof.
  intros H.
  assert (Hall : forallb (fun r => match assoc r ROLE_PERMISSIONS_entries with
                                   | Some _ => true
                                   | None => false
                                   end) UserRole = true) by (vm_compute; reflexivity).
  rewrite forallb_forall in Hall. specialize (Hall _ H).
  destruct (assoc role ROLE_PERMISSIONS_entries) as [ms|]; [now exists ms|discriminate].
Qed.

(** The four checks behind [canManageUsers] and [canManageOrganization]:
    each answers for every role name, and answers [true] for the
    admin-level roles only. *)
Lemma manage_checks (role : string) :
  hasPermission role "users" "create" = Returns (isAdminRole role) /\
  hasPermission role "users" "update" = Returns (isAdminRole role) /\
  hasPermission role "organizations" "update" = Returns (isAdminRole role) /\
  hasPermission role "offices" "create" = Returns (isAdminRole role).
Proof.
  rewrite !hasPermission_module by (vm_compute; tauto).
  unfold matrix_entry, isAdminRole, array_includes, ROLE_PERMISSIONS_entries.
  cbn [assoc existsb].
  repeat match goal with
  | |- context [String.eqb role ?x] =>
      destruct (String.eqb_spec role x) as [->|];
      [vm_compute; repeat split; reflexivity|]
  end.
  repeat split; reflexivity.
Qed.

(** X1. [canManageUsers] answers for every role name, without an exception,
    and answers [true] exactly for the admin-level roles of [isAdminRole]:
    [SUPER_ADMIN], [TENANT_ADMIN] and [ORG_ADMIN]. *)
Theorem canManageUsers_admin_level (role : string) :
  canManageUsers role = Returns (isAdminRole role) /\
  (isAdminRole role = true <-> In role ["SUPER_ADMIN"; "TENANT_ADMIN"; "ORG_ADMIN"]).
Proof.
  split; [|apply array_includes_In].
  unfold canManageUsers. destruct (manage_checks role) as (-> & -> & _).
  cbn [bind]. now destruct (isAdminRole role).
Qed.

(** X2. [canManageOrganization] answers for every role name, without an
    exception, and answers [true] exactly for the admin-level roles of
    [isAdminRole]. *)
Theorem canManageOrganization_admin_level (role : string) :
  canManageOrganization role = Returns (isAdminRole role) /\
  (isAdminRole role = true <-> In role ["SUPER_ADMIN"; "TENANT_ADMIN"; "ORG_ADMIN"]).
Proof.
  split; [|apply array_includes_In].
  unfold canManageOrganization. destruct (manage_checks role) as (_ & _ & -> & ->).
  cbn [bind]. now destruct (isAdminRole role).
Qed.

(** X3. The composable's checks agree with the library's: for a signed-in
    user its [canManageUsers] (create on users) and its
    [canManageOrganization] (update on organizations) answer as the
    helpers of [permissions.ts] do, and as its [isAdmin] does; without a
    signed-in user every check answers [false]. *)
Theorem usePermission_agrees (userRole : option string) :
  UsePermission.canManageUsers userRole = Returns (UsePermission.isAdmin userRole) /\
  UsePermission.canManageOrganization userRole = Returns (UsePermission.isAdmin userRole) /\
  match nonempty userRole with
  | Some role =>
      UsePermission.canManageUsers userRole = canManageUsers role /\
      UsePermission.canManageOrganization userRole = canManageOrganization role
  | None =>
      forall module action,
        UsePermission.can userRole module action = Returns false /\
        UsePermission.canAccess userRole module = Returns false
  end.
Proof.
  unfold UsePermission.canManageUsers, UsePermission.canManageOrganization,
    UsePermission.canCreate, UsePermission.canUpdate, UsePermission.can,
    UsePermission.canAccess, UsePermission.isAdmin.
  destruct (nonempty userRole) as [r|].
  - destruct (manage_checks r) as (Hc & Hu & Ho & Hf).
    split; [exact Hc|]. split; [exact Ho|].
    unfold canManageUsers, canManageOrganization.
    rewrite Hc, Hu, Ho, Hf. cbn [bind]. now destruct (isAdminRole r).
  - split; [reflexivity|]. split; [reflexivity|].
    intros module action. split; reflexivity.
Qed.

(** X4. [getRolePermissions] answers for every role name, without an
    exception: the modules of the role's entry with their action arrays, in
    the order of the matrix, and the empty list for any other name; and
    what it lists is what [hasPermission] grants. *)
Theorem getRolePermissions_matrix (role : string) :
  getRolePermissions role =
    Returns (map (fun e => {| module := fst e; actions := Arr (snd e) |})
                 (match assoc role ROLE_PERMISSIONS_entries with
                  | Some ms => ms
                  | None => []
                  end)) /\
  forall ps, getRolePermissions role = Returns ps ->
    Forall (fun p => forall action,
              hasPermission role (module p) action = includes (actions p) action) ps.
Proof.
  assert (Heq : getRolePermissions role =
    Returns (map (fun e => {| module := fst e; actions := Arr (snd e) |})
                 (match assoc role ROLE_PERMISSIONS_entries with
                  | Some ms => ms
                  | None => []
                  end))).
  { unfold getRolePermissions.
    destruct (assoc role ROLE_PERMISSIONS_entries) as [ms|] eqn:Hrole.
    - unfold ROLE_PERMISSIONS. cbn [get]. rewrite assoc_map, Hrole.
      cbn [option_map bind]. unfold module_object.
      cbn [truthy negb Object_entries bind]. now rewrite map_map.
    - destruct (get_role_inherited role Hrole) as (rp & -> & Hin). cbn [bind].
      assert (Hall : forallb (fun rp =>
                       negb (truthy rp) ||
                       match Object_entries rp with Returns [] => true | _ => false end)
                       (inherited_values ROLE_PERMISSIONS) = true)
        by (vm_compute; reflexivity).
      rewrite forallb_forall in Hall. specialize (Hall rp Hin).
      destruct (negb (truthy rp)); [reflexivity|]. cbn [orb] in Hall.
      destruct (Object_entries rp) as [[|]| |]; try discriminate. reflexivity. }
  split; [exact Heq|].
  intros ps Hps. rewrite Heq in Hps.
  destruct (assoc role ROLE_PERMISSIONS_entries) as [ms|] eqn:Hrole;
    injection Hps as <-; [|constructor].
  apply Forall_forall. intros p Hp. apply list_elem_of_In in Hp.
  apply in_map_iff in Hp as ([m acts] & <- & Hin). cbn [module actions fst snd].
  intros action. apply hasPermission_entry.
  unfold matrix_entry. rewrite Hrole. apply assoc_NoDup; [|assumption].
  now apply (modules_NoDup role).
Qed.

(** The roles a non-empty answer of [getAssignableRoles] is for. *)
Lemma getAssignableRoles_known (current : string) :
  getAssignableRoles current <> [] -> In current roleHierarchy.
Proof.
  unfold getAssignableRoles, roleHierarchy. cbn [indexOf].
  repeat match goal with
  | |- context [String.eqb ?x current] =>
      destruct (String.eqb_spec x current) as [<-|];
      [intros _; simpl; tauto|]
  end.
  intros H. now contradiction H.
Qed.

(** X5. No role can hand out [SUPER_ADMIN]: it is in no answer of
    [getAssignableRoles], whatever the current role's name; and the only
    role that may hand out itself is [TENANT_ADMIN]. *)
Theorem getAssignableRoles_excludes_super_admin (current : string) :
  ~ In "SUPER_ADMIN" (getAssignableRoles current) /\
  (In current (getAssignableRoles current) <-> current = "TENANT_ADMIN").
Proof.
  assert (Hall : forallb (fun c =>
                   negb (array_includes (getAssignableRoles c) "SUPER_ADMIN") &&
                   Bool.eqb (array_includes (getAssignableRoles c) c)
                            (String.eqb c "TENANT_ADMIN")) roleHierarchy = true)
    by (vm_compute; reflexivity).
  rewrite forallb_forall in Hall.
  destruct (getAssignableRoles current) as [|r rs] eqn:Hrs.
  - split; [intros []|]. split; [intros []|]. intros ->. discriminate Hrs.
  - assert (Hin : In current roleHierarchy)
      by (apply getAssignableRoles_known; now rewrite Hrs).
    specialize (Hall _ Hin). rewrite Hrs in Hall.
    apply andb_prop in Hall as [Hsuper Hself].
    apply negb_true_iff in Hsuper. apply Bool.eqb_prop in Hself. split.
    + intros H. apply array_includes_In in H. congruence.
    + rewrite <- array_includes_In, Hself. apply String.eqb_eq.
Qed.

(** X6. Handing out roles does not escalate: whoever a role may appoint can
    in turn appoint only roles the first one could appoint itself. *)
Theorem getAssignableRoles_transitive (current r r' : string) :
  In r (getAssignableRoles current) ->
  In r' (getAssignableRoles r) ->
  In r' (getAssignableRoles current).
Proof.
  intros Hr Hr'.
  assert (Hall : forallb (fun c => forallb (fun x => forallb (fun y =>
                   array_includes (getAssignableRoles c) y)
                   (getAssignableRoles x)) (getAssignableRoles c)) roleHierarchy = true)
    by (vm_compute; reflexivity).
  rewrite forallb_forall in Hall.
  assert (Hin : In current roleHierarchy).
  { apply getAssignableRoles_known. intros Heq. now rewrite Heq in Hr. }
  specialize (Hall _ Hin). rewrite forallb_forall in Hall. specialize (Hall _ Hr).
  rewrite forallb_forall in Hall. specialize (Hall _ Hr').
  now apply array_includes_In.
Qed.

Lemma getAssignableRoles_transitive_witness :
  In "IT_ADMIN" (getAssignableRoles "ORG_ADMIN") /\
  In "FINANCE" (getAssignableRoles "IT_ADMIN") /\
  In "FINANCE" (getAssignableRoles "ORG_ADMIN").
Proof.
  assert (H1 : In "IT_ADMIN" (getAssignableRoles "ORG_ADMIN")) by (vm_compute; tauto).
  assert (H2 : In "FINANCE" (getAssignableRoles "IT_ADMIN")) by (vm_compute; tauto).
  split; [exact H1|split; [exact H2|]].
  exact (getAssignableRoles_transitive "ORG_ADMIN" "IT_ADMIN" "FINANCE" H1 H2).
Defined.

(** X7. The audit log is read-only at the level of permissions: no role,
    whatever its name, is granted [create], [update] or [delete] on the
    module [audit_logs]; the check answers [false] and does not throw. *)
Theorem audit_logs_never_writable (role : string) :
  hasPermission role "audit_logs" "create" = Returns false /\
  hasPermission role "audit_logs" "update" = Returns false /\
  hasPermission role "audit_logs" "delete" = Returns false.
Proof.
  rewrite !hasPermission_module by (vm_compute; tauto).
  unfold matrix_entry, array_includes, ROLE_PERMISSIONS_entries.
  cbn [assoc existsb].
  repeat match goal with
  | |- context [String.eqb role ?x] =>
      destruct (String.eqb_spec role x) as [->|];
      [vm_compute; repeat split; reflexivity|]
  end.
  repeat split; reflexivity.
Qed.

(** X8. The two top roles hold every permission any role of [UserRole]
    holds: whatever [hasPermission] grants to a role, on any module and
    action, it grants to [SUPER_ADMIN] and to [TENANT_ADMIN]. *)
Theorem top_roles_dominate (role module action : string) :
  In role UserRole ->
  hasPermission role module action = Returns true ->
  hasPermission "SUPER_ADMIN" module action = Returns true /\
  hasPermission "TENANT_ADMIN" module action = Returns true.
Proof.
  intros Hrole Htrue.
  destruct (UserRole_matrix role Hrole) as (ms & Hms).
  assert (Hentry : exists acts, assoc module ms = Some acts /\ In action acts).
  { revert Htrue. unfold hasPermission, ROLE_PERMISSIONS. cbn [get].
    rewrite assoc_map, Hms. cbn [option_map bind truthy negb]. unfold module_object.
    destruct (assoc module ms) as [acts|] eqn:Hm.
    - cbn [get]. rewrite assoc_map, Hm. cbn [option_map bind truthy negb includes].
      intros [= H]. exists acts. split; [reflexivity|]. now apply array_includes_In.
    - cbn [get]. rewrite assoc_map, Hm. cbn [option_map].
      destruct (get_from_object_prototype _ module) as [mp| |] eqn:Hget;
        cbn [bind truthy negb]; try discriminate.
      apply get_from_object_prototype_values in Hget.
      assert (Hall : forallb (fun mp => match check_module mp action with
                                        | Returns true => false
                                        | _ => true
                                        end) (inherited_values (Obj [])) = true)
        by (vm_compute; reflexivity).
      rewrite forallb_forall in Hall. specialize (Hall mp Hget).
      unfold check_module in Hall. intros H. rewrite H in Hall. discriminate Hall. }
  destruct Hentry as (acts & Hm & Hin).
  assert (Hall : forallb (fun e : string * list (string * list string) =>
                   forallb (fun me : string * list string =>
                     forallb (fun top =>
                       match matrix_entry top (fst me) with
                       | Some tacts => forallb (array_includes tacts) (snd me)
                       | None => false
                       end) ["SUPER_ADMIN"; "TENANT_ADMIN"]) (snd e))
                   ROLE_PERMISSIONS_entries = true) by (vm_compute; reflexivity).
  rewrite forallb_forall in Hall. specialize (Hall _ (assoc_In _ _ _ Hms)).
  rewrite forallb_forall in Hall. specialize (Hall _ (assoc_In _ _ _ Hm)).
  cbn [forallb fst snd] in Hall.
  apply andb_prop in Hall as [Hsuper Htenant].
  apply andb_prop in Htenant as [Htenant _].
  split.
  - destruct (matrix_entry "SUPER_ADMIN" module) as [tacts|] eqn:Ht; [|discriminate].
    rewrite (hasPermission_entry _ _ action tacts Ht). f_equal.
    rewrite forallb_forall in Hsuper. now apply Hsuper.
  - destruct (matrix_entry "TENANT_ADMIN" module) as [tacts|] eqn:Ht; [|discriminate].
    rewrite (hasPermission_entry _ _ action tacts Ht). f_equal.
    rewrite forallb_forall in Htenant. now apply Htenant.
Qed.

Lemma top_roles_dominate_witness :
  In "OFFICE_ADMIN" UserRole /\
  hasPermission "OFFICE_ADMIN" "offices" "update" = Returns true /\
  hasPermission "SUPER_ADMIN" "offices" "update" = Returns true /\
  hasPermission "TENANT_ADMIN" "offices" "update" = Returns true.
Proof.
  assert (H1 : In "OFFICE_ADMIN" UserRole) by (vm_compute; tauto).
  assert (H2 : hasPermission "OFFICE_ADMIN" "offices" "update" = Returns true)
    by (vm_compute; reflexivity).
  split; [exact H1|split; [exact H2|]].
  exact (top_roles_dominate "OFFICE_ADMIN" "offices" "update" H1 H2).
Defined.

(** X9. [getRoleDisplayName] returns the name of the table for the eight
    roles and falls back to the role string itself for any other name that
    is not inherited from [Object.prototype]; for an inherited name (such as
    ["constructor"]) the lookup finds a built-in and the answer is not a
    string. *)
Theorem getRoleDisplayName_fallback (role : string) :
  ~ In role inherited_names ->
  getRoleDisplayName role =
    Returns (Str (match assoc role displayNames_entries with
                  | Some name => name
                  | None => role
                  end)) /\
  Forall (fun r => exists v, getRoleDisplayName r = Returns v /\
                             forall s, v <> Str s) inherited_names.
Proof.
  intros Hrole. split.
  - unfold getRoleDisplayName, displayNames.
    rewrite (get_own _ role Hrole), assoc_map. cbn [bind].
    destruct (assoc role displayNames_entries) as [name|] eqn:Hname;
      cbn [option_map truthy]; [|reflexivity].
    assert (Hall : forallb (fun e : string * string => negb (String.eqb (snd e) ""))
                           displayNames_entries = true) by (vm_compute; reflexivity).
    rewrite forallb_forall in Hall. specialize (Hall _ (assoc_In _ _ _ Hname)).
    cbn [snd] in Hall. now rewrite Hall.
  - apply Forall_forall. intros r Hr. apply list_elem_of_In in Hr.
    assert (Hall : forallb (fun r => match getRoleDisplayName r with
                                     | Returns (Str _) => false
                                     | Returns _ => true
                                     | _ => false
                                     end) inherited_names = true)
      by (vm_compute; reflexivity).
    rewrite forallb_forall in Hall. specialize (Hall r Hr).
    destruct (getRoleDisplayName r) as [v| |]; try discriminate.
    exists v. split; [reflexivity|]. intros s ->. discriminate.
Qed.

Lemma getRoleDisplayName_fallback_witness :
  ~ In "AUDITOR" inherited_names /\
  getRoleDisplayName "AUDITOR" = Returns (Str "AUDITOR") /\
  getRoleDisplayName "IT_ADMIN" = Returns (Str "IT Administrator").
Proof.
  assert (H1 : ~ In "AUDITOR" inherited_names) by (simpl; intuition discriminate).
  assert (H2 : ~ In "IT_ADMIN" inherited_names) by (simpl; intuition discriminate).
  split; [exact H1|]. split.
  - exact (proj1 (getRoleDisplayName_fallback "AUDITOR" H1)).
  - exact (proj1 (getRoleDisplayName_fallback "IT_ADMIN" H2)).
Defined.

End PermissionHelperFacts.

(** * Further properties of queries and of the store *)
Section QueryFacts.
Import JS Firestore Contracts.

Lemma insert_by_In {A : Type} (leb : A -> A -> bool) (x y : A) (l : list A) :
  In y (insert_by leb x l) <-> y = x \/ In y l.
Proof.
  induction l as [|z l IH]; cbn [insert_by].
  - simpl. intuition.
  - destruct (leb x z); simpl in *; intuition.
Qed.

(** Sorting keeps the elements, and their number. *)
Lemma sort_by_In {A : Type} (leb : A -> A -> bool) (y : A) (l : list A) :
  In y (sort_by leb l) <-> In y l.
Proof.
  induction l as [|x l IH]; cbn [sort_by foldr]; [reflexivity|].
  fold (sort_by leb l). rewrite insert_by_In, IH. simpl. intuition.
Qed.

Lemma insert_by_length {A : Type} (leb : A -> A -> bool) (x : A) (l : list A) :
  length (insert_by leb x l) = S (length l).
Proof.
  induction l as [|z l IH]; cbn [insert_by]; [reflexivity|].
  destruct (leb x z); simpl; [reflexivity|]. now rewrite IH.
Qed.

Lemma sort_by_length {A : Type} (leb : A -> A -> bool) (l : list A) :
  length (sort_by leb l) = length l.
Proof.
  induction l as [|x l IH]; cbn [sort_by foldr]; [reflexivity|].
  fold (sort_by leb l). rewrite insert_by_length, IH. reflexivity.
Qed.

Lemma ref_id_snoc (coll : path) (id : string) : ref_id (coll ++ [id]) = id.
Proof. unfold ref_id. now rewrite last_snoc. Qed.

(** The documents of a collection are the entries of the store one segment
    below it. *)
Lemma docs_in_In (coll : path) (id : string) (d : fields) (s : store) :
  In (id, d) (docs_in coll s) <-> In (coll ++ [id], d) s.
Proof.
  unfold docs_in. induction s as [|[p d'] s IH]; cbn [omap list_omap]; [reflexivity|].
  cbn [fst snd]. destruct (bool_decide_reflect (p = coll ++ [ref_id p])) as [Hp|Hp].
  - simpl. rewrite IH. split.
    + intros [[= <- <-]|H]; [left; now rewrite <- Hp|now right].
    + intros [[= -> <-]|H]; [left; now rewrite ref_id_snoc|now right].
  - rewrite IH. simpl. split; [now right|].
    intros [[= -> <-]|H]; [|assumption].
    exfalso. apply Hp. now rewrite ref_id_snoc.
Qed.

Lemma docs_in_app (coll : path) (s s' : store) :
  docs_in coll (s ++ s') = docs_in coll s ++ docs_in coll s'.
Proof. unfold docs_in. apply omap_app. Qed.

Lemma lookup_doc_In (p : path) (d : fields) (s : store) :
  lookup_doc p s = Some d -> In (p, d) s.
Proof.
  induction s as [|[q d'] s IH]; simpl; [discriminate|].
  destruct (bool_decide_reflect (p = q)) as [->|_].
  - intros [= ->]. now left.
  - intros H. right. now apply IH.
Qed.

Lemma lookup_doc_remove (p q : path) (s : store) :
  lookup_doc q (remove_doc p s) = if bool_decide (q = p) then None else lookup_doc q s.
Proof.
  induction s as [|[r d'] s IH]; simpl.
  - now destruct (bool_decide (q = p)).
  - destruct (bool_decide_reflect (p = r)) as [->|Hpr].
    + rewrite IH. destruct (bool_decide_reflect (q = r)); reflexivity.
    + simpl. rewrite IH. destruct (bool_decide_reflect (q = r)) as [->|Hqr];
        [|reflexivity].
      rewrite bool_decide_false by congruence. reflexivity.
Qed.

Lemma In_take {A : Type} (x : A) (n : nat) (l : list A) :
  In x (take n l) -> In x l.
Proof.
  revert n. induction l as [|y l IH]; intros [|n]; simpl; try tauto.
  intros [->|H]; [now left|right; eapply IH, H].
Qed.

(** What a query answers is in the collection and passes every
    constraint. *)
Lemma run_query_In (coll : path) (cs : list QueryConstraint) (s : store)
    (d : string * fields) :
  In d (run_query coll cs s) ->
  In d (docs_in coll s) /\ forallb (matches (snd d)) cs = true.
Proof.
  unfold run_query. intros H.
  assert (Hs : In d (sort_by
                 (doc_leb (explicit_orders cs ++ implicit_orders cs)
                    (last_direction (explicit_orders cs ++ implicit_orders cs)))
                 (filter (fun d => forallb (matches (snd d)) cs) (docs_in coll s)))).
  { destruct (query_limit cs); [|assumption]. eapply In_take, H. }
  apply sort_by_In in Hs. apply list_elem_of_In in Hs.
  apply list_elem_of_filter in Hs as [Hm Hin].
  split; [now apply list_elem_of_In|]. now apply Is_true_eq_true.
Qed.

(** A query without a limit answers with every document of the collection
    that passes its constraints. *)
Lemma run_query_complete (coll : path) (cs : list QueryConstraint) (s : store)
    (d : string * fields) :
  query_limit cs = None ->
  In d (docs_in coll s) -> forallb (matches (snd d)) cs = true ->
  In d (run_query coll cs s).
Proof.
  intros Hlim Hin Hm. unfold run_query. rewrite Hlim.
  apply sort_by_In. apply list_elem_of_In. apply list_elem_of_filter.
  split; [now apply Is_true_eq_left|now apply list_elem_of_In].
Qed.

(** A limited query answers with at most that many documents. *)
Lemma run_query_length (coll : path) (cs : list QueryConstraint) (s : store) (n : Z) :
  query_limit cs = Some n -> (length (run_query coll cs s) <= Z.to_nat n)%nat.
Proof.
  intros Hlim. unfold run_query. rewrite Hlim. apply firstn_le_length.
Qed.

End QueryFacts.

(** * Further properties of the tenant-scoped repository *)
Section RepositoryRoundTrips.
Import JS Firestore BaseService Contracts Behaviour.

(** The document a write leaves does not depend on how the client disposed
    of the [undefined] properties. *)
Lemma apply_update_parsed (before : fields) (data parsed : jsobject) :
  (forall k, parsed !! k = match data !! k with
                           | Some WUndefined => None
                           | x => x
                           end) ->
  apply_update before parsed = apply_update before data.
Proof.
  intros Hp. apply map_eq. intros k. rewrite !apply_update_lookup, Hp.
  destruct (data !! k) as [[]|]; reflexivity.
Qed.

Lemma apply_set_parsed (data parsed : jsobject) :
  (forall k, parsed !! k = match data !! k with
                           | Some WUndefined => None
                           | x => x
                           end) ->
  apply_set parsed = apply_set data.
Proof. apply apply_update_parsed. Qed.

(** A new id from the supply. *)
Lemma autoId_Returns (w w' : world) (id : string) :
  autoId w = (Returns id, w') ->
  id = auto_ids w (next_id w) /\ is_segment id = true /\ w' = take_id w.
Proof.
  unfold autoId. destruct (is_segment (auto_ids w (next_id w))) eqn:Hseg;
    [|discriminate].
  intros [= <- <-]. now rewrite Hseg.
Qed.

(** A successful [addDoc]: the document under the next id of the supply was
    not there, and is appended with the data given, less its [undefined]
    properties. *)
Lemma addDoc_Returns (coll : path) (data : jsobject) (w w' : world) (ref : path) :
  addDoc coll data w = (Returns ref, w') ->
  is_segment (auto_ids w (next_id w)) = true /\
  doc_in coll (auto_ids w (next_id w)) = Returns ref /\
  lookup_doc ref (db w) = None /\
  db w' = db w ++ [(ref, apply_set data)] /\
  ticks w' = ticks w /\ clock w' = clock w.
Proof.
  unfold addDoc, doc_auto. intros H.
  apply mbind_Returns in H as (docRef & w1 & Href & H).
  apply mbind_Returns in Href as (id & w2 & Hid & Href).
  apply autoId_Returns in Hid as (-> & Hseg & ->).
  apply lift_Returns in Href as [Href ->].
  apply mbind_Returns in H as (parsed & w1 & Hparsed & H).
  apply parseData_Returns in Hparsed as [-> Hparsed].
  apply mbind_Returns in H as ([] & w1 & Hcommit & H).
  injection H as <- <-.
  unfold send_commit in Hcommit. cbn [apply_mutations apply_mutation db take_id] in Hcommit.
  destruct (lookup_doc docRef (db w)) eqn:Hnone; [discriminate|].
  cbn [bind] in Hcommit. injection Hcommit as <-.
  cbn [db with_db ticks clock with_request take_id].
  rewrite (apply_set_parsed _ _ Hparsed). repeat split; assumption.
Qed.

(** X10. [create] and [getById] round-trip. After a successful [create] on
    a bound instance the new document sits under the next id of the
    supply, which was free; [getById] with that id returns it; it carries
    the tenant, the user as creator and as last modifier and the time of
    the call in both time stamps, whatever the caller passed for those;
    and every other defined property of the caller's data is there as
    given. *)
Theorem create_then_getById (this : t) (tid : string) (data : jsobject)
    (userId : string) (w w' : world) (created : jsobject) :
  tenantId this = Some tid -> is_segment tid = true ->
  is_segment (collectionName this) = true ->
  create this data userId w = (Returns created, w') ->
  let id := auto_ids w (next_id w) in
  let ref := ["tenants"; tid; collectionName this; id] in
  exists stored,
    lookup_doc ref (db w) = None /\
    fst (getById this id w') = Returns (Some (entity id stored)) /\
    stored !! "tenant_id" = Some (FStr tid) /\
    stored !! "created_by" = Some (FStr userId) /\
    stored !! "updated_by" = Some (FStr userId) /\
    stored !! "created_at" = Some (FTime (clock w (ticks w))) /\
    stored !! "updated_at" = Some (FTime (clock w (ticks w))) /\
    (forall k v, ~ In k audit_names -> data !! k = Some (WVal v) -> stored !! k = Some v) /\
    (forall k, ~ In k audit_names -> data !! k = None -> stored !! k = None) /\
    created !! "tenant_id" = Some (WVal (FStr tid)) /\
    (data !! "id" = None -> created !! "id" = Some (WVal (FStr id))).
Proof.
  intros Htid Hseg Hcoll H. cbv zeta. unfold create in H.
  apply mbind_Returns in H as (docData & w1 & Hstamp & H).
  unfold addAuditFields in Hstamp.
  apply mbind_Returns in Hstamp as (now & w2 & Hnow & Hstamp).
  injection Hnow as <- <-. injection Hstamp as <- <-.
  rewrite (getCollectionRef_bound this tid) in H by assumption.
  apply mbind_Returns in H as (coll & w1 & Hc & H).
  apply lift_Returns in Hc as [[= <-] ->].
  apply mbind_Returns in H as (docRef & w1 & Hadd & H).
  injection H as <- <-.
  apply addDoc_Returns in Hadd as (Hid & Href & Hnone & Hdb & _).
  cbn [auto_ids next_id db tick] in Hid, Href, Hnone, Hdb.
  rewrite doc_in_collection in Href by assumption. injection Href as <-.
  rewrite Htid in Hdb |- *. cbn [tenant_value] in Hdb |- *.
  eexists. split; [exact Hnone|]. split.
  { rewrite (getById_bound this tid) by assumption. cbn [fst].
    rewrite Hdb, lookup_doc_app, Hnone. cbn [lookup_doc].
    rewrite bool_decide_true by reflexivity. reflexivity. }
  rewrite !apply_set_lookup.
  repeat (rewrite lookup_insert_eq || rewrite lookup_insert_ne by discriminate).
  cbn [apply_field].
  split; [reflexivity|]. split; [reflexivity|]. split; [reflexivity|].
  split; [reflexivity|]. split; [reflexivity|]. split; [|split; [|split]].
  - intros k v Hk Hdata. rewrite apply_set_lookup.
    rewrite !lookup_insert_ne by (intros <-; apply Hk; simpl; tauto).
    now rewrite Hdata.
  - intros k Hk Hdata. rewrite apply_set_lookup.
    rewrite !lookup_insert_ne by (intros <-; apply Hk; simpl; tauto).
    now rewrite Hdata.
  - rewrite lookup_union.
    repeat (rewrite lookup_insert_eq || rewrite lookup_insert_ne by discriminate).
    reflexivity.
  - intros Hnoid. rewrite lookup_union.
    rewrite !lookup_insert_ne by discriminate. rewrite Hnoid.
    rewrite lookup_singleton_eq. unfold ref_id.
    change ["tenants"; tid; collectionName this; auto_ids w (next_id w)]
      with (["tenants"; tid; collectionName this] ++ [auto_ids w (next_id w)]).
    now rewrite last_snoc.
Qed.

Lemma create_then_getById_witness :
  tenantId (AssetService.instance (Some "t1")) = Some "t1" /\
  is_segment "t1" = true /\
  exists created w' stored,
    create (AssetService.instance (Some "t1")) {[ "name" := WVal (FStr "Laptop") ]}
      "alice" sample_world = (Returns created, w') /\
    fst (getById (AssetService.instance (Some "t1")) "id0" w') =
      Returns (Some (entity "id0" stored)) /\
    stored !! "created_by" = Some (FStr "alice") /\
    stored !! "name" = Some (FStr "Laptop").
Proof.
  set (run := create (AssetService.instance (Some "t1"))
                {[ "name" := WVal (FStr "Laptop") ]} "alice" sample_world).
  assert (Hrun : run = (Returns (match fst run with Returns c => c | _ => ∅ end), snd run))
    by (vm_compute; reflexivity).
  split; [reflexivity|]. split; [reflexivity|].
  destruct (create_then_getById (AssetService.instance (Some "t1")) "t1" _ _ _ _ _
              eq_refl eq_refl eq_refl Hrun)
    as (stored & _ & Hget & _ & Hby & _ & _ & _ & Hdata & _).
  eexists _, _, stored. split; [exact Hrun|]. split; [exact Hget|].
  split; [exact Hby|].
  apply Hdata; [simpl; intuition discriminate|reflexivity].
Defined.

(** A successful [updateDoc]: the document was there and the written
    properties are merged into it; nothing else changes. *)
Lemma updateDoc_Returns (ref : path) (data : jsobject) (w w' : world) :
  updateDoc ref data w = (Returns tt, w') ->
  exists before,
    lookup_doc ref (db w) = Some before /\
    db w' = replace_doc ref (apply_update before data) (db w).
Proof.
  unfold updateDoc. intros H.
  apply mbind_Returns in H as (parsed & w1 & Hparsed & H).
  apply parseData_Returns in Hparsed as [-> Hparsed].
  unfold send_commit in H. cbn [apply_mutations apply_mutation] in H.
  destruct (lookup_doc ref (db w)) as [before|]; [|discriminate].
  cbn [bind] in H. injection H as <-. exists before.
  split; [reflexivity|]. cbn [db with_db].
  now rewrite (apply_update_parsed _ _ _ Hparsed).
Qed.

(** [updateDoc] of a document that is not there fails and writes nothing:
    with invalid-argument when the client refuses the data, with not-found
    when the data reach the store. *)
Lemma updateDoc_missing (ref : path) (data : jsobject) (w : world) :
  lookup_doc ref (db w) = None ->
  fst (updateDoc ref data w) <> Returns tt /\
  db (snd (updateDoc ref data w)) = db w /\
  ((exists k e, is_Some (data !! k) /\ data_key UpdateData k = Throws e) \/
   (exists k, data !! k = Some WUndefined) /\ ignoreUndefinedProperties w = false ->
   fst (updateDoc ref data w) = Throws (FirestoreError "invalid-argument")) /\
  ((forall k, is_Some (data !! k) -> data_key UpdateData k = Returns k) ->
   (forall k, data !! k <> Some WUndefined) \/ ignoreUndefinedProperties w = true ->
   fst (updateDoc ref data w) = Throws (FirestoreError "not-found")).
Proof.
  intros Hnone.
  assert (Hsent : forall parsed,
            send_commit [MUpdate ref parsed] w
              = (Throws (FirestoreError "not-found"), with_request (ReqCommit [MUpdate ref parsed]) w)).
  { intros parsed. unfold send_commit. cbn [apply_mutations apply_mutation].
    now rewrite Hnone. }
  assert (Hrun : fst (updateDoc ref data w) <> Returns tt /\
                 db (snd (updateDoc ref data w)) = db w).
  { unfold updateDoc, mbind. pose proof (parseData_world UpdateData data w) as Hw.
    destruct (parseData UpdateData data w) as [[parsed| |] w1]; cbn [snd] in Hw; subst w1.
    - rewrite Hsent. split; [discriminate|reflexivity].
    - split; [discriminate|reflexivity].
    - split; [discriminate|reflexivity]. }
  split; [apply Hrun|]. split; [apply Hrun|]. split.
  - intros [(k & e & Hk & He)|[[k Hk] Hstrict]]; unfold updateDoc, mbind.
    + now rewrite (parseData_refused _ _ _ _ w Hk He).
    + now rewrite (parseData_undefined _ _ _ w Hk Hstrict).
  - intros Hplain [Hdef|Hlenient]; unfold updateDoc, mbind.
    + rewrite (parseData_defined _ _ w Hplain Hdef). now rewrite Hsent.
    + rewrite (parseData_lenient _ _ w Hplain Hlenient). now rewrite Hsent.
Qed.

(** The keys [addAuditFields] stamps are plain field names. *)
Lemma plain_keys_stamped (data : jsobject) (x y : wval) :
  (forall k, is_Some (data !! k) -> data_key UpdateData k = Returns k) ->
  forall k, is_Some (<["updated_by" := x]> (<["updated_at" := y]> data) !! k) ->
            data_key UpdateData k = Returns k.
Proof.
  intros Hdata. apply plain_keys_insert; [reflexivity|].
  apply plain_keys_insert; [reflexivity|exact Hdata].
Qed.

(** X11. [update] never creates a document: on a bound instance, when no
    document has the id, it does not complete and the store is left as it
    was. The error is the client's invalid-argument when a key of the data
    is no field path (['a~b'], an empty or a reserved segment) or when the
    data hold an [undefined] property and the client refuses those; it is
    the store's not-found when every key is a plain field name and the
    client passes the values. *)
Theorem update_missing_rejected (this : t) (tid id : string) (data : jsobject)
    (userId : string) (w : world) :
  tenantId this = Some tid -> is_segment tid = true ->
  is_segment (collectionName this) = true -> is_segment id = true ->
  lookup_doc ["tenants"; tid; collectionName this; id] (db w) = None ->
  fst (update this id data userId w) <> Returns tt /\
  db (snd (update this id data userId w)) = db w /\
  ((exists k e, is_Some (data !! k) /\ data_key UpdateData k = Throws e) \/
   (exists k, k <> "updated_at" /\ k <> "updated_by" /\ data !! k = Some WUndefined) /\
   ignoreUndefinedProperties w = false ->
   fst (update this id data userId w) = Throws (FirestoreError "invalid-argument")) /\
  ((forall k, is_Some (data !! k) -> data_key UpdateData k = Returns k) ->
   (forall k, data !! k <> Some WUndefined) \/ ignoreUndefinedProperties w = true ->
   fst (update this id data userId w) = Throws (FirestoreError "not-found")).
Proof.
  intros Htid Hseg Hcoll Hid Hnone. unfold update, getDocRef.
  rewrite (getCollectionRef_bound this tid) by assumption. cbn [bind].
  rewrite doc_in_collection by assumption.
  unfold mbind at 1. unfold lift.
  unfold addAuditFields, mbind, Timestamp_now, ret.
  match goal with
  | |- context [updateDoc ?r ?d ?w0] =>
      destruct (updateDoc_missing r d w0 Hnone) as (Hfst & Hdb & Hinv & Hnf)
  end.
  split; [exact Hfst|]. split; [exact Hdb|]. split.
  - intros [(k & e & Hk & He)|[(k & Hk1 & Hk2 & Hk) Hstrict]]; apply Hinv.
    + left. exists k, e. split; [|exact He].
      destruct (decide (k = "updated_by")) as [->|Hn1]; [discriminate He|].
      destruct (decide (k = "updated_at")) as [->|Hn2]; [discriminate He|].
      now rewrite !lookup_insert_ne by congruence.
    + right. split; [|exact Hstrict]. exists k.
      now rewrite !lookup_insert_ne by congruence.
  - intros Hplain Hvalues. apply Hnf; [now apply plain_keys_stamped|].
    destruct Hvalues as [Hdef|Hlenient]; [left|now right].
    intros k.
    destruct (decide (k = "updated_by")) as [->|Hk1];
      [rewrite lookup_insert_eq; discriminate|].
    rewrite lookup_insert_ne by congruence.
    destruct (decide (k = "updated_at")) as [->|Hk2];
      [rewrite lookup_insert_eq; discriminate|].
    rewrite lookup_insert_ne by congruence. apply Hdef.
Qed.

Lemma update_missing_rejected_witness :
  tenantId (MaintenanceService.instance (Some "t1")) = Some "t1" /\
  lookup_doc ["tenants"; "t1"; "maintenance"; "k9"] (db ticket_world) = None /\
  fst (update (MaintenanceService.instance (Some "t1")) "k9"
         {[ "status" := WVal (FStr "open") ]} "alice" ticket_world)
    = Throws (FirestoreError "not-found") /\
  fst (update (MaintenanceService.instance (Some "t1")) "k9"
         {[ "a~b" := WVal (FNum 1) ]} "alice" ticket_world)
    = Throws (FirestoreError "invalid-argument") /\
  db (snd (update (MaintenanceService.instance (Some "t1")) "k9"
             {[ "status" := WVal (FStr "open") ]} "alice" ticket_world)) = db ticket_world.
Proof.
  assert (H1 : lookup_doc ["tenants"; "t1"; "maintenance"; "k9"] (db ticket_world) = None)
    by reflexivity.
  destruct (update_missing_rejected (MaintenanceService.instance (Some "t1")) "t1" "k9"
              {[ "status" := WVal (FStr "open") ]} "alice" ticket_world
              eq_refl eq_refl eq_refl eq_refl H1) as (_ & Hdb & _ & Hnf).
  destruct (update_missing_rejected (MaintenanceService.instance (Some "t1")) "t1" "k9"
              {[ "a~b" := WVal (FNum 1) ]} "alice" ticket_world
              eq_refl eq_refl eq_refl eq_refl H1) as (_ & _ & Hinv & _).
  split; [reflexivity|]. split; [exact H1|]. split; [|split; [|exact Hdb]].
  - apply Hnf.
    + intros k [x Hk]. apply lookup_singleton_Some in Hk as [<- _]. reflexivity.
    + left. intros k. destruct (decide (k = "status")) as [->|Hk].
      * rewrite lookup_singleton_eq. discriminate.
      * rewrite lookup_singleton_ne by congruence. discriminate.
  - apply Hinv. left. exists "a~b", (FirestoreError "invalid-argument").
    split; [|reflexivity]. rewrite lookup_singleton_eq. now eexists.
Defined.

(** X12. [update] merges. For data whose keys are plain field names (no
    dotted path, which would write inside a map value), after a successful
    [update] on a bound instance the document carries the user as last
    modifier and the time of the call, whatever the caller passed for
    those; each other property of the data is written over the field of
    its name (an [undefined] one leaves it); every field the data does not
    name, [created_at] and [created_by] among them, is as before; and no
    other document changes. *)
Theorem update_merges (this : t) (tid id : string) (data : jsobject) (userId : string)
    (w w' : world) :
  tenantId this = Some tid -> is_segment tid = true ->
  is_segment (collectionName this) = true -> is_segment id = true ->
  (forall k, is_Some (data !! k) -> data_key UpdateData k = Returns k) ->
  update this id data userId w = (Returns tt, w') ->
  let ref := ["tenants"; tid; collectionName this; id] in
  exists before after,
    lookup_doc ref (db w) = Some before /\
    lookup_doc ref (db w') = Some after /\
    after !! "updated_by" = Some (FStr userId) /\
    after !! "updated_at" = Some (FTime (clock w (ticks w))) /\
    (forall k, k <> "updated_at" -> k <> "updated_by" ->
       after !! k = match data !! k with
                    | Some written => apply_field (before !! k) written
                    | None => before !! k
                    end) /\
    (forall q, q <> ref -> lookup_doc q (db w') = lookup_doc q (db w)).
Proof.
  intros Htid Hseg Hcoll Hid _. unfold update, getDocRef.
  rewrite (getCollectionRef_bound this tid) by assumption. cbn [bind].
  rewrite doc_in_collection by assumption.
  intros H. cbv zeta.
  apply mbind_Returns in H as (docRef & w1 & Href & H).
  apply lift_Returns in Href as [[= <-] ->].
  apply mbind_Returns in H as (updateData & w1 & Hstamp & H).
  unfold addAuditFields in Hstamp.
  apply mbind_Returns in Hstamp as (now & w2 & Hnow & Hstamp).
  injection Hnow as <- <-. injection Hstamp as <- <-.
  apply updateDoc_Returns in H as (before & Hbefore & Hdb).
  cbn [db tick] in Hbefore, Hdb.
  eexists before, _. split; [exact Hbefore|]. rewrite Hdb. split.
  { rewrite lookup_doc_replace, Hbefore, bool_decide_true by reflexivity. reflexivity. }
  rewrite !apply_update_lookup.
  repeat (rewrite lookup_insert_eq || rewrite lookup_insert_ne by discriminate).
  cbn [apply_field]. split; [reflexivity|]. split; [reflexivity|]. split.
  - intros k Hk1 Hk2. rewrite apply_update_lookup.
    now rewrite !lookup_insert_ne by congruence.
  - intros q Hq. rewrite lookup_doc_replace. now rewrite bool_decide_false.
Qed.

Lemma update_merges_witness :
  tenantId (MaintenanceService.instance (Some "t1")) = Some "t1" /\
  exists w' before after,
    update (MaintenanceService.instance (Some "t1")) "k1"
      {[ "priority" := WVal (FStr "high") ]} "alice" ticket_world = (Returns tt, w') /\
    lookup_doc ["tenants"; "t1"; "maintenance"; "k1"] (db ticket_world) = Some before /\
    lookup_doc ["tenants"; "t1"; "maintenance"; "k1"] (db w') = Some after /\
    after !! "updated_by" = Some (FStr "alice") /\
    after !! "status" = before !! "status".
Proof.
  set (run := update (MaintenanceService.instance (Some "t1")) "k1"
                {[ "priority" := WVal (FStr "high") ]} "alice" ticket_world).
  assert (Hrun : run = (Returns tt, snd run)) by (vm_compute; reflexivity).
  assert (Hplain : forall k, is_Some (({[ "priority" := WVal (FStr "high") ]} : jsobject) !! k) ->
                             data_key UpdateData k = Returns k).
  { intros k [x Hk]. apply lookup_singleton_Some in Hk as [<- _]. reflexivity. }
  split; [reflexivity|].
  destruct (update_merges (MaintenanceService.instance (Some "t1")) "t1" "k1" _ _ _ _
              eq_refl eq_refl eq_refl eq_refl Hplain Hrun)
    as (before & after & Hb & Ha & Hby & _ & Hother & _).
  exists (snd run), before, after.
  split; [exact Hrun|]. split; [exact Hb|]. split; [exact Ha|]. split; [exact Hby|].
  rewrite (Hother "status") by discriminate. reflexivity.
Defined.

(** X13. [delete] on a bound instance always succeeds, whether or not the
    document exists; afterwards [getById] with that id answers [null], and
    every other document is as before. *)
Theorem delete_then_getById (this : t) (tid id : string) (w : world) :
  tenantId this = Some tid -> is_segment tid = true ->
  is_segment (collectionName this) = true -> is_segment id = true ->
  let ref := ["tenants"; tid; collectionName this; id] in
  exists w',
    delete this id w = (Returns tt, w') /\
    fst (getById this id w') = Returns None /\
    (forall q, q <> ref -> lookup_doc q (db w') = lookup_doc q (db w)).
Proof.
  intros Htid Hseg Hcoll Hid. cbv zeta. unfold delete, getDocRef.
  rewrite (getCollectionRef_bound this tid) by assumption. cbn [bind].
  rewrite doc_in_collection by assumption.
  unfold mbind, lift, deleteDoc, send_commit. cbn [apply_mutations apply_mutation bind].
  eexists. split; [reflexivity|]. split.
  - rewrite (getById_bound this tid) by assumption. cbn [fst db with_db].
    rewrite lookup_doc_remove, bool_decide_true by reflexivity. reflexivity.
  - intros q Hq. cbn [db with_db]. rewrite lookup_doc_remove.
    now rewrite bool_decide_false.
Qed.

Lemma delete_then_getById_witness :
  tenantId (MaintenanceService.instance (Some "t1")) = Some "t1" /\
  is_segment "t1" = true /\ is_segment "k1" = true /\
  exists w',
    delete (MaintenanceService.instance (Some "t1")) "k1" ticket_world = (Returns tt, w') /\
    fst (getById (MaintenanceService.instance (Some "t1")) "k1" w') = Returns None.
Proof.
  split; [reflexivity|]. split; [reflexivity|]. split; [reflexivity|].
  destruct (delete_then_getById (MaintenanceService.instance (Some "t1")) "t1" "k1"
              ticket_world eq_refl eq_refl eq_refl eq_refl) as (w' & Hrun & Hget & _).
  exists w'. split; [exact Hrun|exact Hget].
Defined.

Lemma keeps_store_bind {A B : Type} (c : M A) (k : A -> M B) :
  keeps_store c -> (forall a, keeps_store (k a)) -> keeps_store (mbind c k).
Proof.
  intros Hc Hk w. unfold mbind. specialize (Hc w).
  destruct (c w) as [[a| |] w1]; cbn [snd] in *; try assumption.
  now rewrite Hk.
Qed.

Lemma keeps_store_lift {A : Type} (o : outcome A) : keeps_store (lift o).
Proof. now intros w. Qed.

Lemma keeps_store_ret {A : Type} (a : A) : keeps_store (ret a).
Proof. now intros w. Qed.

Lemma keeps_store_now : keeps_store Timestamp_now.
Proof. now intros w. Qed.

Lemma keeps_store_autoId : keeps_store autoId.
Proof. intros w. unfold autoId. now destruct (is_segment _). Qed.

Lemma keeps_store_doc_auto (coll : path) : keeps_store (doc_auto coll).
Proof.
  apply keeps_store_bind; [apply keeps_store_autoId|]. intros id. apply keeps_store_lift.
Qed.

Lemma keeps_store_parseData (source : data_source) (data : jsobject) :
  keeps_store (parseData source data).
Proof. intros w. now rewrite parseData_world. Qed.

Lemma keeps_store_batch_set (batch : list mutation) (ref : path) (data : jsobject) :
  keeps_store (batch_set batch ref data).
Proof.
  apply keeps_store_bind; [apply keeps_store_parseData|]. intros p. apply keeps_store_ret.
Qed.

Lemma keeps_store_batch_update (batch : list mutation) (ref : path) (data : jsobject) :
  keeps_store (batch_update batch ref data).
Proof.
  apply keeps_store_bind; [apply keeps_store_parseData|]. intros p. apply keeps_store_ret.
Qed.

Lemma keeps_store_addAuditFields (this : t) (data : jsobject) (userId : string) (isNew : bool) :
  keeps_store (addAuditFields this data userId isNew).
Proof.
  apply keeps_store_bind; [apply keeps_store_now|]. intros now.
  destruct isNew; apply keeps_store_ret.
Qed.

Lemma keeps_store_getDoc (p : path) : keeps_store (getDoc p).
Proof. now intros w. Qed.

Lemma keeps_store_getDocs (coll : path) (cs : list QueryConstraint) :
  keeps_store (getDocs coll cs).
Proof. intros w. unfold getDocs, mbind, lift. now destruct (query coll cs). Qed.

(** Collecting the writes of a batch writes nothing. *)
Lemma keeps_store_batchWrite_loop (this : t) (operations : list operation)
    (batch : list mutation) :
  keeps_store (batchWrite_loop this batch operations).
Proof.
  revert batch. induction operations as [|op rest IH]; intros batch;
    cbn [batchWrite_loop]; [apply keeps_store_ret|].
  apply keeps_store_bind; [|intros b; apply IH].
  destruct op as [ty i d u]. unfold batchWrite_step. cbn [type id op_data userId].
  destruct ty, d as [d'|], (nonempty u) as [u'|], (nonempty i) as [i'|];
    try apply keeps_store_ret;
    repeat (apply keeps_store_bind;
            [first [apply keeps_store_lift | apply keeps_store_doc_auto
                   | apply keeps_store_addAuditFields]|intros ?]);
    first [apply keeps_store_batch_set | apply keeps_store_batch_update
          | apply keeps_store_ret].
Qed.

(** A failed commit writes nothing. *)
Lemma send_commit_all_or_nothing (ms : list mutation) (w : world) :
  fst (send_commit ms w) <> Returns tt -> db (snd (send_commit ms w)) = db w.
Proof.
  unfold send_commit. destruct (apply_mutations ms (db w)); cbn [fst snd db with_request];
    [intros H; now contradiction H|reflexivity|reflexivity].
Qed.

Lemma batch_commit_all_or_nothing (batch : list mutation) (w : world) :
  fst (batch_commit batch w) <> Returns tt -> db (snd (batch_commit batch w)) = db w.
Proof.
  destruct batch as [|m ms]; [reflexivity|]. apply send_commit_all_or_nothing.
Qed.

(** X14. [batchWrite] is all or nothing: if it does not complete, whether
    it stops while collecting the operations (an unbound tenant, data the
    client refuses) or at the commit (an update of a document that is not
    there), the store is as it was; none of the operations that came before
    the failing one is applied. *)
Theorem batchWrite_all_or_nothing (this : t) (operations : list operation) (w : world) :
  fst (batchWrite this operations w) <> Returns tt ->
  db (snd (batchWrite this operations w)) = db w.
Proof.
  unfold batchWrite, mbind.
  pose proof (keeps_store_batchWrite_loop this operations writeBatch w) as Hloop.
  destruct (batchWrite_loop this writeBatch operations w) as [[batch| |] w1];
    cbn [snd] in Hloop; cbn [fst snd]; try (intros _; exact Hloop).
  intros H. rewrite <- Hloop. now apply batch_commit_all_or_nothing.
Qed.

Lemma batchWrite_all_or_nothing_witness :
  let ops := [ {| type := op_create; id := None;
                  op_data := Some {[ "name" := WVal (FStr "Laptop") ]};
                  userId := Some "alice" |};
               {| type := op_update; id := Some "missing";
                  op_data := Some {[ "name" := WVal (FStr "Desk") ]};
                  userId := Some "alice" |} ] in
  fst (batchWrite (AssetService.instance (Some "t1")) ops two_assets_world)
    = Throws (FirestoreError "not-found") /\
  db (snd (batchWrite (AssetService.instance (Some "t1")) ops two_assets_world))
    = db two_assets_world.
Proof.
  cbv zeta.
  assert (H : fst (batchWrite (AssetService.instance (Some "t1"))
                     [ {| type := op_create; id := None;
                          op_data := Some {[ "name" := WVal (FStr "Laptop") ]};
                          userId := Some "alice" |};
                       {| type := op_update; id := Some "missing";
                          op_data := Some {[ "name" := WVal (FStr "Desk") ]};
                          userId := Some "alice" |} ] two_assets_world)
              = Throws (FirestoreError "not-found")) by (vm_compute; reflexivity).
  split; [exact H|].
  apply batchWrite_all_or_nothing. rewrite H. discriminate.
Defined.

Lemma unlimited_matches (d : fields) (cs : list QueryConstraint) :
  forallb (matches d) (unlimited cs) = forallb (matches d) cs.
Proof.
  induction cs as [|c cs IH]; [reflexivity|].
  destruct c; cbn [unlimited List.filter forallb matches]; fold (unlimited cs);
    now rewrite IH.
Qed.

Lemma unlimited_explicit_orders (cs : list QueryConstraint) :
  explicit_orders (unlimited cs) = explicit_orders cs.
Proof.
  unfold explicit_orders. induction cs as [|c cs IH]; [reflexivity|].
  destruct c; cbn [unlimited List.filter omap list_omap]; fold (unlimited cs);
    now rewrite IH.
Qed.

Lemma unlimited_inequality_fields (cs : list QueryConstraint) :
  inequality_fields (unlimited cs) = inequality_fields cs.
Proof.
  unfold inequality_fields. induction cs as [|c cs IH]; [reflexivity|].
  destruct c; cbn [unlimited List.filter omap list_omap]; fold (unlimited cs);
    now rewrite IH.
Qed.

Lemma unlimited_query_limit (cs : list QueryConstraint) :
  query_limit (unlimited cs) = None.
Proof.
  unfold query_limit.
  assert (H : omap (fun c => match c with QLimit n => Some n | _ => None end)
                   (unlimited cs) = []).
  { induction cs as [|c cs IH]; [reflexivity|].
    destruct c; cbn [unlimited List.filter omap list_omap]; fold (unlimited cs);
      exact IH. }
  now rewrite H.
Qed.

(** The limit of a query cuts the answer of the query without it. *)
Lemma run_query_unlimited (coll : path) (cs : list QueryConstraint) (s : store) :
  run_query coll cs s =
  match query_limit cs with
  | Some n => take (Z.to_nat n) (run_query coll (unlimited cs) s)
  | None => run_query coll (unlimited cs) s
  end.
Proof.
  unfold run_query at 2 3. rewrite unlimited_query_limit.
  unfold implicit_orders. rewrite unlimited_explicit_orders, unlimited_inequality_fields.
  fold (implicit_orders cs).
  rewrite (list_filter_iff (fun d : string * fields => forallb (matches (snd d)) (unlimited cs))
                           (fun d : string * fields => forallb (matches (snd d)) cs)).
  - reflexivity.
  - intros d. now rewrite unlimited_matches.
Qed.

(** X15. What a page of [getPaginated] holds. On a bound instance, for a
    page size [n] from 0 on within the safe integers (25 when none is
    given): when [query] accepts the additional constraints with the
    ordering and the limit, the data of the answer are the first [n]
    documents of the query made of the additional constraints and the
    ordering, and [has_more] is [true] exactly when that query has more
    than [n] documents. The page number plays no part: every page is the
    first one. The store is left as it was. When [query] refuses them,
    [getPaginated] fails with the client's error and sends nothing. *)
Theorem getPaginated_page (this : t) (tid : string) (params : QueryParams)
    (additionalConstraints : list QueryConstraint) (ordering : QueryConstraint) (w : world) :
  tenantId this = Some tid -> is_segment tid = true ->
  is_segment (collectionName this) = true ->
  0 <= default 25 (page_size params) < MAX_SAFE_INTEGER ->
  match sort params with
  | Some sort => orderBy (field sort) (direction_ sort)
  | None => orderBy "created_at" desc
  end = Returns ordering ->
  let n := default 25 (page_size params) in
  let coll := ["tenants"; tid; collectionName this] in
  let all := run_query coll (unlimited additionalConstraints ++ [ordering]) (db w) in
  (forall q,
     query coll (additionalConstraints ++ [ordering; QLimit (n + 1)]) = Returns q ->
     exists resp w',
       getPaginated this params additionalConstraints w = (Returns resp, w') /\
       data resp = map (fun d => entity (fst d) (snd d)) (take (Z.to_nat n) all) /\
       has_more resp = (n <? Z.of_nat (length all)) /\
       db w' = db w) /\
  (forall e,
     query coll (additionalConstraints ++ [ordering; QLimit (n + 1)]) = Throws e ->
     getPaginated this params additionalConstraints w = (Throws e, w)).
Proof.
  intros Htid Hseg Hcoll Hn Hord. cbv zeta.
  assert (Hsafe : number_add (default 25 (page_size params)) 1
                  = Returns (default 25 (page_size params) + 1)).
  { apply number_add_safe; unfold MAX_SAFE_INTEGER in *; lia. }
  split.
  2:{ intros e He. unfold getPaginated.
      rewrite Hord, Hsafe. cbn [bind]. unfold limit. rewrite (proj2 (Z.leb_gt _ _)) by lia.
      rewrite (getCollectionRef_bound this tid) by assumption.
      unfold mbind, lift, getDocs. cbn [app]. now rewrite He. }
  intros q Hq. unfold getPaginated.
  rewrite Hord, Hsafe. cbn [bind]. unfold limit. rewrite (proj2 (Z.leb_gt _ _)) by lia.
  rewrite (getCollectionRef_bound this tid) by assumption.
  change (additionalConstraints ++ [ordering; QLimit (default 25 (page_size params) + 1)])
    with (additionalConstraints ++ [ordering] ++
          [QLimit (default 25 (page_size params) + 1)]) in Hq.
  unfold mbind, lift, ret. rewrite (getDocs_accepted _ _ _ w Hq).
  eexists _, _. split; [reflexivity|].
  cbn [data has_more db with_request].
  assert (Hno : match ordering with QLimit _ => False | _ => True end).
  { destruct (sort params) as [so|]; unfold orderBy in Hord;
      destruct (fieldPath _); cbn [bind] in Hord; try discriminate;
      injection Hord as <-; exact I. }
  rewrite run_query_unlimited.
  assert (Hlim : query_limit (additionalConstraints ++ [ordering] ++
                              [QLimit (default 25 (page_size params) + 1)])
                 = Some (default 25 (page_size params) + 1)).
  { unfold query_limit. rewrite !omap_app. cbn [omap list_omap].
    rewrite app_assoc. apply last_snoc. }
  rewrite Hlim.
  assert (Hun : unlimited (additionalConstraints ++ [ordering] ++
                           [QLimit (default 25 (page_size params) + 1)])
                = unlimited additionalConstraints ++ [ordering]).
  { unfold unlimited. rewrite !List.filter_app. cbn [List.filter].
    destruct ordering; try contradiction; now rewrite app_nil_r. }
  rewrite Hun.
  set (all := run_query _ (unlimited additionalConstraints ++ [ordering]) (db w)).
  set (n := default 25 (page_size params)) in *.
  split; [|split; [|reflexivity]].
  - f_equal. unfold slice, clamp_index. cbn [Z.ltb Z.compare].
    rewrite (Z.min_l 0) by lia.
    rewrite (proj2 (Z.ltb_ge n 0)) by lia.
    change (Z.to_nat 0) with 0%nat. rewrite drop_0.
    rewrite Z.sub_0_r, length_take, take_take.
    destruct (le_lt_dec (length all) (Z.to_nat n)) as [Hle|Hlt].
    + rewrite !take_ge by lia. reflexivity.
    + f_equal. lia.
  - rewrite length_take.
    destruct (Z.ltb_spec n (Z.of_nat (length all))) as [Hlt|Hge];
      [apply Z.ltb_lt|apply Z.ltb_ge]; lia.
Qed.

Lemma getPaginated_page_witness :
  tenantId (AssetService.instance (Some "t1")) = Some "t1" /\
  0 <= default 25 (page_size {| page := Some 7; page_size := Some 2; sort := None |})
    < MAX_SAFE_INTEGER /\
  (exists resp w',
     getPaginated (AssetService.instance (Some "t1"))
       {| page := Some 7; page_size := Some 2; sort := None |} [] three_assets_world
       = (Returns resp, w') /\
     map (fun e : fields => e !! "id") (data resp) = [Some (FStr "c"); Some (FStr "b")] /\
     has_more resp = true) /\
  getPaginated (AssetService.instance (Some "t1"))
    {| page := Some 7; page_size := Some 2; sort := None |}
    [QWhereIn "status" (Array [])] three_assets_world
    = (Throws (FirestoreError "invalid-argument"), three_assets_world).
Proof.
  assert (H1 : tenantId (AssetService.instance (Some "t1")) = Some "t1") by reflexivity.
  assert (H2 : 0 <= default 25 (page_size {| page := Some 7; page_size := Some 2;
                                              sort := None |}) < MAX_SAFE_INTEGER)
    by (unfold MAX_SAFE_INTEGER; simpl; lia).
  split; [exact H1|split; [exact H2|]]. split.
  - destruct (getPaginated_page (AssetService.instance (Some "t1")) "t1"
                {| page := Some 7; page_size := Some 2; sort := None |} []
                (QOrderBy "created_at" desc) three_assets_world
                H1 eq_refl eq_refl H2 eq_refl) as [Hpage _].
    destruct (Hpage _ eq_refl) as (resp & w' & Hrun & Hdata & Hmore & _).
    exists resp, w'. split; [exact Hrun|]. split.
    + rewrite Hdata. vm_compute. reflexivity.
    + rewrite Hmore. vm_compute. reflexivity.
  - exact (proj2 (getPaginated_page (AssetService.instance (Some "t1")) "t1"
                    {| page := Some 7; page_size := Some 2; sort := None |}
                    [QWhereIn "status" (Array [])]
                    (QOrderBy "created_at" desc) three_assets_world
                    H1 eq_refl eq_refl H2 eq_refl) _ eq_refl).
Defined.

End RepositoryRoundTrips.

(** * The query builder *)
Section FilterFacts.
Import JS Firestore BaseService Contracts Behaviour.

Lemma ascii_compare_refl (c : ascii) : Ascii.compare c c = Eq.
Proof. unfold Ascii.compare. apply N.compare_refl. Qed.

Lemma ascii_compare_eq (a c : ascii) : Ascii.compare a c = Eq -> a = c.
Proof.
  unfold Ascii.compare. intros H. apply N.compare_eq in H.
  rewrite <- (ascii_N_embedding a), <- (ascii_N_embedding c). now rewrite H.
Qed.

(** A common beginning does not count in the comparison of two strings. *)
Lemma compare_append (t a b : string) :
  String.compare (t +:+ a) (t +:+ b) = String.compare a b.
Proof.
  induction t as [|c t IH]; [reflexivity|].
  simpl. now rewrite ascii_compare_refl.
Qed.

Lemma append_empty (t : string) : t +:+ EmptyString = t.
Proof.
  induction t as [|c t IH]; [reflexivity|].
  change (String c (t +:+ EmptyString) = String c t). now rewrite IH.
Qed.

Lemma compare_empty_r (x : string) : String.compare x "" <> Lt.
Proof. now destruct x. Qed.

(** Between a string and any extension of it there are extensions of it
    only. *)
Lemma between_prefix (t u x : string) :
  String.compare x t <> Lt -> String.compare x (t +:+ u) <> Gt ->
  exists rest, x = t +:+ rest.
Proof.
  revert x. induction t as [|c t IH]; intros x Hge Hle.
  - now exists x.
  - destruct x as [|a x]; [now contradiction Hge|].
    simpl in Hge, Hle.
    destruct (Ascii.compare a c) eqn:Hac.
    + apply ascii_compare_eq in Hac as ->.
      destruct (IH x Hge Hle) as (rest & ->). now exists rest.
    + now contradiction Hge.
    + now contradiction Hle.
Qed.

(** X16. The ['contains'] filter of [buildQueryConstraints] is a prefix
    match. The two constraints it pushes are passed by a document exactly
    when the field holds a string that begins with the search term and goes
    on with something not above U+F8FF; a string that has the term further
    inside only does not pass, and neither does a field that is missing or
    not a string. *)
Theorem contains_filter_is_prefix_match (f term : string) (page : option Z)
    (cs : list QueryConstraint) (d : fields) :
  buildQueryConstraints
    (Some [ {| filter_field := f; operator := op_contains;
               value_ := Scalar (FStr term) |} ])
    {| page := page; page_size := None; sort := None |} = Returns cs ->
  (forallb (matches d) cs = true <->
   exists rest, d !! f = Some (FStr (term +:+ rest)) /\ String.compare rest uf8ff <> Gt).
Proof.
  unfold buildQueryConstraints, filters_loop, filter_constraints.
  cbn [sort page_size operator value_ filter_field]. unfold where_.
  destruct (fieldPath f) as [f'| |] eqn:Hf; cbn [bind]; try discriminate.
  apply fieldPath_Returns in Hf as ->.
  intros [= <-]. cbn [app forallb matches].
  destruct (d !! f) as [v|] eqn:Hd.
  - destruct v as [|b|n|t|x|r];
      try (cbn [where_matches type_order Z.eqb andb]; split;
           [discriminate|intros (rest & [= ] & _)]).
    unfold where_matches. cbn [type_order fval_compare Z.eqb Pos.eqb andb].
    rewrite andb_true_r. split.
    + intros H. apply andb_prop in H as [Hge Hle].
      destruct (between_prefix term uf8ff x) as (rest & ->).
      * intros Hlt. now rewrite Hlt in Hge.
      * intros Hgt. now rewrite Hgt in Hle.
      * exists rest. split; [reflexivity|].
        rewrite compare_append in Hle. intros Hgt. now rewrite Hgt in Hle.
    + intros (rest & [= ->] & Hle). rewrite compare_append.
      rewrite <- (append_empty term) at 2. rewrite compare_append.
      pose proof (compare_empty_r rest) as Hge.
      destruct (String.compare rest EmptyString), (String.compare rest uf8ff);
        first [reflexivity | now contradiction Hge | now contradiction Hle].
  - cbn [andb]. split; [discriminate|]. intros (rest & Habs & _). discriminate.
Qed.

Lemma contains_filter_is_prefix_match_witness :
  let cs := [QWhere "name" OpGe (FStr "Lap"); QWhere "name" OpLe (FStr ("Lap" +:+ uf8ff))] in
  buildQueryConstraints
    (Some [ {| filter_field := "name"; operator := op_contains;
               value_ := Scalar (FStr "Lap") |} ])
    {| page := None; page_size := None; sort := None |} = Returns cs /\
  forallb (matches {[ "name" := FStr "Laptop" ]}) cs = true /\
  forallb (matches {[ "name" := FStr "Big Lap" ]}) cs = false.
Proof.
  cbv zeta.
  assert (Hb : buildQueryConstraints
                 (Some [ {| filter_field := "name"; operator := op_contains;
                            value_ := Scalar (FStr "Lap") |} ])
                 {| page := None; page_size := None; sort := None |}
               = Returns [QWhere "name" OpGe (FStr "Lap");
                          QWhere "name" OpLe (FStr ("Lap" +:+ uf8ff))])
    by (vm_compute; reflexivity).
  split; [exact Hb|]. split.
  - apply (proj2 (contains_filter_is_prefix_match "name" "Lap" None _
                    {[ "name" := FStr "Laptop" ]} Hb)).
    exists "top". split; [reflexivity|]. vm_compute. discriminate.
  - vm_compute. reflexivity.
Defined.

End FilterFacts.

(** * Batches of two writes *)
Section BatchFacts.
Import JS Firestore Contracts Behaviour.

Lemma doc_auto_Returns (coll : path) (w w' : world) (ref : path) :
  doc_auto coll w = (Returns ref, w') ->
  is_segment (auto_ids w (next_id w)) = true /\
  doc_in coll (auto_ids w (next_id w)) = Returns ref /\
  w' = take_id w.
Proof.
  unfold doc_auto. intros H.
  apply mbind_Returns in H as (id & w1 & Hid & H).
  apply autoId_Returns in Hid as (-> & Hseg & ->).
  apply lift_Returns in H as [H ->]. repeat split; assumption.
Qed.

Lemma batch_update_Returns (batch batch' : list mutation) (ref : path) (data : jsobject)
    (w w' : world) :
  batch_update batch ref data w = (Returns batch', w') ->
  w' = w /\
  exists parsed, batch' = batch ++ [MUpdate ref parsed] /\
    forall before, apply_update before parsed = apply_update before data.
Proof.
  unfold batch_update. intros H.
  apply mbind_Returns in H as (parsed & w1 & Hparsed & H).
  apply parseData_Returns in Hparsed as [-> Hparsed]. injection H as <- <-.
  split; [reflexivity|]. exists parsed. split; [reflexivity|].
  intros before. now apply apply_update_parsed.
Qed.

Lemma batch_set_Returns (batch batch' : list mutation) (ref : path) (data : jsobject)
    (w w' : world) :
  batch_set batch ref data w = (Returns batch', w') ->
  w' = w /\
  exists parsed, batch' = batch ++ [MSet ref parsed] /\ apply_set parsed = apply_set data.
Proof.
  unfold batch_set. intros H.
  apply mbind_Returns in H as (parsed & w1 & Hparsed & H).
  apply parseData_Returns in Hparsed as [-> Hparsed]. injection H as <- <-.
  split; [reflexivity|]. exists parsed. split; [reflexivity|].
  now apply apply_set_parsed.
Qed.

(** A committed batch of an update and a set. *)
Lemma commit_update_set (r r' : path) (u e : jsobject) (w w' : world) :
  batch_commit [MUpdate r u; MSet r' e] w = (Returns tt, w') ->
  exists before,
    lookup_doc r (db w) = Some before /\
    db w' = set_doc r' (apply_set e) (replace_doc r (apply_update before u) (db w)) /\
    trace w' = trace w ++ [ReqCommit [MUpdate r u; MSet r' e]].
Proof.
  cbn [batch_commit]. unfold send_commit. cbn [apply_mutations apply_mutation].
  destruct (lookup_doc r (db w)) as [before|]; [|discriminate].
  cbn [bind]. intros [= <-]. exists before. repeat split; reflexivity.
Qed.

(** A committed batch of two sets. *)
Lemma commit_set_set (r r' : path) (a e : jsobject) (w w' : world) :
  batch_commit [MSet r a; MSet r' e] w = (Returns tt, w') ->
  db w' = set_doc r' (apply_set e) (set_doc r (apply_set a) (db w)) /\
  trace w' = trace w ++ [ReqCommit [MSet r a; MSet r' e]].
Proof.
  cbn [batch_commit]. unfold send_commit. cbn [apply_mutations apply_mutation bind].
  intros [= <-]. split; reflexivity.
Qed.

(** In a store without two entries for one path, an entry is what a point
    read finds. *)
Lemma lookup_doc_NoDup (p : path) (d : fields) (s : store) :
  well_formed s -> In (p, d) s -> lookup_doc p s = Some d.
Proof.
  unfold well_formed. induction s as [|[q d'] s IH]; simpl; [tauto|].
  intros Hnd [Heq|Hin].
  - injection Heq as -> ->. now rewrite bool_decide_true.
  - apply NoDup_cons in Hnd as [Hq Hnd'].
    destruct (bool_decide_reflect (p = q)) as [->|Hne].
    + exfalso. apply Hq. apply list_elem_of_In.
      change q with (fst (q, d)). now apply in_map.
    + now apply IH.
Qed.

End BatchFacts.

(** * Further properties of the stock service *)
Section StockMovements.
Import JS Firestore StockService Contracts Behaviour.

(** The lookup of the stock record, with the request it sends. *)
Lemma getConsumableStock_run (this : t) (tid officeId consumableId : string) (w : world) :
  tenantId this = Some tid -> is_segment tid = true ->
  getConsumableStock this officeId consumableId w =
    (Returns (option_map (fun d => entity (fst d) (snd d))
                         (stock_record tid officeId consumableId w)),
     with_request (ReqRunQuery ["tenants"; tid; COLLECTIONS.OFFICE_STOCK]
                     [QWhere "office_id" OpEq (FStr officeId);
                      QWhere "consumable_id" OpEq (FStr consumableId)]) w).
Proof.
  intros Htid Hseg.
  unfold getConsumableStock, getStockCollectionRef, stock_record.
  rewrite Htid, (is_segment_nonempty _ Hseg), collection_of_tenant
    by (assumption || reflexivity).
  unfold mbind, lift.
  change (where_ "office_id" OpEq (FStr officeId))
    with (Returns (QWhere "office_id" OpEq (FStr officeId))).
  change (where_ "consumable_id" OpEq (FStr consumableId))
    with (Returns (QWhere "consumable_id" OpEq (FStr consumableId))).
  cbn [bind]. erewrite getDocs_accepted by reflexivity.
  destruct (run_query _ _ (db w)) as [|d rest]; reflexivity.
Qed.

(** The stock record the service finds is a document of the stock
    collection for that office and consumable. *)
Lemma stock_record_In (tid officeId consumableId sid : string) (stock : fields) (w : world) :
  stock_record tid officeId consumableId w = Some (sid, stock) ->
  In (["tenants"; tid; COLLECTIONS.OFFICE_STOCK; sid], stock) (db w).
Proof.
  unfold stock_record. intros H.
  assert (Hin : In (sid, stock)
                   (run_query ["tenants"; tid; COLLECTIONS.OFFICE_STOCK]
                      [QWhere "office_id" OpEq (FStr officeId);
                       QWhere "consumable_id" OpEq (FStr consumableId)] (db w))).
  { destruct (run_query _ _ (db w)) as [|d rest]; [discriminate|].
    injection H as ->. now left. }
  apply run_query_In in Hin as [Hin _]. now apply docs_in_In in Hin.
Qed.

Lemma stock_record_lookup (tid officeId consumableId sid : string) (stock : fields)
    (w : world) :
  well_formed (db w) ->
  stock_record tid officeId consumableId w = Some (sid, stock) ->
  lookup_doc ["tenants"; tid; COLLECTIONS.OFFICE_STOCK; sid] (db w) = Some stock.
Proof.
  intros Hwf H. apply lookup_doc_NoDup; [assumption|]. eapply stock_record_In, H.
Qed.

(** The id of a record read back, when the document holds no field [id]
    of its own. *)
Lemma entity_id_plain (sid : string) (stock : fields) :
  stock !! "id" = None -> entity_id (entity sid stock) = Returns sid.
Proof.
  intros Hnoid. unfold entity_id, entity.
  now rewrite lookup_union, Hnoid, lookup_singleton_eq.
Qed.

(** X17. A successful [issue] takes the quantity from the stock record and
    logs it, in one commit. With the record found for the office and the
    consumable holding [b] units, afterwards it holds [b - q], which is not
    negative; its other fields but the two time stamps are as before; and
    the transaction under the next id of the supply is an ['issue'] of [q]
    to the receiver, by the user. *)
Theorem issue_takes_from_stock (this : t) (tid officeId consumableId : string) (q : Z)
    (issuedTo userId : string) (notes : option string) (sid : string) (stock : fields)
    (b : Z) (w w' : world) :
  tenantId this = Some tid -> is_segment tid = true ->
  well_formed (db w) ->
  stock_record tid officeId consumableId w = Some (sid, stock) ->
  is_segment sid = true -> stock !! "id" = None ->
  stock !! "quantity" = Some (FNum b) ->
  issue this officeId consumableId q issuedTo userId notes w = (Returns tt, w') ->
  let stockRef := ["tenants"; tid; COLLECTIONS.OFFICE_STOCK; sid] in
  let transactionRef := ["tenants"; tid; COLLECTIONS.STOCK_TRANSACTIONS;
                         auto_ids w (next_id w)] in
  exists after transaction u e,
    lookup_doc stockRef (db w') = Some after /\
    after !! "quantity" = Some (FNum (b - q)) /\ 0 <= b - q /\
    (forall k, k <> "quantity" -> k <> "last_issued" -> k <> "updated_at" ->
       after !! k = stock !! k) /\
    lookup_doc transactionRef (db w') = Some transaction /\
    transaction !! "type" = Some (FStr "issue") /\
    transaction !! "quantity" = Some (FNum q) /\
    transaction !! "office_id" = Some (FStr officeId) /\
    transaction !! "consumable_id" = Some (FStr consumableId) /\
    transaction !! "issued_to" = Some (FStr issuedTo) /\
    transaction !! "created_by" = Some (FStr userId) /\
    last (trace w') = Some (ReqCommit [MUpdate stockRef u; MSet transactionRef e]).
Proof.
  intros Htid Hseg Hwf Hrec Hsid Hnoid Hb H. cbv zeta.
  unfold issue in H. rewrite Htid, (is_segment_nonempty _ Hseg) in H.
  apply mbind_Returns in H as (es & w1 & Hget & H).
  rewrite (getConsumableStock_run this tid) in Hget by assumption.
  injection Hget as <- <-. rewrite Hrec in H. cbn [option_map fst snd] in H.
  apply mbind_Returns in H as (existing & w1 & Hreq & H).
  apply lift_Returns in Hreq as [Hreq ->].
  unfold require_stock in Hreq. rewrite entity_lookup, Hb in Hreq by discriminate.
  cbn [lt_number bind] in Hreq.
  destruct (Z.ltb_spec b q) as [Hlt|Hge]; [discriminate|]. injection Hreq as <-.
  apply mbind_Returns in H as (now & w1 & Hnow & H). injection Hnow as <- <-.
  unfold getStockCollectionRef, getTransactionCollectionRef in H.
  rewrite Htid, (is_segment_nonempty _ Hseg), !collection_of_tenant in H
    by (assumption || reflexivity).
  apply mbind_Returns in H as (coll & w1 & Hc & H).
  apply lift_Returns in Hc as [[= <-] ->].
  apply mbind_Returns in H as (stockId & w1 & Hid & H).
  apply lift_Returns in Hid as [Hid ->].
  rewrite (entity_id_plain _ _ Hnoid) in Hid. injection Hid as <-.
  apply mbind_Returns in H as (stockRef & w1 & Href & H).
  apply lift_Returns in Href as [Href ->].
  rewrite doc_in_collection in Href by assumption. injection Href as <-.
  apply mbind_Returns in H as (batch1 & w1 & Hb1 & H).
  apply batch_update_Returns in Hb1 as (-> & u & -> & Hu).
  apply mbind_Returns in H as (tcoll & w1 & Htc & H).
  apply lift_Returns in Htc as [[= <-] ->].
  apply mbind_Returns in H as (transactionRef & w1 & Htr & H).
  apply doc_auto_Returns in Htr as (Hauto & Htr & ->).
  cbn [auto_ids next_id with_request tick] in Hauto, Htr.
  rewrite doc_in_collection in Htr by assumption. injection Htr as <-.
  apply mbind_Returns in H as (batch2 & w1 & Hb2 & H).
  apply batch_set_Returns in Hb2 as (-> & e & -> & He).
  cbn [app] in H. apply commit_update_set in H as (before & Hbefore & Hdb & Htrace).
  cbn [db take_id with_request tick] in Hbefore, Hdb.
  pose proof (stock_record_lookup _ _ _ _ _ _ Hwf Hrec) as Hlk.
  rewrite Hlk in Hbefore. injection Hbefore as <-.
  set (stockRef := ["tenants"; tid; COLLECTIONS.OFFICE_STOCK; sid]) in *.
  set (transactionRef := ["tenants"; tid; COLLECTIONS.STOCK_TRANSACTIONS;
                          auto_ids w (next_id w)]) in *.
  assert (Hdiff : stockRef <> transactionRef) by (intros [= ]; discriminate).
  exists (apply_update stock u), (apply_set e), u, e.
  rewrite Hdb, Htrace, !lookup_doc_set, !lookup_doc_replace, Hlk.
  rewrite (bool_decide_false _ Hdiff), !bool_decide_true by reflexivity.
  rewrite Hu, He, !apply_update_lookup, !apply_set_lookup.
  split; [reflexivity|]. split.
  { change (list_to_map _ !! "quantity") with (Some (WIncrement (- q))).
    rewrite Hb. reflexivity. }
  split; [lia|]. split.
  { intros k Hk1 Hk2 Hk3. rewrite apply_update_lookup.
    cbn [list_to_map foldr uncurry fst snd].
    now rewrite !lookup_insert_ne, lookup_empty by congruence. }
  split; [reflexivity|].
  repeat (split; [vm_compute; reflexivity|]).
  apply last_snoc.
Qed.

Lemma issue_takes_from_stock_witness :
  tenantId (Instance (Some "t1")) = Some "t1" /\
  well_formed (db stock_world) /\
  stock_record "t1" "o1" "c1" stock_world =
    Some ("s1", list_to_map [ ("office_id", FStr "o1"); ("consumable_id", FStr "c1");
                              ("quantity", FNum 5) ]) /\
  exists w' after,
    issue (Instance (Some "t1")) "o1" "c1" 3 "bob" "alice" (Some "toner") stock_world
      = (Returns tt, w') /\
    lookup_doc ["tenants"; "t1"; "office_stock"; "s1"] (db w') = Some after /\
    after !! "quantity" = Some (FNum 2).
Proof.
  assert (Hwf : well_formed (db stock_world)).
  { unfold well_formed. simpl. constructor; [apply not_elem_of_nil|constructor]. }
  assert (Hrec : stock_record "t1" "o1" "c1" stock_world =
    Some ("s1", list_to_map [ ("office_id", FStr "o1"); ("consumable_id", FStr "c1");
                              ("quantity", FNum 5) ])) by (vm_compute; reflexivity).
  set (run := issue (Instance (Some "t1")) "o1" "c1" 3 "bob" "alice" (Some "toner")
                stock_world).
  assert (Hrun : run = (Returns tt, snd run)) by (vm_compute; reflexivity).
  split; [reflexivity|]. split; [exact Hwf|]. split; [exact Hrec|].
  destruct (issue_takes_from_stock (Instance (Some "t1")) "t1" "o1" "c1" 3 "bob" "alice"
              (Some "toner") "s1" _ 5 stock_world (snd run)
              eq_refl eq_refl Hwf Hrec eq_refl eq_refl eq_refl Hrun)
    as (after & _ & _ & _ & Hafter & Hq & _).
  exists (snd run), after. split; [exact Hrun|]. split; [exact Hafter|exact Hq].
Defined.

(** X18. A successful [restock] adds the quantity, in one commit with its
    transaction, whatever the sign of the quantity. When the service finds
    a record for the office and the consumable holding [b] units,
    afterwards it holds [b + q] and its other fields but the two time
    stamps are as before; when it finds none, the document under the next
    id of the supply becomes the record for the office and the consumable,
    with [q] units. The transaction is a ['restock'] of [q] by the user. *)
Theorem restock_adds_to_stock (this : t) (tid officeId consumableId : string) (q : Z)
    (userId : string) (notes : option string) (w w' : world) :
  tenantId this = Some tid -> is_segment tid = true ->
  well_formed (db w) ->
  restock this officeId consumableId q userId notes w = (Returns tt, w') ->
  (forall sid stock b,
     stock_record tid officeId consumableId w = Some (sid, stock) ->
     is_segment sid = true -> stock !! "id" = None ->
     stock !! "quantity" = Some (FNum b) ->
     exists after transaction,
       lookup_doc ["tenants"; tid; COLLECTIONS.OFFICE_STOCK; sid] (db w') = Some after /\
       after !! "quantity" = Some (FNum (b + q)) /\
       (forall k, k <> "quantity" -> k <> "last_restocked" -> k <> "updated_at" ->
          after !! k = stock !! k) /\
       lookup_doc ["tenants"; tid; COLLECTIONS.STOCK_TRANSACTIONS; auto_ids w (next_id w)]
         (db w') = Some transaction /\
       transaction !! "type" = Some (FStr "restock") /\
       transaction !! "quantity" = Some (FNum q) /\
       transaction !! "created_by" = Some (FStr userId)) /\
  (stock_record tid officeId consumableId w = None ->
   exists created transaction,
     lookup_doc ["tenants"; tid; COLLECTIONS.OFFICE_STOCK; auto_ids w (next_id w)] (db w')
       = Some created /\
     created !! "quantity" = Some (FNum q) /\
     created !! "office_id" = Some (FStr officeId) /\
     created !! "consumable_id" = Some (FStr consumableId) /\
     created !! "tenant_id" = Some (FStr tid) /\
     lookup_doc ["tenants"; tid; COLLECTIONS.STOCK_TRANSACTIONS; auto_ids w (S (next_id w))]
       (db w') = Some transaction /\
     transaction !! "type" = Some (FStr "restock") /\
     transaction !! "quantity" = Some (FNum q) /\
     transaction !! "created_by" = Some (FStr userId)).
Proof.
  intros Htid Hseg Hwf H.
  unfold restock in H. rewrite Htid, (is_segment_nonempty _ Hseg) in H.
  apply mbind_Returns in H as (now & w1 & Hnow & H). injection Hnow as <- <-.
  apply mbind_Returns in H as (es & w1 & Hget & H).
  rewrite (getConsumableStock_run this tid) in Hget by assumption.
  injection Hget as <- <-.
  unfold getStockCollectionRef, getTransactionCollectionRef in H.
  rewrite Htid, (is_segment_nonempty _ Hseg), !collection_of_tenant in H
    by (assumption || reflexivity).
  change (stock_record tid officeId consumableId (tick w))
    with (stock_record tid officeId consumableId w) in H.
  split.
  - intros sid stock b Hrec Hsid Hnoid Hb. rewrite Hrec in H.
    cbn [option_map fst snd] in H.
    apply mbind_Returns in H as (batch1 & w1 & Hb1 & H).
    apply mbind_Returns in Hb1 as (coll & w2 & Hc & Hb1).
    apply lift_Returns in Hc as [[= <-] ->].
    apply mbind_Returns in Hb1 as (stockId & w2 & Hid & Hb1).
    apply lift_Returns in Hid as [Hid ->].
    rewrite (entity_id_plain _ _ Hnoid) in Hid. injection Hid as <-.
    apply mbind_Returns in Hb1 as (stockRef & w2 & Href & Hb1).
    apply lift_Returns in Href as [Href ->].
    rewrite doc_in_collection in Href by assumption. injection Href as <-.
    apply batch_update_Returns in Hb1 as (-> & u & -> & Hu).
    apply mbind_Returns in H as (tcoll & w1 & Htc & H).
    apply lift_Returns in Htc as [[= <-] ->].
    apply mbind_Returns in H as (transactionRef & w1 & Htr & H).
    apply doc_auto_Returns in Htr as (Hauto & Htr & ->).
    cbn [auto_ids next_id with_request tick] in Hauto, Htr.
    rewrite doc_in_collection in Htr by assumption. injection Htr as <-.
    apply mbind_Returns in H as (batch2 & w1 & Hb2 & H).
    apply batch_set_Returns in Hb2 as (-> & e & -> & He).
    cbn [app] in H. apply commit_update_set in H as (before & Hbefore & Hdb & _).
    cbn [db take_id with_request tick] in Hbefore, Hdb.
    pose proof (stock_record_lookup _ _ _ _ _ _ Hwf Hrec) as Hlk.
    rewrite Hlk in Hbefore. injection Hbefore as <-.
    assert (Hdiff : ["tenants"; tid; COLLECTIONS.OFFICE_STOCK; sid] <>
                    ["tenants"; tid; COLLECTIONS.STOCK_TRANSACTIONS; auto_ids w (next_id w)])
      by (intros [= ]; discriminate).
    exists (apply_update stock u), (apply_set e).
    rewrite Hdb, !lookup_doc_set, !lookup_doc_replace, Hlk.
    rewrite (bool_decide_false _ Hdiff), !bool_decide_true by reflexivity.
    rewrite Hu, He, !apply_update_lookup, !apply_set_lookup.
    split; [reflexivity|]. split.
    { change (list_to_map _ !! "quantity") with (Some (WIncrement q)).
      rewrite Hb. reflexivity. }
    split.
    { intros k Hk1 Hk2 Hk3. rewrite apply_update_lookup.
      cbn [list_to_map foldr uncurry fst snd].
      now rewrite !lookup_insert_ne, lookup_empty by congruence. }
    split; [reflexivity|].
    repeat split; vm_compute; reflexivity.
  - intros Hrec. rewrite Hrec in H. cbn [option_map] in H.
    apply mbind_Returns in H as (batch1 & w1 & Hb1 & H).
    apply mbind_Returns in Hb1 as (coll & w2 & Hc & Hb1).
    apply lift_Returns in Hc as [[= <-] ->].
    apply mbind_Returns in Hb1 as (stockRef & w2 & Href & Hb1).
    apply doc_auto_Returns in Href as (Hauto & Href & ->).
    cbn [auto_ids next_id with_request tick] in Hauto, Href.
    rewrite doc_in_collection in Href by assumption. injection Href as <-.
    apply batch_set_Returns in Hb1 as (-> & c & -> & Hc).
    apply mbind_Returns in H as (tcoll & w1 & Htc & H).
    apply lift_Returns in Htc as [[= <-] ->].
    apply mbind_Returns in H as (transactionRef & w1 & Htr & H).
    apply doc_auto_Returns in Htr as (Hauto' & Htr & ->).
    cbn [auto_ids next_id with_request tick take_id] in Hauto', Htr.
    rewrite doc_in_collection in Htr by assumption. injection Htr as <-.
    apply mbind_Returns in H as (batch2 & w1 & Hb2 & H).
    apply batch_set_Returns in Hb2 as (-> & e & -> & He).
    cbn [app] in H. apply commit_set_set in H as (Hdb & _).
    cbn [db take_id with_request tick] in Hdb.
    assert (Hdiff : ["tenants"; tid; COLLECTIONS.OFFICE_STOCK; auto_ids w (next_id w)] <>
                    ["tenants"; tid; COLLECTIONS.STOCK_TRANSACTIONS;
                     auto_ids w (S (next_id w))])
      by (intros [= ]; discriminate).
    exists (apply_set c), (apply_set e).
    rewrite Hdb, !lookup_doc_set.
    rewrite (bool_decide_false _ Hdiff), !bool_decide_true by reflexivity.
    rewrite Hc, He, !apply_set_lookup.
    repeat split; vm_compute; reflexivity.
Qed.

Lemma restock_adds_to_stock_witness :
  tenantId (Instance (Some "t1")) = Some "t1" /\
  well_formed (db stock_world) /\
  stock_record "t1" "o2" "c1" stock_world = None /\
  exists w' created,
    restock (Instance (Some "t1")) "o2" "c1" (-4) "alice" (Some "return") stock_world
      = (Returns tt, w') /\
    lookup_doc ["tenants"; "t1"; "office_stock"; "id0"] (db w') = Some created /\
    created !! "quantity" = Some (FNum (-4)).
Proof.
  assert (Hwf : well_formed (db stock_world)).
  { unfold well_formed. simpl. constructor; [apply not_elem_of_nil|constructor]. }
  assert (Hrec : stock_record "t1" "o2" "c1" stock_world = None) by (vm_compute; reflexivity).
  set (run := restock (Instance (Some "t1")) "o2" "c1" (-4) "alice" (Some "return")
                stock_world).
  assert (Hrun : run = (Returns tt, snd run)) by (vm_compute; reflexivity).
  split; [reflexivity|]. split; [exact Hwf|]. split; [exact Hrec|].
  destruct (proj2 (restock_adds_to_stock (Instance (Some "t1")) "t1" "o2" "c1" (-4) "alice"
                     (Some "return") stock_world (snd run) eq_refl eq_refl Hwf Hrun) Hrec)
    as (created & _ & Hcreated & Hq & _).
  exists (snd run), created. split; [exact Hrun|]. split; [exact Hcreated|exact Hq].
Defined.

(** X19. A successful [adjust] sets the quantity and logs the difference,
    in one commit, for quantities that are safe integers with a safe
    difference (beyond them the runtime rounds the difference). When the
    service finds a record holding [b] units, afterwards it holds the new
    quantity and the ['adjustment'] transaction carries the new quantity
    less [b], so that the old quantity and the logged difference add up to
    the new one; when it finds none, the document under the next id of the
    supply becomes the record, with the new quantity, and the transaction
    carries the new quantity. *)
Theorem adjust_sets_stock (this : t) (tid officeId consumableId : string) (newQuantity : Z)
    (userId reason : string) (w w' : world) :
  tenantId this = Some tid -> is_segment tid = true ->
  well_formed (db w) ->
  adjust this officeId consumableId newQuantity userId reason w = (Returns tt, w') ->
  (forall sid stock b,
     stock_record tid officeId consumableId w = Some (sid, stock) ->
     is_segment sid = true -> stock !! "id" = None ->
     stock !! "quantity" = Some (FNum b) ->
     isSafeInteger b = true -> isSafeInteger newQuantity = true ->
     isSafeInteger (newQuantity - b) = true ->
     exists after transaction difference,
       lookup_doc ["tenants"; tid; COLLECTIONS.OFFICE_STOCK; sid] (db w') = Some after /\
       after !! "quantity" = Some (FNum newQuantity) /\
       (forall k, k <> "quantity" -> k <> "updated_at" -> after !! k = stock !! k) /\
       lookup_doc ["tenants"; tid; COLLECTIONS.STOCK_TRANSACTIONS; auto_ids w (next_id w)]
         (db w') = Some transaction /\
       transaction !! "type" = Some (FStr "adjustment") /\
       transaction !! "quantity" = Some (FNum difference) /\
       b + difference = newQuantity /\
       transaction !! "created_by" = Some (FStr userId)) /\
  (stock_record tid officeId consumableId w = None ->
   isSafeInteger newQuantity = true ->
   exists created transaction,
     lookup_doc ["tenants"; tid; COLLECTIONS.OFFICE_STOCK; auto_ids w (next_id w)] (db w')
       = Some created /\
     created !! "quantity" = Some (FNum newQuantity) /\
     created !! "office_id" = Some (FStr officeId) /\
     created !! "consumable_id" = Some (FStr consumableId) /\
     lookup_doc ["tenants"; tid; COLLECTIONS.STOCK_TRANSACTIONS; auto_ids w (S (next_id w))]
       (db w') = Some transaction /\
     transaction !! "type" = Some (FStr "adjustment") /\
     transaction !! "quantity" = Some (FNum newQuantity)).
Proof.
  intros Htid Hseg Hwf H.
  unfold adjust in H. rewrite Htid, (is_segment_nonempty _ Hseg) in H.
  apply mbind_Returns in H as (es & w1 & Hget & H).
  rewrite (getConsumableStock_run this tid) in Hget by assumption.
  injection Hget as <- <-.
  unfold getStockCollectionRef, getTransactionCollectionRef in H.
  rewrite Htid, (is_segment_nonempty _ Hseg), !collection_of_tenant in H
    by (assumption || reflexivity).
  split.
  - intros sid stock b Hrec Hsid Hnoid Hb _ _ _. rewrite Hrec in H.
    cbn [option_map fst snd] in H.
    apply mbind_Returns in H as (oldQuantity & w1 & Hold & H).
    apply lift_Returns in Hold as [Hold ->].
    unfold quantity_or_zero in Hold. rewrite entity_lookup, Hb in Hold by discriminate.
    injection Hold as <-.
    apply mbind_Returns in H as (difference & w1 & Hsub & H).
    apply lift_Returns in Hsub as [Hsub ->]. apply number_sub_Returns in Hsub as ->.
    apply mbind_Returns in H as (now & w1 & Hnow & H). injection Hnow as <- <-.
    apply mbind_Returns in H as (batch1 & w1 & Hb1 & H).
    apply mbind_Returns in Hb1 as (coll & w2 & Hc & Hb1).
    apply lift_Returns in Hc as [[= <-] ->].
    apply mbind_Returns in Hb1 as (stockId & w2 & Hid & Hb1).
    apply lift_Returns in Hid as [Hid ->].
    rewrite (entity_id_plain _ _ Hnoid) in Hid. injection Hid as <-.
    apply mbind_Returns in Hb1 as (stockRef & w2 & Href & Hb1).
    apply lift_Returns in Href as [Href ->].
    rewrite doc_in_collection in Href by assumption. injection Href as <-.
    apply batch_update_Returns in Hb1 as (-> & u & -> & Hu).
    apply mbind_Returns in H as (tcoll & w1 & Htc & H).
    apply lift_Returns in Htc as [[= <-] ->].
    apply mbind_Returns in H as (transactionRef & w1 & Htr & H).
    apply doc_auto_Returns in Htr as (Hauto & Htr & ->).
    cbn [auto_ids next_id with_request tick] in Hauto, Htr.
    rewrite doc_in_collection in Htr by assumption. injection Htr as <-.
    apply mbind_Returns in H as (old & w1 & Hs1 & H). apply lift_Returns in Hs1 as [_ ->].
    apply mbind_Returns in H as (new & w1 & Hs2 & H). apply lift_Returns in Hs2 as [_ ->].
    apply mbind_Returns in H as (batch2 & w1 & Hb2 & H).
    apply batch_set_Returns in Hb2 as (-> & e & -> & He).
    cbn [app] in H. apply commit_update_set in H as (before & Hbefore & Hdb & _).
    cbn [db take_id with_request tick] in Hbefore, Hdb.
    pose proof (stock_record_lookup _ _ _ _ _ _ Hwf Hrec) as Hlk.
    rewrite Hlk in Hbefore. injection Hbefore as <-.
    assert (Hdiff : ["tenants"; tid; COLLECTIONS.OFFICE_STOCK; sid] <>
                    ["tenants"; tid; COLLECTIONS.STOCK_TRANSACTIONS; auto_ids w (next_id w)])
      by (intros [= ]; discriminate).
    exists (apply_update stock u), (apply_set e), (newQuantity - b).
    rewrite Hdb, !lookup_doc_set, !lookup_doc_replace, Hlk.
    rewrite (bool_decide_false _ Hdiff), !bool_decide_true by reflexivity.
    rewrite Hu, He, !apply_update_lookup, !apply_set_lookup.
    split; [reflexivity|]. split; [reflexivity|]. split.
    { intros k Hk1 Hk2. rewrite apply_update_lookup.
      cbn [list_to_map foldr uncurry fst snd].
      now rewrite !lookup_insert_ne, lookup_empty by congruence. }
    split; [reflexivity|]. split; [reflexivity|]. split; [reflexivity|].
    split; [lia|reflexivity].
  - intros Hrec _. rewrite Hrec in H. cbn [option_map] in H.
    apply mbind_Returns in H as (oldQuantity & w1 & Hold & H).
    apply lift_Returns in Hold as [[= <-] ->].
    apply mbind_Returns in H as (difference & w1 & Hsub & H).
    apply lift_Returns in Hsub as [Hsub ->]. apply number_sub_Returns in Hsub as ->.
    apply mbind_Returns in H as (now & w1 & Hnow & H). injection Hnow as <- <-.
    apply mbind_Returns in H as (batch1 & w1 & Hb1 & H).
    apply mbind_Returns in Hb1 as (coll & w2 & Hc & Hb1).
    apply lift_Returns in Hc as [[= <-] ->].
    apply mbind_Returns in Hb1 as (stockRef & w2 & Href & Hb1).
    apply doc_auto_Returns in Href as (Hauto & Href & ->).
    cbn [auto_ids next_id with_request tick] in Hauto, Href.
    rewrite doc_in_collection in Href by assumption. injection Href as <-.
    apply batch_set_Returns in Hb1 as (-> & c & -> & Hc).
    apply mbind_Returns in H as (tcoll & w1 & Htc & H).
    apply lift_Returns in Htc as [[= <-] ->].
    apply mbind_Returns in H as (transactionRef & w1 & Htr & H).
    apply doc_auto_Returns in Htr as (Hauto' & Htr & ->).
    cbn [auto_ids next_id with_request tick take_id] in Hauto', Htr.
    rewrite doc_in_collection in Htr by assumption. injection Htr as <-.
    apply mbind_Returns in H as (old & w1 & Hs1 & H). apply lift_Returns in Hs1 as [_ ->].
    apply mbind_Returns in H as (new & w1 & Hs2 & H). apply lift_Returns in Hs2 as [_ ->].
    apply mbind_Returns in H as (batch2 & w1 & Hb2 & H).
    apply batch_set_Returns in Hb2 as (-> & e & -> & He).
    cbn [app] in H. apply commit_set_set in H as (Hdb & _).
    cbn [db take_id with_request tick] in Hdb.
    assert (Hdiff : ["tenants"; tid; COLLECTIONS.OFFICE_STOCK; auto_ids w (next_id w)] <>
                    ["tenants"; tid; COLLECTIONS.STOCK_TRANSACTIONS;
                     auto_ids w (S (next_id w))])
      by (intros [= ]; discriminate).
    exists (apply_set c), (apply_set e).
    rewrite Hdb, !lookup_doc_set.
    rewrite (bool_decide_false _ Hdiff), !bool_decide_true by reflexivity.
    rewrite Hc, He, !apply_set_lookup.
    split; [reflexivity|]. split; [reflexivity|]. split; [reflexivity|].
    split; [reflexivity|]. split; [reflexivity|]. split; [reflexivity|].
    change (list_to_map _ !! "quantity") with (Some (WVal (FNum (newQuantity - 0)))).
    cbn [apply_field]. now rewrite Z.sub_0_r.
Qed.

Lemma adjust_sets_stock_witness :
  tenantId (Instance (Some "t1")) = Some "t1" /\
  well_formed (db stock_world) /\
  exists w' after transaction,
    adjust (Instance (Some "t1")) "o1" "c1" 8 "alice" "count" stock_world
      = (Returns tt, w') /\
    lookup_doc ["tenants"; "t1"; "office_stock"; "s1"] (db w') = Some after /\
    after !! "quantity" = Some (FNum 8) /\
    lookup_doc ["tenants"; "t1"; "stock_transactions"; "id0"] (db w') = Some transaction /\
    transaction !! "quantity" = Some (FNum 3).
Proof.
  assert (Hwf : well_formed (db stock_world)).
  { unfold well_formed. simpl. constructor; [apply not_elem_of_nil|constructor]. }
  assert (Hrec : stock_record "t1" "o1" "c1" stock_world =
    Some ("s1", list_to_map [ ("office_id", FStr "o1"); ("consumable_id", FStr "c1");
                              ("quantity", FNum 5) ])) by (vm_compute; reflexivity).
  set (run := adjust (Instance (Some "t1")) "o1" "c1" 8 "alice" "count" stock_world).
  assert (Hrun : run = (Returns tt, snd run)) by (vm_compute; reflexivity).
  split; [reflexivity|]. split; [exact Hwf|].
  destruct (proj1 (adjust_sets_stock (Instance (Some "t1")) "t1" "o1" "c1" 8 "alice" "count"
                     stock_world (snd run) eq_refl eq_refl Hwf Hrun)
                  "s1" _ 5 Hrec eq_refl eq_refl eq_refl eq_refl eq_refl eq_refl)
    as (after & transaction & difference & Hafter & Hq & _ & Htx & _ & Hd & Hsum & _).
  exists (snd run), after, transaction.
  split; [exact Hrun|]. split; [exact Hafter|]. split; [exact Hq|]. split; [exact Htx|].
  rewrite Hd. do 2 f_equal. lia.
Defined.

(** An equality filter on a string is passed by that string only. *)
Lemma where_eq_str (x : fval) (s : string) :
  where_matches OpEq x (FStr s) = true -> x = FStr s.
Proof.
  unfold where_matches. destruct x; cbn [type_order Z.eqb andb]; try discriminate.
  cbn [fval_compare]. destruct (String.compare s0 s) eqn:Hc; try discriminate.
  intros _. apply String.compare_eq_iff in Hc. now subst.
Qed.

(** The length of a slice from the start. *)
Lemma slice_0_length {A : Type} (stop : Z) (l : list A) :
  0 <= stop -> (length (slice 0 stop l) <= Z.to_nat stop)%nat.
Proof.
  intros Hstop. unfold slice, clamp_index. cbn [Z.ltb Z.compare].
  rewrite (proj2 (Z.ltb_ge stop 0)) by lia.
  rewrite length_take. lia.
Qed.

(** X20. [getTransactions] on a bound instance answers with transactions of
    the office only, most recently created first, and with at most
    [limit_count] of them (50 when no count is given) for a count that is
    not negative; it leaves the store as it was. *)
Theorem getTransactions_recent (this : t) (tid officeId : string) (limit_count : option Z)
    (w : world) :
  tenantId this = Some tid -> is_segment tid = true ->
  exists transactions w',
    getTransactions this officeId limit_count w = (Returns transactions, w') /\
    Forall (fun e : fields => e !! "office_id" = Some (FStr officeId)) transactions /\
    newest_first transactions = true /\
    (0 <= default 50 limit_count ->
     (length transactions <= Z.to_nat (default 50%Z limit_count))%nat) /\
    db w' = db w.
Proof.
  intros Htid Hseg. unfold getTransactions, getTransactionCollectionRef.
  rewrite Htid, (is_segment_nonempty _ Hseg), collection_of_tenant
    by (assumption || reflexivity).
  change (where_ "office_id" OpEq (FStr officeId))
    with (Returns (QWhere "office_id" OpEq (FStr officeId))).
  change (orderBy "created_at" desc) with (Returns (QOrderBy "created_at" desc)).
  unfold mbind, lift, ret. cbn [bind]. erewrite getDocs_accepted by reflexivity.
  eexists _, _. split; [reflexivity|]. split; [|split; [|split; [|reflexivity]]].
  - apply Forall_forall. intros e He. apply list_elem_of_In in He.
    apply in_map_iff in He as (d & <- & Hd).
    destruct (slice_0_take (default 50 limit_count)
                (run_query ["tenants"; tid; COLLECTIONS.STOCK_TRANSACTIONS]
                   [QWhere "office_id" OpEq (FStr officeId); QOrderBy "created_at" desc]
                   (db w))) as [n Hn].
    rewrite Hn in Hd. apply In_take in Hd. apply run_query_In in Hd as [_ Hm].
    cbn [forallb matches] in Hm. apply andb_prop in Hm as [Hm _].
    rewrite entity_lookup by discriminate.
    destruct (snd d !! "office_id") as [x|]; [|discriminate].
    now rewrite (where_eq_str _ _ Hm).
  - match goal with
    | |- context [slice 0 ?stop ?l] => destruct (slice_0_take stop l) as [n ->]
    end.
    now apply (run_query_newest_first _ _ _ []).
  - intros Hlim. rewrite length_map. now apply slice_0_length.
Qed.

Lemma getTransactions_recent_witness :
  tenantId (Instance (Some "t1")) = Some "t1" /\ is_segment "t1" = true /\
  exists transactions w',
    getTransactions (Instance (Some "t1")) "o1" (Some 5) transactions_world
      = (Returns transactions, w') /\
    map (fun e : fields => e !! "id") transactions = [Some (FStr "x3"); Some (FStr "x1")] /\
    Forall (fun e : fields => e !! "office_id" = Some (FStr "o1")) transactions /\
    newest_first transactions = true.
Proof.
  split; [reflexivity|]. split; [reflexivity|].
  destruct (getTransactions_recent (Instance (Some "t1")) "t1" "o1" (Some 5)
              transactions_world eq_refl eq_refl)
    as (transactions & w' & Hrun & Hall & Hnew & _).
  exists transactions, w'. split; [exact Hrun|]. split; [|split; [exact Hall|exact Hnew]].
  assert (Hids : match fst (getTransactions (Instance (Some "t1")) "o1" (Some 5)
                              transactions_world) with
                 | Returns l => map (fun e : fields => e !! "id") l
                 | _ => []
                 end = [Some (FStr "x3"); Some (FStr "x1")]) by (vm_compute; reflexivity).
  rewrite Hrun in Hids. exact Hids.
Defined.

End StockMovements.

Ltac all_defined :=
  let k := fresh "k" in
  intros k; cbn [list_to_map foldr uncurry fst snd];
  repeat match goal with
  | |- <[?i := _]> _ !! k <> _ =>
      destruct (decide (k = i)) as [->|];
      [rewrite lookup_insert_eq; discriminate|rewrite lookup_insert_ne by congruence]
  end;
  rewrite lookup_empty; discriminate.

(** * Further properties of the asset service *)
Section AssetLifecycle.
Import JS Firestore AssetService Contracts Behaviour.

(** The tail the operations on one asset share: an update of the asset and
    a new event under it, committed together. *)
Lemma update_with_event (tid assetId : string) (U E : jsobject) (w w' : world) :
  is_segment tid = true -> is_segment assetId = true ->
  (let! assetRef := lift (doc [] ["tenants"; tid; COLLECTIONS.ASSETS; assetId]) in
   let! batch := batch_update writeBatch assetRef U in
   let! events := lift (collection assetRef [COLLECTIONS.ASSET_EVENTS]) in
   let! eventRef := doc_auto events in
   let! batch := batch_set batch eventRef E in
   batch_commit batch) w = (Returns tt, w') ->
  exists before,
    lookup_doc (asset_ref tid assetId) (db w) = Some before /\
    lookup_doc (asset_ref tid assetId) (db w') = Some (apply_update before U) /\
    lookup_doc (next_event_ref tid assetId w) (db w') = Some (apply_set E) /\
    exists u e, trace w' = trace w ++
      [ReqCommit [MUpdate (asset_ref tid assetId) u; MSet (next_event_ref tid assetId w) e]].
Proof.
  intros Hseg Hid H. unfold next_event_ref.
  assert (Hsegs : forallb is_segment ["tenants"; tid; COLLECTIONS.ASSETS; assetId] = true).
  { cbn [forallb]. now rewrite Hseg, Hid. }
  apply mbind_Returns in H as (assetRef & w1 & Href & H).
  apply lift_Returns in Href as [Href ->].
  rewrite (doc_segments _ _ _ Hsegs) in Href.
  injection Href as <-. fold (asset_ref tid assetId) in H.
  apply mbind_Returns in H as (batch1 & w1 & Hb1 & H).
  apply batch_update_Returns in Hb1 as (-> & u & -> & Hu).
  apply mbind_Returns in H as (events & w1 & Hev & H).
  apply lift_Returns in Hev as [Hev ->].
  rewrite collection_segments in Hev by reflexivity.
  injection Hev as <-.
  apply mbind_Returns in H as (eventRef & w1 & Heref & H).
  apply doc_auto_Returns in Heref as (Hauto & Heref & ->).
  unfold doc_in in Heref.
  rewrite doc_segments in Heref by (cbn [forallb]; now rewrite Hauto).
  injection Heref as <-.
  apply mbind_Returns in H as (batch2 & w1 & Hb2 & H).
  apply batch_set_Returns in Hb2 as (-> & e & -> & He).
  cbn [app] in H. apply commit_update_set in H as (before & Hbefore & Hdb & Htrace).
  cbn [db take_id trace] in Hbefore, Hdb, Htrace.
  set (eventRef := asset_ref tid assetId ++ [COLLECTIONS.ASSET_EVENTS; auto_ids w (next_id w)])
    in *.
  assert (Hdiff : asset_ref tid assetId <> eventRef).
  { intros Heq. apply (f_equal length) in Heq. discriminate Heq. }
  exists before. rewrite Hdb, !lookup_doc_set, !lookup_doc_replace, Hbefore.
  rewrite (bool_decide_false _ Hdiff), !bool_decide_true by reflexivity.
  cbn [option_map]. rewrite Hu, He.
  split; [reflexivity|]. split; [reflexivity|]. split; [reflexivity|].
  exists u, e. exact Htrace.
Qed.

(** X21. [assignToUser], [unassign] and [transferToOffice] on an asset that
    is not there fail with 'Asset not found' after the one read of the
    asset; nothing is written and no event is recorded. *)
Theorem missing_asset_rejected (tid assetId : string) (w : world) :
  is_segment tid = true -> is_segment assetId = true ->
  lookup_doc (asset_ref tid assetId) (db w) = None ->
  (forall userId assignedBy,
     asset_not_found tid assetId w
       (assignToUser (instance (Some tid)) assetId userId assignedBy w)) /\
  (forall unassignedBy,
     asset_not_found tid assetId w (unassign (instance (Some tid)) assetId unassignedBy w)) /\
  (forall toOfficeId transferredBy notes,
     asset_not_found tid assetId w
       (transferToOffice (instance (Some tid)) assetId toOfficeId transferredBy notes w)).
Proof.
  intros Hseg Hid Hnone. unfold asset_not_found, asset_ref in *.
  unfold assignToUser, unassign, transferToOffice.
  cbn [instance BaseService.tenantId]. rewrite (is_segment_nonempty _ Hseg).
  unfold mbind, Timestamp_now.
  rewrite (getById_bound _ tid) by (assumption || reflexivity).
  cbn [BaseService.collectionName instance db tick]. rewrite Hnone. cbn [option_map].
  repeat split; reflexivity.
Qed.

Lemma missing_asset_rejected_witness :
  is_segment "t1" = true /\ is_segment "a9" = true /\
  lookup_doc (asset_ref "t1" "a9") (db asset_world) = None /\
  asset_not_found "t1" "a9" asset_world
    (assignToUser (instance (Some "t1")) "a9" "carol" "admin" asset_world) /\
  asset_not_found "t1" "a9" asset_world
    (unassign (instance (Some "t1")) "a9" "admin" asset_world).
Proof.
  assert (H : lookup_doc (asset_ref "t1" "a9") (db asset_world) = None) by reflexivity.
  destruct (missing_asset_rejected "t1" "a9" asset_world eq_refl eq_refl H)
    as (Hassign & Hunassign & _).
  split; [reflexivity|]. split; [reflexivity|]. split; [exact H|].
  split; [apply Hassign|apply Hunassign].
Defined.

(** X22. Whenever [assignToUser] succeeds the asset is assigned to the
    user, stamped with the time of the call and ['in_use'], whatever its
    state before (an asset already assigned, or disposed, is reassigned
    alike); the ['assigned'] event names the new user and, as the previous
    one, the asset's [assigned_to] before when that was a non-empty value;
    both writes went out in one batch. *)
Theorem assignToUser_assigns (tid assetId userId assignedBy : string) (w w' : world) :
  is_segment tid = true -> is_segment assetId = true ->
  assignToUser (instance (Some tid)) assetId userId assignedBy w = (Returns tt, w') ->
  exists before after event u e,
    lookup_doc (asset_ref tid assetId) (db w) = Some before /\
    lookup_doc (asset_ref tid assetId) (db w') = Some after /\
    after !! "assigned_to" = Some (FStr userId) /\
    after !! "assigned_at" = Some (FTime (clock w (ticks w))) /\
    after !! "status" = Some (FStr "in_use") /\
    after !! "office_id" = before !! "office_id" /\
    lookup_doc (next_event_ref tid assetId w) (db w') = Some event /\
    event !! "event_type" = Some (FStr "assigned") /\
    event !! "to_user_id" = Some (FStr userId) /\
    event !! "from_user_id" = match before !! "assigned_to" with
                              | Some v => if fval_truthy v then Some v else None
                              | None => None
                              end /\
    last (trace w') = Some (ReqCommit [MUpdate (asset_ref tid assetId) u;
                                       MSet (next_event_ref tid assetId w) e]).
Proof.
  intros Hseg Hid H. unfold assignToUser in H.
  cbn [instance BaseService.tenantId] in H. rewrite (is_segment_nonempty _ Hseg) in H.
  apply mbind_Returns in H as (now & w1 & Hnow & H). injection Hnow as <- <-.
  apply mbind_Returns in H as (asset & w2 & Hget & H).
  rewrite (getById_bound _ tid) in Hget by (assumption || reflexivity).
  injection Hget as <- <-.
  cbn [BaseService.collectionName instance db tick] in H.
  fold (asset_ref tid assetId) in H.
  destruct (lookup_doc (asset_ref tid assetId) (db w)) as [before|] eqn:Hbefore;
    [|discriminate].
  cbn [option_map] in H.
  apply update_with_event in H as (before' & Hb' & Hafter & Hevent & u & e & Htrace);
    try assumption.
  cbn [db with_request tick] in Hb', Hafter, Hevent.
  rewrite Hbefore in Hb'. injection Hb' as <-.
  change (next_event_ref tid assetId (with_request (ReqGetDoc (asset_ref tid assetId)) (tick w)))
    with (next_event_ref tid assetId w) in *.
  match type of Hafter with
  | _ = Some ?a =>
      match type of Hevent with
      | _ = Some ?ev => exists before, a, ev, u, e
      end
  end.
  split; [reflexivity|]. split; [exact Hafter|].
  rewrite !apply_update_lookup, !apply_set_lookup.
  split; [reflexivity|]. split; [reflexivity|]. split; [reflexivity|].
  split; [reflexivity|]. split; [exact Hevent|].
  split; [reflexivity|]. split; [reflexivity|]. split.
  - change (list_to_map _ !! "from_user_id")
      with (Some (or_undefined (entity assetId before !! "assigned_to"))).
    rewrite entity_lookup by discriminate. unfold or_undefined.
    destruct (before !! "assigned_to") as [v|]; [|reflexivity].
    now destruct (fval_truthy v).
  - rewrite Htrace. apply last_snoc.
Qed.

Lemma assignToUser_assigns_witness :
  is_segment "t1" = true /\ is_segment "a1" = true /\
  exists w' after event,
    assignToUser (instance (Some "t1")) "a1" "carol" "admin" asset_world = (Returns tt, w') /\
    lookup_doc (asset_ref "t1" "a1") (db w') = Some after /\
    after !! "assigned_to" = Some (FStr "carol") /\
    after !! "status" = Some (FStr "in_use") /\
    lookup_doc (next_event_ref "t1" "a1" asset_world) (db w') = Some event /\
    event !! "from_user_id" = Some (FStr "bob").
Proof.
  set (run := assignToUser (instance (Some "t1")) "a1" "carol" "admin" asset_world).
  assert (Hrun : run = (Returns tt, snd run)) by (vm_compute; reflexivity).
  split; [reflexivity|]. split; [reflexivity|].
  destruct (assignToUser_assigns "t1" "a1" "carol" "admin" asset_world (snd run)
              eq_refl eq_refl Hrun)
    as (before & after & event & u & e & Hb & Ha & Hto & _ & Hst & _ & He & _ & _ & Hfrom & _).
  exists (snd run), after, event.
  split; [exact Hrun|]. split; [exact Ha|]. split; [exact Hto|]. split; [exact Hst|].
  split; [exact He|]. rewrite Hfrom.
  assert (Hb0 : lookup_doc (asset_ref "t1" "a1") (db asset_world) =
                Some (list_to_map [ ("office_id", FStr "o1"); ("assigned_to", FStr "bob");
                                    ("status", FStr "in_use") ])) by reflexivity.
  rewrite Hb0 in Hb. injection Hb as <-. reflexivity.
Defined.

Lemma mbind_ret {A B : Type} (c : M A) (k : A -> M B) (w w1 : world) (a : A) :
  c w = (Returns a, w1) -> mbind c k w = k a w1.
Proof. intros H. unfold mbind. now rewrite H. Qed.

Lemma mbind_throw {A B : Type} (c : M A) (k : A -> M B) (w w1 : world) (e : exn) :
  c w = (Throws e, w1) -> mbind c k w = (Throws e, w1).
Proof. intros H. unfold mbind. now rewrite H. Qed.

(** The shared tail when the client refuses the event: nothing is sent. *)
Lemma update_with_event_refused (tid assetId : string) (U E : jsobject) (k : string)
    (w : world) :
  is_segment tid = true -> is_segment assetId = true ->
  is_segment (auto_ids w (next_id w)) = true ->
  (forall k, is_Some (U !! k) -> data_key UpdateData k = Returns k) ->
  (forall k, U !! k <> Some WUndefined) ->
  E !! k = Some WUndefined -> ignoreUndefinedProperties w = false ->
  (let! assetRef := lift (doc [] ["tenants"; tid; COLLECTIONS.ASSETS; assetId]) in
   let! batch := batch_update writeBatch assetRef U in
   let! events := lift (collection assetRef [COLLECTIONS.ASSET_EVENTS]) in
   let! eventRef := doc_auto events in
   let! batch := batch_set batch eventRef E in
   batch_commit batch) w = (Throws (FirestoreError "invalid-argument"), take_id w).
Proof.
  intros Hseg Hid Hauto Hplain HU HE Hstrict.
  assert (Hsegs : forallb is_segment ["tenants"; tid; COLLECTIONS.ASSETS; assetId] = true).
  { cbn [forallb]. now rewrite Hseg, Hid. }
  erewrite mbind_ret; [|unfold lift; rewrite (doc_segments _ _ _ Hsegs); reflexivity].
  erewrite mbind_ret;
    [|unfold batch_update; erewrite mbind_ret; [reflexivity|now apply parseData_defined]].
  erewrite mbind_ret; [|unfold lift; rewrite collection_segments by reflexivity; reflexivity].
  erewrite mbind_ret.
  2:{ unfold doc_auto. erewrite mbind_ret; [|unfold autoId; rewrite Hauto; reflexivity].
      unfold lift, doc_in. rewrite doc_segments by (cbn [forallb]; now rewrite Hauto).
      reflexivity. }
  erewrite mbind_throw; [reflexivity|].
  unfold batch_set. erewrite mbind_throw; [reflexivity|].
  now apply (parseData_undefined _ _ k).
Qed.

(** X23. An asset without an assignee cannot be assigned, or unassigned,
    through a client that refuses [undefined]: the event of [assignToUser]
    and of [unassign] holds [from_user_id: undefined] then, the client
    rejects the batch with invalid-argument before anything is sent, and
    the store is as it was. The setting belongs to the client the services
    import from [@/lib/firebase]. *)
Theorem unassigned_asset_needs_lenient_client (tid assetId : string) (before : fields)
    (w : world) :
  is_segment tid = true -> is_segment assetId = true ->
  is_segment (auto_ids w (next_id w)) = true ->
  lookup_doc (asset_ref tid assetId) (db w) = Some before ->
  or_undefined (before !! "assigned_to") = WUndefined ->
  ignoreUndefinedProperties w = false ->
  forall userId by_,
    fst (assignToUser (instance (Some tid)) assetId userId by_ w)
      = Throws (FirestoreError "invalid-argument") /\
    db (snd (assignToUser (instance (Some tid)) assetId userId by_ w)) = db w /\
    fst (unassign (instance (Some tid)) assetId by_ w)
      = Throws (FirestoreError "invalid-argument") /\
    db (snd (unassign (instance (Some tid)) assetId by_ w)) = db w.
Proof.
  intros Hseg Hid Hauto Hbefore Hfree Hstrict userId by_.
  assert (Hget : BaseService.getById (instance (Some tid)) assetId (tick w) =
                 (Returns (Some (entity assetId before)),
                  with_request (ReqGetDoc (asset_ref tid assetId)) (tick w))).
  { rewrite (getById_bound _ tid) by (assumption || reflexivity).
    cbn [BaseService.collectionName instance db tick].
    fold (asset_ref tid assetId). now rewrite Hbefore. }
  assert (Hfrom : or_undefined (entity assetId before !! "assigned_to") = WUndefined)
    by now rewrite entity_lookup.
  unfold assignToUser, unassign.
  cbn [instance BaseService.tenantId]. rewrite (is_segment_nonempty _ Hseg).
  rewrite !(mbind_ret Timestamp_now _ w (tick w) (clock w (ticks w))) by reflexivity.
  rewrite !(mbind_ret _ _ _ _ _ Hget).
  rewrite Hfrom.
  rewrite !(update_with_event_refused tid assetId _ _ "from_user_id");
    try assumption; try reflexivity; try all_defined;
    try (apply plain_keys_list; reflexivity).
  repeat split; reflexivity.
Qed.

Lemma unassigned_asset_needs_lenient_client_witness :
  lookup_doc (asset_ref "t1" "a2") (db free_asset_world) =
    Some (list_to_map [ ("office_id", FStr "o1"); ("assigned_to", FNull);
                        ("status", FStr "available") ]) /\
  ignoreUndefinedProperties free_asset_world = false /\
  fst (assignToUser (instance (Some "t1")) "a2" "carol" "admin" free_asset_world)
    = Throws (FirestoreError "invalid-argument") /\
  db (snd (assignToUser (instance (Some "t1")) "a2" "carol" "admin" free_asset_world))
    = db free_asset_world.
Proof.
  assert (Hb : lookup_doc (asset_ref "t1" "a2") (db free_asset_world) =
    Some (list_to_map [ ("office_id", FStr "o1"); ("assigned_to", FNull);
                        ("status", FStr "available") ])) by reflexivity.
  split; [exact Hb|]. split; [reflexivity|].
  destruct (unassigned_asset_needs_lenient_client "t1" "a2" _ free_asset_world
              eq_refl eq_refl eq_refl Hb eq_refl eq_refl "carol" "admin")
    as (H1 & H2 & _).
  split; [exact H1|exact H2].
Defined.

Lemma all_or_nothing_keeps {A : Type} (c : M A) : keeps_store c -> all_or_nothing c.
Proof. intros H w. right. apply H. Qed.

Lemma all_or_nothing_bind {A B : Type} (c : M A) (k : A -> M B) :
  keeps_store c -> (forall a, all_or_nothing (k a)) -> all_or_nothing (mbind c k).
Proof.
  intros Hc Hk w. unfold mbind. specialize (Hc w).
  destruct (c w) as [[a| |] w1]; cbn [fst snd] in *; try (now right).
  destruct (Hk a w1) as [Hret|Hdb]; [now left|right; congruence].
Qed.

Lemma all_or_nothing_commit (batch : list mutation) : all_or_nothing (batch_commit batch).
Proof.
  intros w. destruct (fst (batch_commit batch w)) as [[]| |] eqn:Hfst.
  - left. now exists tt.
  - right. apply batch_commit_all_or_nothing. congruence.
  - right. apply batch_commit_all_or_nothing. congruence.
Qed.

Lemma all_or_nothing_commit_ret {A : Type} (batch : list mutation) (a : A) :
  all_or_nothing (mbind (batch_commit batch) (fun _ => ret a)).
Proof.
  intros w. unfold mbind. destruct (all_or_nothing_commit batch w) as [[[] Hret]|Hdb].
  - left. exists a. destruct (batch_commit batch w) as [[[]| |] w1]; try discriminate.
    reflexivity.
  - destruct (batch_commit batch w) as [[[]| |] w1]; cbn [fst snd] in *;
      [left; now exists a|now right|now right].
Qed.

Lemma keeps_store_throw {A : Type} (e : exn) : keeps_store (throw (A := A) e).
Proof. now intros w. Qed.

Lemma keeps_store_getById (this : BaseService.t) (id : string) :
  keeps_store (BaseService.getById this id).
Proof.
  apply keeps_store_bind; [apply keeps_store_lift|]. intros ref.
  apply keeps_store_bind; [apply keeps_store_getDoc|]. intros [d|]; apply keeps_store_ret.
Qed.

Lemma keeps_store_getConsumableStock (this : StockService.t) (officeId consumableId : string) :
  keeps_store (StockService.getConsumableStock this officeId consumableId).
Proof.
  apply keeps_store_bind; [apply keeps_store_lift|]. intros coll.
  apply keeps_store_bind; [apply keeps_store_lift|]. intros cs.
  apply keeps_store_bind; [apply keeps_store_getDocs|]. intros [|d l]; apply keeps_store_ret.
Qed.

Lemma keeps_store_disposal_metadata (disposalValue : option Z) :
  keeps_store (disposal_metadata disposalValue).
Proof.
  intros w. unfold disposal_metadata. destruct disposalValue; [reflexivity|].
  now destruct (ignoreUndefinedProperties w).
Qed.

End AssetLifecycle.

Ltac keeps :=
  lazymatch goal with
  | |- Behaviour.keeps_store (Firestore.mbind _ _) =>
      apply keeps_store_bind; [keeps|intros ?; keeps]
  | |- Behaviour.keeps_store (Firestore.lift _) => apply keeps_store_lift
  | |- Behaviour.keeps_store (Firestore.ret _) => apply keeps_store_ret
  | |- Behaviour.keeps_store (Firestore.throw _) => apply keeps_store_throw
  | |- Behaviour.keeps_store Firestore.Timestamp_now => apply keeps_store_now
  | |- Behaviour.keeps_store (Firestore.doc_auto _) => apply keeps_store_doc_auto
  | |- Behaviour.keeps_store (Firestore.batch_set _ _ _) => apply keeps_store_batch_set
  | |- Behaviour.keeps_store (Firestore.batch_update _ _ _) => apply keeps_store_batch_update
  | |- Behaviour.keeps_store (Firestore.parseData _ _) => apply keeps_store_parseData
  | |- Behaviour.keeps_store (Firestore.getDocs _ _) => apply keeps_store_getDocs
  | |- Behaviour.keeps_store (Firestore.getDoc _) => apply keeps_store_getDoc
  | |- Behaviour.keeps_store (BaseService.getById _ _) => apply keeps_store_getById
  | |- Behaviour.keeps_store (StockService.getConsumableStock _ _ _) =>
      apply keeps_store_getConsumableStock
  | |- Behaviour.keeps_store (AssetService.disposal_metadata _) =>
      apply keeps_store_disposal_metadata
  | |- Behaviour.keeps_store (match ?x with _ => _ end) => destruct x; keeps
  end.

Ltac atomic :=
  lazymatch goal with
  | |- Behaviour.all_or_nothing
         (Firestore.mbind (Firestore.batch_commit _) (fun _ => Firestore.ret _)) =>
      apply all_or_nothing_commit_ret
  | |- Behaviour.all_or_nothing (Firestore.mbind _ _) =>
      apply all_or_nothing_bind; [keeps|intros ?; atomic]
  | |- Behaviour.all_or_nothing (Firestore.batch_commit _) => apply all_or_nothing_commit
  | |- Behaviour.all_or_nothing (match ?x with _ => _ end) => destruct x; atomic
  | |- _ => apply all_or_nothing_keeps; keeps
  end.

(** * The lifecycle of an asset *)
Section AssetEvents.
Import JS Firestore AssetService Contracts Behaviour.

Lemma all_or_nothing_dispose (this : BaseService.t) (assetId reason : string)
    (disposalValue : option Z) (disposedBy : string) :
  all_or_nothing (dispose this assetId reason disposalValue disposedBy).
Proof. unfold dispose. cbv zeta. atomic. Qed.

(** X25. [createWithEvent] and [getEvents] round-trip. After a successful
    [createWithEvent] the asset sits under the next id of the supply with
    the tenant and the user as creator, and [getEvents] for that id
    answers with its ['created'] event, which names the asset and the user
    and carries the asset's creation time. *)
Theorem createWithEvent_then_getEvents (tid : string) (data : jsobject) (userId : string)
    (w w' : world) (created : jsobject) :
  is_segment tid = true ->
  createWithEvent (instance (Some tid)) data userId w = (Returns created, w') ->
  let assetId := auto_ids w (next_id w) in
  exists asset event events w'',
    lookup_doc (asset_ref tid assetId) (db w') = Some asset /\
    asset !! "tenant_id" = Some (FStr tid) /\
    asset !! "created_by" = Some (FStr userId) /\
    asset !! "created_at" = Some (FTime (clock w (ticks w))) /\
    getEvents (instance (Some tid)) assetId w' = (Returns events, w'') /\
    In event events /\
    event !! "event_type" = Some (FStr "created") /\
    event !! "asset_id" = Some (FStr assetId) /\
    event !! "created_by" = Some (FStr userId) /\
    event !! "created_at" = asset !! "created_at".
Proof.
  intros Hseg H. cbv zeta. unfold createWithEvent in H.
  cbn [instance BaseService.tenantId] in H. rewrite (is_segment_nonempty _ Hseg) in H.
  rewrite collection_of_tenant in H by (assumption || reflexivity).
  apply mbind_Returns in H as (assets & w1 & Hc & H).
  apply lift_Returns in Hc as [[= <-] ->].
  apply mbind_Returns in H as (assetRef & w1 & Href & H).
  apply doc_auto_Returns in Href as (Hauto & Href & ->).
  rewrite doc_in_collection in Href by assumption. injection Href as <-.
  fold (asset_ref tid (auto_ids w (next_id w))) in H.
  apply mbind_Returns in H as (now & w1 & Hnow & H). injection Hnow as <- <-.
  cbn [clock ticks take_id] in H.
  apply mbind_Returns in H as (batch1 & w1 & Hb1 & H).
  apply batch_set_Returns in Hb1 as (-> & a & -> & Ha).
  apply mbind_Returns in H as (events & w1 & Hev & H).
  apply lift_Returns in Hev as [Hev ->].
  rewrite collection_segments in Hev by reflexivity.
  injection Hev as <-.
  apply mbind_Returns in H as (eventRef & w1 & Heref & H).
  apply doc_auto_Returns in Heref as (Hauto' & Heref & ->).
  cbn [auto_ids next_id take_id tick] in Hauto', Heref.
  unfold doc_in in Heref.
  rewrite doc_segments in Heref by (cbn [forallb]; now rewrite Hauto').
  injection Heref as <-.
  apply mbind_Returns in H as (tag & w1 & Htag & H).
  apply lift_Returns in Htag as [_ ->].
  apply mbind_Returns in H as (batch2 & w1 & Hb2 & H).
  apply batch_set_Returns in Hb2 as (-> & e & -> & He).
  apply mbind_Returns in H as ([] & w1 & Hcommit & H).
  injection H as <- <-.
  cbn [app] in Hcommit. apply commit_set_set in Hcommit as (Hdb & _).
  cbn [db take_id tick] in Hdb.
  set (assetId := auto_ids w (next_id w)) in *.
  set (eventId := auto_ids w (S (next_id w))) in *.
  set (eventsRef := asset_ref tid assetId ++ [COLLECTIONS.ASSET_EVENTS]) in *.
  assert (Hdiff : asset_ref tid assetId <>
                  ["tenants"; tid; COLLECTIONS.ASSETS; assetId; COLLECTIONS.ASSET_EVENTS;
                   eventId]).
  { intros Heq. apply (f_equal length) in Heq. discriminate Heq. }
  assert (Hevent : lookup_doc (eventsRef ++ [eventId]) (db w1) = Some (apply_set e)).
  { rewrite Hdb, lookup_doc_set. now rewrite bool_decide_true. }
  exists (apply_set a), (entity eventId (apply_set e)). eexists _, _.
  split.
  { rewrite Hdb, !lookup_doc_set.
    rewrite (bool_decide_false _ Hdiff), bool_decide_true by reflexivity. reflexivity. }
  rewrite Ha, He, !entity_lookup, !apply_set_lookup by discriminate.
  repeat (rewrite lookup_insert_eq || rewrite lookup_insert_ne by discriminate).
  cbn [apply_field].
  split; [reflexivity|]. split; [reflexivity|]. split; [reflexivity|]. split.
  { unfold getEvents. cbn [instance BaseService.tenantId].
    rewrite (is_segment_nonempty _ Hseg).
    rewrite collection_segments
      by (cbn [forallb]; now rewrite Hseg, Hauto).
    change (orderBy "created_at" desc) with (Returns (QOrderBy "created_at" desc)).
    unfold mbind, lift, ret. cbn [app length Nat.even Nat.odd negb].
    erewrite getDocs_accepted by reflexivity. reflexivity. }
  split.
  { apply in_map_iff. exists (eventId, apply_set e).
    split; [cbn [fst snd]; now rewrite He|].
    apply run_query_complete; [reflexivity| |].
    - apply (docs_in_In eventsRef). now apply lookup_doc_In.
    - cbn [forallb matches snd]. rewrite He, apply_set_lookup.
      vm_compute. reflexivity. }
  repeat split; vm_compute; reflexivity.
Qed.

Lemma createWithEvent_then_getEvents_witness :
  is_segment "t1" = true /\
  exists created w' events w'' event,
    createWithEvent (instance (Some "t1")) {[ "asset_tag" := WVal (FStr "LT-1") ]} "alice"
      sample_world = (Returns created, w') /\
    getEvents (instance (Some "t1")) "id0" w' = (Returns events, w'') /\
    In event events /\
    event !! "event_type" = Some (FStr "created") /\
    event !! "created_by" = Some (FStr "alice").
Proof.
  set (run := createWithEvent (instance (Some "t1")) {[ "asset_tag" := WVal (FStr "LT-1") ]}
                "alice" sample_world).
  assert (Hrun : run = (Returns (match fst run with Returns c => c | _ => ∅ end), snd run))
    by (vm_compute; reflexivity).
  split; [reflexivity|].
  destruct (createWithEvent_then_getEvents "t1" _ "alice" sample_world _ _ eq_refl Hrun)
    as (asset & event & events & w'' & _ & _ & _ & _ & Hget & Hin & Hty & _ & Hby & _).
  eexists _, (snd run), events, w'', event.
  split; [exact Hrun|]. split; [exact Hget|]. split; [exact Hin|].
  split; [exact Hty|exact Hby].
Defined.

Lemma disposal_metadata_Returns (disposalValue : option Z) (metadata : wval) (w w' : world) :
  disposal_metadata disposalValue w = (Returns metadata, w') -> w' = w.
Proof.
  unfold disposal_metadata. destruct disposalValue; [now intros [= _ <-]|].
  destruct (ignoreUndefinedProperties w); [now intros [= _ <-]|discriminate].
Qed.

(** X26. [dispose] writes without reading. Whenever it succeeds the asset
    is ['disposed'], with the time of the call, the reason and the
    disposal value (a value of 0, like none, is recorded as [null]), and
    assigned to no one; the ['disposed'] event carries the reason; and the
    one request it sent is the commit of the two writes. On an asset that
    is not there it does not complete and nothing is written. *)
Theorem dispose_effect (tid assetId reason : string) (disposalValue : option Z)
    (disposedBy : string) (w : world) :
  is_segment tid = true -> is_segment assetId = true ->
  (forall w',
     dispose (instance (Some tid)) assetId reason disposalValue disposedBy w = (Returns tt, w') ->
     exists before after event u e,
       lookup_doc (asset_ref tid assetId) (db w) = Some before /\
       lookup_doc (asset_ref tid assetId) (db w') = Some after /\
       after !! "status" = Some (FStr "disposed") /\
       after !! "disposal_date" = Some (FTime (clock w (ticks w))) /\
       after !! "disposal_reason" = Some (FStr reason) /\
       after !! "disposal_value" = Some (number_or_null disposalValue) /\
       after !! "assigned_to" = Some FNull /\
       after !! "office_id" = before !! "office_id" /\
       lookup_doc (next_event_ref tid assetId w) (db w') = Some event /\
       event !! "event_type" = Some (FStr "disposed") /\
       event !! "description" = Some (FStr reason) /\
       trace w' = trace w ++ [ReqCommit [MUpdate (asset_ref tid assetId) u;
                                         MSet (next_event_ref tid assetId w) e]]) /\
  (lookup_doc (asset_ref tid assetId) (db w) = None ->
   fst (dispose (instance (Some tid)) assetId reason disposalValue disposedBy w)
     <> Returns tt /\
   db (snd (dispose (instance (Some tid)) assetId reason disposalValue disposedBy w)) = db w).
Proof.
  intros Hseg Hid.
  assert (Hinv : forall w',
     dispose (instance (Some tid)) assetId reason disposalValue disposedBy w = (Returns tt, w') ->
     exists before after event u e,
       lookup_doc (asset_ref tid assetId) (db w) = Some before /\
       lookup_doc (asset_ref tid assetId) (db w') = Some after /\
       after !! "status" = Some (FStr "disposed") /\
       after !! "disposal_date" = Some (FTime (clock w (ticks w))) /\
       after !! "disposal_reason" = Some (FStr reason) /\
       after !! "disposal_value" = Some (number_or_null disposalValue) /\
       after !! "assigned_to" = Some FNull /\
       after !! "office_id" = before !! "office_id" /\
       lookup_doc (next_event_ref tid assetId w) (db w') = Some event /\
       event !! "event_type" = Some (FStr "disposed") /\
       event !! "description" = Some (FStr reason) /\
       trace w' = trace w ++ [ReqCommit [MUpdate (asset_ref tid assetId) u;
                                         MSet (next_event_ref tid assetId w) e]]).
  { intros w' H. unfold dispose in H.
    cbn [instance BaseService.tenantId] in H. rewrite (is_segment_nonempty _ Hseg) in H.
    apply mbind_Returns in H as (now & w1 & Hnow & H). injection Hnow as <- <-.
    assert (Hsegs : forallb is_segment ["tenants"; tid; COLLECTIONS.ASSETS; assetId] = true).
    { cbn [forallb]. now rewrite Hseg, Hid. }
    apply mbind_Returns in H as (assetRef & w1 & Href & H).
    apply lift_Returns in Href as [Href ->].
    rewrite (doc_segments _ _ _ Hsegs) in Href.
    injection Href as <-. fold (asset_ref tid assetId) in H.
    apply mbind_Returns in H as (batch1 & w1 & Hb1 & H).
    apply batch_update_Returns in Hb1 as (-> & u & -> & Hu).
    apply mbind_Returns in H as (events & w1 & Hev & H).
    apply lift_Returns in Hev as [Hev ->].
    rewrite collection_segments in Hev by reflexivity.
    injection Hev as <-.
    apply mbind_Returns in H as (eventRef & w1 & Heref & H).
    apply doc_auto_Returns in Heref as (Hauto & Heref & ->).
    cbn [auto_ids next_id tick] in Hauto, Heref.
    unfold doc_in in Heref.
    rewrite doc_segments in Heref by (cbn [forallb]; now rewrite Hauto).
    injection Heref as <-.
    apply mbind_Returns in H as (metadata & w1 & Hmeta & H).
    apply disposal_metadata_Returns in Hmeta as ->.
    apply mbind_Returns in H as (batch2 & w1 & Hb2 & H).
    apply batch_set_Returns in Hb2 as (-> & e & -> & He).
    cbn [app] in H. apply commit_update_set in H as (before & Hbefore & Hdb & Htrace).
    cbn [db take_id tick trace] in Hbefore, Hdb, Htrace.
    fold (next_event_ref tid assetId w) in Hdb, Htrace |- *.
    assert (Hdiff : asset_ref tid assetId <> next_event_ref tid assetId w).
    { intros Heq. apply (f_equal length) in Heq. discriminate Heq. }
    exists before, (apply_update before u), (apply_set e), u, e.
    rewrite Hdb, !lookup_doc_set, !lookup_doc_replace, Hbefore.
    rewrite (bool_decide_false _ Hdiff), !bool_decide_true by reflexivity.
    rewrite Hu, He, !apply_update_lookup, !apply_set_lookup.
    split; [reflexivity|]. split; [reflexivity|].
    repeat (split; [reflexivity|]). exact Htrace. }
  split; [exact Hinv|].
  intros Hnone.
  assert (Hfail : fst (dispose (instance (Some tid)) assetId reason disposalValue disposedBy w)
                  <> Returns tt).
  { intros Hret.
    destruct (dispose (instance (Some tid)) assetId reason disposalValue disposedBy w)
      as [r w'] eqn:Hrun. cbn [fst] in Hret. subst r.
    destruct (Hinv w' eq_refl) as (before & _ & _ & _ & _ & Hb & _). congruence. }
  split; [exact Hfail|].
  destruct (all_or_nothing_dispose (instance (Some tid)) assetId reason disposalValue
              disposedBy w) as [[[] Hret]|Hdb]; [now contradiction Hfail|exact Hdb].
Qed.

Lemma dispose_effect_witness :
  is_segment "t1" = true /\ is_segment "a2" = true /\
  exists w' after,
    dispose (instance (Some "t1")) "a2" "broken" (Some 0) "admin" free_asset_world
      = (Returns tt, w') /\
    lookup_doc (asset_ref "t1" "a2") (db w') = Some after /\
    after !! "status" = Some (FStr "disposed") /\
    after !! "disposal_value" = Some FNull /\
    after !! "office_id" = Some (FStr "o1").
Proof.
  set (run := dispose (instance (Some "t1")) "a2" "broken" (Some 0) "admin" free_asset_world).
  assert (Hrun : run = (Returns tt, snd run)) by (vm_compute; reflexivity).
  split; [reflexivity|]. split; [reflexivity|].
  destruct (proj1 (dispose_effect "t1" "a2" "broken" (Some 0) "admin" free_asset_world
                     eq_refl eq_refl) (snd run) Hrun)
    as (before & after & event & u & e & Hbefore & Hafter & Hstatus & _ & _ & Hvalue & _
        & Hoffice & _).
  exists (snd run), after. split; [exact Hrun|]. split; [exact Hafter|].
  split; [exact Hstatus|]. split; [exact Hvalue|].
  rewrite Hoffice.
  assert (Hb : lookup_doc (asset_ref "t1" "a2") (db free_asset_world)
               = Some (list_to_map [ ("office_id", FStr "o1"); ("assigned_to", FNull);
                                     ("status", FStr "available") ])) by reflexivity.
  rewrite Hb in Hbefore. injection Hbefore as <-. reflexivity.
Defined.

End AssetEvents.

(** * Atomicity of the services' writes *)
Section CommitFacts.
Import JS Firestore Contracts Behaviour.

Lemma commits_once_bind {A B : Type} (shapes : list (list write_kind)) (c : M A)
    (k : A -> M B) :
  keeps_store c -> (forall a, commits_once shapes (k a)) -> commits_once shapes (mbind c k).
Proof.
  intros Hc Hk w. unfold mbind. specialize (Hc w).
  destruct (c w) as [[a| |] w1]; cbn [fst snd] in *; try exact Hc.
  specialize (Hk a w1). destruct (fst (k a w1)); rewrite <- Hc; exact Hk.
Qed.

Lemma commits_once_assoc {A B C : Type} (shapes : list (list write_kind)) (c : M A)
    (f : A -> M B) (k : B -> M C) :
  commits_once shapes (mbind c (fun a => mbind (f a) k)) ->
  commits_once shapes (mbind (mbind c f) k).
Proof.
  intros H w. specialize (H w). unfold mbind in *.
  now destruct (c w) as [[a| |] w1].
Qed.

Lemma commits_once_throw {A : Type} (shapes : list (list write_kind)) (e : exn) :
  commits_once shapes (throw (A := A) e).
Proof. now intros w. Qed.

(** A write joins the batch, or the client refuses its data and nothing
    was sent. *)
Lemma commits_once_batch_update {B : Type} (shapes : list (list write_kind))
    (batch : list mutation) (ref : path) (data : jsobject) (k : list mutation -> M B) :
  (forall parsed, commits_once shapes (k (batch ++ [MUpdate ref parsed]))) ->
  commits_once shapes (mbind (batch_update batch ref data) k).
Proof.
  intros Hk w. unfold batch_update, mbind, ret.
  pose proof (parseData_world UpdateData data w) as Hw.
  destruct (parseData UpdateData data w) as [[parsed| |] w1]; cbn [fst snd] in *; subst w1;
    [apply Hk|reflexivity|reflexivity].
Qed.

Lemma commits_once_batch_set {B : Type} (shapes : list (list write_kind))
    (batch : list mutation) (ref : path) (data : jsobject) (k : list mutation -> M B) :
  (forall parsed, commits_once shapes (k (batch ++ [MSet ref parsed]))) ->
  commits_once shapes (mbind (batch_set batch ref data) k).
Proof.
  intros Hk w. unfold batch_set, mbind, ret.
  pose proof (parseData_world SetData data w) as Hw.
  destruct (parseData SetData data w) as [[parsed| |] w1]; cbn [fst snd] in *; subst w1;
    [apply Hk|reflexivity|reflexivity].
Qed.

(** The commit of a batch that is not empty: one request, all of its writes
    or none. *)
Lemma commits_once_commit (shapes : list (list write_kind)) (batch : list mutation) :
  In (map kind batch) shapes -> ~ In [] shapes ->
  commits_once shapes (batch_commit batch).
Proof.
  intros Hin Hne w. destruct batch as [|m batch]; [now contradiction Hne|].
  cbn [batch_commit]. unfold send_commit.
  destruct (apply_mutations (m :: batch) (db w)) as [s'| |] eqn:Hs; cbn [fst snd];
    [|reflexivity|reflexivity].
  exists (m :: batch). split; [exact Hin|]. split; [|exact Hs].
  cbn [trace with_db with_request]. apply last_snoc.
Qed.

Lemma commits_once_commit_ret {A : Type} (shapes : list (list write_kind))
    (batch : list mutation) (a : A) :
  In (map kind batch) shapes -> ~ In [] shapes ->
  commits_once shapes (mbind (batch_commit batch) (fun _ => ret a)).
Proof.
  intros Hin Hne w. pose proof (commits_once_commit shapes batch Hin Hne w) as H.
  unfold mbind, ret. now destruct (batch_commit batch w) as [[[]| |] w1].
Qed.

End CommitFacts.

Ltac shape :=
  unfold Firestore.writeBatch; cbn [app map Behaviour.kind In];
  first [ now left | now (right; left) | intuition discriminate ].

Ltac commits :=
  lazymatch goal with
  | |- Behaviour.commits_once _
         (Firestore.mbind (Firestore.batch_commit _) (fun _ => Firestore.ret _)) =>
      apply commits_once_commit_ret; shape
  | |- Behaviour.commits_once _ (Firestore.mbind (Firestore.batch_update _ _ _) _) =>
      apply commits_once_batch_update; intros ?; commits
  | |- Behaviour.commits_once _ (Firestore.mbind (Firestore.batch_set _ _ _) _) =>
      apply commits_once_batch_set; intros ?; commits
  | |- Behaviour.commits_once _ (Firestore.mbind (Firestore.mbind _ _) _) =>
      apply commits_once_assoc; commits
  | |- Behaviour.commits_once _ (Firestore.mbind (match ?x with _ => _ end) _) =>
      destruct x; commits
  | |- Behaviour.commits_once _ (Firestore.mbind _ _) =>
      apply commits_once_bind; [keeps|intros ?; commits]
  | |- Behaviour.commits_once _ (Firestore.batch_commit _) =>
      apply commits_once_commit; shape
  | |- Behaviour.commits_once _ (Firestore.throw _) => apply commits_once_throw
  | |- Behaviour.commits_once _ (match ?x with _ => _ end) => destruct x; commits
  end.

(** * The writes of the stock and asset services *)
Section Atomicity.
Import JS Firestore Contracts Behaviour.

(** X24. The stock and asset services write through one commit. Each of
    [issue], [transfer], [restock] and [adjust] of the stock service and of
    [createWithEvent], [assignToUser], [unassign], [transferToOffice] and
    [dispose] of the asset service either does not complete and leaves the
    store as it was, or completes after one commit, its last request, that
    holds all it wrote. The writes of that commit are, in order: an update
    and a set for [issue] and for the four operations on an existing asset;
    an update or a set, and a set, for [restock] and [adjust]; two sets for
    [createWithEvent]; and four for a [transfer]: an update, an update or
    a set, and two sets. *)
Theorem service_writes_all_or_nothing :
  (forall this officeId consumableId q issuedTo userId notes,
     commits_once [[KUpdate; KSet]]
       (StockService.issue this officeId consumableId q issuedTo userId notes)) /\
  (forall this fromOfficeId toOfficeId consumableId q userId notes,
     commits_once [[KUpdate; KUpdate; KSet; KSet]; [KUpdate; KSet; KSet; KSet]]
       (StockService.transfer this fromOfficeId toOfficeId consumableId q userId notes)) /\
  (forall this officeId consumableId q userId notes,
     commits_once [[KUpdate; KSet]; [KSet; KSet]]
       (StockService.restock this officeId consumableId q userId notes)) /\
  (forall this officeId consumableId q userId reason,
     commits_once [[KUpdate; KSet]; [KSet; KSet]]
       (StockService.adjust this officeId consumableId q userId reason)) /\
  (forall this data userId,
     commits_once [[KSet; KSet]] (AssetService.createWithEvent this data userId)) /\
  (forall this assetId userId assignedBy,
     commits_once [[KUpdate; KSet]]
       (AssetService.assignToUser this assetId userId assignedBy)) /\
  (forall this assetId unassignedBy,
     commits_once [[KUpdate; KSet]] (AssetService.unassign this assetId unassignedBy)) /\
  (forall this assetId toOfficeId transferredBy notes,
     commits_once [[KUpdate; KSet]]
       (AssetService.transferToOffice this assetId toOfficeId transferredBy notes)) /\
  (forall this assetId reason disposalValue disposedBy,
     commits_once [[KUpdate; KSet]]
       (AssetService.dispose this assetId reason disposalValue disposedBy)).
Proof.
  repeat split; intros.
  - unfold StockService.issue. cbv zeta. commits.
  - unfold StockService.transfer. cbv zeta. commits.
  - unfold StockService.restock. cbv zeta. commits.
  - unfold StockService.adjust. cbv zeta. commits.
  - unfold AssetService.createWithEvent. cbv zeta. commits.
  - unfold AssetService.assignToUser. cbv zeta. commits.
  - unfold AssetService.unassign. cbv zeta. commits.
  - unfold AssetService.transferToOffice. cbv zeta. commits.
  - unfold AssetService.dispose. cbv zeta. commits.
Qed.

End Atomicity.

(** * Further properties of the maintenance service *)
Section TicketLifecycle.
Import JS Firestore MaintenanceService Contracts Behaviour.

(** [update] of a document that is there, with data the client accepts as
    they are: the data and the two modification stamps are merged into
    it. *)
Lemma update_existing (this : BaseService.t) (tid id : string) (data : jsobject)
    (userId : string) (before : fields) (w : world) :
  BaseService.tenantId this = Some tid -> is_segment tid = true ->
  is_segment (BaseService.collectionName this) = true -> is_segment id = true ->
  lookup_doc ["tenants"; tid; BaseService.collectionName this; id] (db w) = Some before ->
  (forall k, is_Some (data !! k) -> data_key UpdateData k = Returns k) ->
  (forall k, data !! k <> Some WUndefined) ->
  exists w',
    BaseService.update this id data userId w = (Returns tt, w') /\
    lookup_doc ["tenants"; tid; BaseService.collectionName this; id] (db w') =
      Some (apply_update before
              (<["updated_by" := WVal (FStr userId)]>
               (<["updated_at" := WVal (FTime (clock w (ticks w)))]> data))).
Proof.
  intros Htid Hseg Hcoll Hid Hbefore Hplain Hdef.
  unfold BaseService.update, BaseService.getDocRef.
  rewrite (getCollectionRef_bound this tid) by assumption. cbn [bind].
  rewrite doc_in_collection by assumption.
  erewrite mbind_ret by reflexivity.
  unfold BaseService.addAuditFields.
  erewrite mbind_ret; [|erewrite mbind_ret by reflexivity; reflexivity].
  unfold updateDoc. erewrite mbind_ret.
  2:{ apply parseData_defined; [now apply plain_keys_stamped|]. intros k.
      destruct (decide (k = "updated_by")) as [->|Hk1];
        [rewrite lookup_insert_eq; discriminate|].
      rewrite lookup_insert_ne by congruence.
      destruct (decide (k = "updated_at")) as [->|Hk2];
        [rewrite lookup_insert_eq; discriminate|].
      rewrite lookup_insert_ne by congruence. apply Hdef. }
  unfold send_commit. cbn [apply_mutations apply_mutation db tick].
  rewrite Hbefore. cbn [bind]. eexists. split; [reflexivity|].
  cbn [db with_db]. rewrite lookup_doc_replace, Hbefore.
  now rewrite bool_decide_true.
Qed.

(** X27. The transitions of a ticket are not guarded. On a ticket that is
    there, whatever its status and its time stamps, [cancel] succeeds and
    leaves it ['cancelled'] with the reason in its resolution notes,
    [waitingForParts] leaves it ['waiting_parts'], and [complete] with a
    cost and a root cause leaves it ['completed'] at the time of the call;
    none of them looks at the state before, and each leaves [started_at],
    and [cancel] and [waitingForParts] also [completed_at], as they
    were. *)
Theorem ticket_transitions_unguarded (tid ticketId : string) (before : fields) (w : world) :
  is_segment tid = true -> is_segment ticketId = true ->
  ticket tid ticketId w = Some before ->
  (forall reason userId, exists w' after,
     cancel (instance (Some tid)) ticketId reason userId w = (Returns tt, w') /\
     ticket tid ticketId w' = Some after /\
     after !! "status" = Some (FStr "cancelled") /\
     after !! "resolution_notes" = Some (FStr ("Cancelled: " +:+ reason)) /\
     after !! "started_at" = before !! "started_at" /\
     after !! "completed_at" = before !! "completed_at") /\
  (forall userId, exists w' after,
     waitingForParts (instance (Some tid)) ticketId userId w = (Returns tt, w') /\
     ticket tid ticketId w' = Some after /\
     after !! "status" = Some (FStr "waiting_parts") /\
     after !! "started_at" = before !! "started_at" /\
     after !! "completed_at" = before !! "completed_at") /\
  (forall resolutionNotes actualCost rootCause userId, exists w' after,
     complete (instance (Some tid)) ticketId resolutionNotes (Some actualCost)
       (Some rootCause) userId w = (Returns tt, w') /\
     ticket tid ticketId w' = Some after /\
     after !! "status" = Some (FStr "completed") /\
     after !! "completed_at" = Some (FTime (clock w (ticks w))) /\
     after !! "actual_cost" = Some (FNum actualCost) /\
     after !! "started_at" = before !! "started_at").
Proof.
  intros Hseg Hid Hbefore. unfold ticket in *. split; [|split].
  - intros reason userId. unfold cancel.
    destruct (update_existing (instance (Some tid)) tid ticketId
                (list_to_map [ ("status", WVal (FStr "cancelled"));
                               ("resolution_notes", WVal (FStr ("Cancelled: " +:+ reason))) ])
                userId before w eq_refl Hseg eq_refl Hid Hbefore) as (w' & Hrun & Hafter).
    { apply plain_keys_list. reflexivity. }
    { all_defined. }
    exists w'. eexists. split; [exact Hrun|]. split; [exact Hafter|].
    rewrite !apply_update_lookup. repeat split; vm_compute; reflexivity.
  - intros userId. unfold waitingForParts.
    destruct (update_existing (instance (Some tid)) tid ticketId
                (list_to_map [ ("status", WVal (FStr "waiting_parts")) ])
                userId before w eq_refl Hseg eq_refl Hid Hbefore) as (w' & Hrun & Hafter).
    { apply plain_keys_list. reflexivity. }
    { all_defined. }
    exists w'. eexists. split; [exact Hrun|]. split; [exact Hafter|].
    rewrite !apply_update_lookup. repeat split; vm_compute; reflexivity.
  - intros resolutionNotes actualCost rootCause userId. unfold complete.
    erewrite mbind_ret by reflexivity.
    destruct (update_existing (instance (Some tid)) tid ticketId
                (list_to_map [ ("status", WVal (FStr "completed"));
                               ("completed_at", WVal (FTime (clock w (ticks w))));
                               ("resolution_notes", WVal (FStr resolutionNotes));
                               ("actual_cost", AuditLogService.optional FNum (Some actualCost));
                               ("root_cause", AuditLogService.optional FStr (Some rootCause)) ])
                userId before (tick w) eq_refl Hseg eq_refl Hid Hbefore)
      as (w' & Hrun & Hafter).
    { apply plain_keys_list. reflexivity. }
    { all_defined. }
    exists w'. eexists. split; [exact Hrun|]. split; [exact Hafter|].
    rewrite !apply_update_lookup. repeat split; vm_compute; reflexivity.
Qed.


(** A successful [create]: the document is appended under the next id of
    the supply, with the data and the audit fields. *)
Lemma create_Returns (this : BaseService.t) (tid : string) (data : jsobject)
    (userId : string) (w w' : world) (created : jsobject) :
  BaseService.tenantId this = Some tid -> is_segment tid = true ->
  is_segment (BaseService.collectionName this) = true ->
  BaseService.create this data userId w = (Returns created, w') ->
  lookup_doc ["tenants"; tid; BaseService.collectionName this; auto_ids w (next_id w)] (db w')
    = Some (apply_set
              (<["updated_by" := WVal (FStr userId)]>
               (<["updated_at" := WVal (FTime (clock w (ticks w)))]>
               (<["created_by" := WVal (FStr userId)]>
               (<["created_at" := WVal (FTime (clock w (ticks w)))]>
               (<["tenant_id" := WVal (FStr tid)]> data)))))).
Proof.
  intros Htid Hseg Hcoll H. unfold BaseService.create in H.
  apply mbind_Returns in H as (docData & w1 & Hstamp & H).
  unfold BaseService.addAuditFields in Hstamp.
  apply mbind_Returns in Hstamp as (now & w2 & Hnow & Hstamp).
  injection Hnow as <- <-. injection Hstamp as <- <-.
  rewrite (getCollectionRef_bound this tid) in H by assumption.
  apply mbind_Returns in H as (coll & w1 & Hc & H).
  apply lift_Returns in Hc as [[= <-] ->].
  apply mbind_Returns in H as (docRef & w1 & Hadd & H).
  injection H as <- <-.
  apply addDoc_Returns in Hadd as (Hid & Href & Hnone & Hdb & _).
  cbn [auto_ids next_id db tick] in Hid, Href, Hnone, Hdb.
  rewrite doc_in_collection in Href by assumption. injection Href as <-.
  rewrite Htid in Hdb. cbn [BaseService.tenant_value] in Hdb.
  rewrite Hdb, lookup_doc_app, Hnone. cbn [lookup_doc].
  now rewrite bool_decide_true.
Qed.

(** X28. What [createTicket] stores. After a successful [createTicket] the
    ticket under the next id of the supply carries the ticket number, the
    user as reporter and as creator and the time of the call as
    [reported_at]; its status is the one handed in when that is a
    non-empty value and ['open'] otherwise. *)
Theorem createTicket_defaults (ticketNumber tid : string) (data : jsobject) (userId : string)
    (w w' : world) (created : jsobject) :
  is_segment tid = true ->
  createTicket ticketNumber (instance (Some tid)) data userId w = (Returns created, w') ->
  exists stored,
    ticket tid (auto_ids w (next_id w)) w' = Some stored /\
    stored !! "ticket_number" = Some (FStr ticketNumber) /\
    stored !! "reported_by" = Some (FStr userId) /\
    stored !! "reported_at" = Some (FTime (clock w (ticks w))) /\
    stored !! "created_by" = Some (FStr userId) /\
    stored !! "created_at" = Some (FTime (clock w (S (ticks w)))) /\
    stored !! "tenant_id" = Some (FStr tid) /\
    stored !! "status" = Some (match data !! "status" with
                               | Some (WVal v) => if fval_truthy v then v else FStr "open"
                               | _ => FStr "open"
                               end).
Proof.
  intros Hseg H. unfold createTicket in H.
  apply mbind_Returns in H as (now & w1 & Hnow & H). injection Hnow as <- <-.
  apply mbind_Returns in H as (status & w1 & Hstatus & H).
  apply lift_Returns in Hstatus as [Hstatus ->].
  apply (create_Returns _ tid) in H; try assumption; try reflexivity.
  cbn [instance BaseService.collectionName auto_ids next_id clock ticks tick] in H.
  unfold ticket. eexists. split; [exact H|].
  rewrite !apply_set_lookup.
  repeat (rewrite lookup_insert_eq || rewrite lookup_insert_ne by discriminate).
  cbn [apply_field].
  repeat (split; [reflexivity|]).
  unfold status_or_open in Hstatus.
  destruct (data !! "status") as [[|v|n]|]; try discriminate;
    injection Hstatus as <-; reflexivity.
Qed.

Lemma ticket_transitions_unguarded_witness :
  is_segment "t1" = true /\ is_segment "k1" = true /\
  ticket "t1" "k1" ticket_world = Some {[ "status" := FStr "open" ]} /\
  exists w' after,
    complete (instance (Some "t1")) "k1" "fixed" (Some 40) (Some "wear") "tech1" ticket_world
      = (Returns tt, w') /\
    ticket "t1" "k1" w' = Some after /\
    after !! "status" = Some (FStr "completed") /\
    after !! "started_at" = None.
Proof.
  assert (Hb : ticket "t1" "k1" ticket_world = Some {[ "status" := FStr "open" ]})
    by reflexivity.
  destruct (ticket_transitions_unguarded "t1" "k1" _ ticket_world eq_refl eq_refl Hb)
    as (_ & _ & Hc).
  destruct (Hc "fixed" 40 "wear" "tech1") as (w' & after & Hrun & Ha & Hs & _ & _ & Hst).
  split; [reflexivity|]. split; [reflexivity|]. split; [exact Hb|].
  exists w', after. split; [exact Hrun|]. split; [exact Ha|]. split; [exact Hs|].
  rewrite Hst. reflexivity.
Defined.

Lemma createTicket_defaults_witness :
  is_segment "t1" = true /\
  exists created w' stored,
    createTicket "TKT-2611-123456" (instance (Some "t1"))
      {[ "title" := WVal (FStr "Broken screen") ]} "alice" sample_world
      = (Returns created, w') /\
    ticket "t1" "id0" w' = Some stored /\
    stored !! "status" = Some (FStr "open") /\
    stored !! "reported_by" = Some (FStr "alice").
Proof.
  set (run := createTicket "TKT-2611-123456" (instance (Some "t1"))
                {[ "title" := WVal (FStr "Broken screen") ]} "alice" sample_world).
  assert (Hrun : run = (Returns (match fst run with Returns c => c | _ => ∅ end), snd run))
    by (vm_compute; reflexivity).
  split; [reflexivity|].
  destruct (createTicket_defaults "TKT-2611-123456" "t1" _ "alice" sample_world _ _
              eq_refl Hrun) as (stored & Hstored & _ & Hby & _ & _ & _ & _ & Hstatus).
  eexists _, (snd run), stored. split; [exact Hrun|]. split; [exact Hstored|].
  split; [exact Hstatus|exact Hby].
Defined.

End TicketLifecycle.

(** * Further properties of the audit log service *)
Section AuditQueries.
Import JS Firestore AuditLogService Contracts Behaviour.

(** X29. [getEntityLogs] on a bound instance answers with at most 100
    entries, each of them about the entity asked for, most recently created
    first, and leaves the store as it was. *)
Theorem getEntityLogs_recent (this : t) (tid entityType entityId : string) (w : world) :
  tenantId this = Some tid -> is_segment tid = true ->
  exists logs w',
    getEntityLogs this entityType entityId w = (Returns logs, w') /\
    (length logs <= 100)%nat /\
    Forall (fun e : fields => e !! "entity_type" = Some (FStr entityType) /\
                              e !! "entity_id" = Some (FStr entityId)) logs /\
    newest_first logs = true /\
    db w' = db w.
Proof.
  intros Htid Hseg. unfold getEntityLogs, getCollectionRef.
  rewrite Htid, (is_segment_nonempty _ Hseg), collection_of_tenant
    by (assumption || reflexivity).
  change (where_ "entity_type" OpEq (FStr entityType))
    with (Returns (QWhere "entity_type" OpEq (FStr entityType))).
  change (where_ "entity_id" OpEq (FStr entityId))
    with (Returns (QWhere "entity_id" OpEq (FStr entityId))).
  change (orderBy "created_at" desc) with (Returns (QOrderBy "created_at" desc)).
  change (limit 100) with (Returns (QLimit 100)).
  unfold mbind, lift, ret. cbn [bind]. erewrite getDocs_accepted by reflexivity.
  eexists _, _. split; [reflexivity|]. split; [|split; [|split; [|reflexivity]]].
  - rewrite length_map. now apply (run_query_length _ _ _ 100).
  - apply Forall_forall. intros e He. apply list_elem_of_In in He.
    apply in_map_iff in He as (d & <- & Hd).
    apply run_query_In in Hd as [_ Hm].
    cbn [forallb matches] in Hm.
    apply andb_prop in Hm as [Hm1 Hm]. apply andb_prop in Hm as [Hm2 _].
    rewrite !entity_lookup by discriminate.
    destruct (snd d !! "entity_type") as [x|]; [|discriminate].
    destruct (snd d !! "entity_id") as [y|]; [|discriminate].
    now rewrite (where_eq_str _ _ Hm1), (where_eq_str _ _ Hm2).
  - match goal with
    | |- context [run_query ?coll ?cs ?s] =>
        rewrite <- (firstn_all (run_query coll cs s))
    end.
    now apply (run_query_newest_first _ _ _ []).
Qed.


Lemma getEntityLogs_recent_witness :
  tenantId (Instance (Some "t1")) = Some "t1" /\ is_segment "t1" = true /\
  exists logs w',
    getEntityLogs (Instance (Some "t1")) "asset" "a1" audit_world = (Returns logs, w') /\
    map (fun e : fields => e !! "id") logs = [Some (FStr "l3"); Some (FStr "l1")] /\
    newest_first logs = true.
Proof.
  split; [reflexivity|]. split; [reflexivity|].
  destruct (getEntityLogs_recent (Instance (Some "t1")) "t1" "asset" "a1" audit_world
              eq_refl eq_refl) as (logs & w' & Hrun & _ & _ & Hnew & _).
  exists logs, w'. split; [exact Hrun|]. split; [|exact Hnew].
  assert (Hids : match fst (getEntityLogs (Instance (Some "t1")) "asset" "a1" audit_world) with
                 | Returns l => map (fun e : fields => e !! "id") l
                 | _ => []
                 end = [Some (FStr "l3"); Some (FStr "l1")]) by (vm_compute; reflexivity).
  rewrite Hrun in Hids. exact Hids.
Defined.

(** The entries of a collection after one document was appended to it. *)
Lemma docs_in_snoc (coll : path) (id : string) (d : fields) (s : store) :
  docs_in coll (s ++ [(coll ++ [id], d)]) = docs_in coll s ++ [(id, d)].
Proof.
  rewrite docs_in_app. f_equal. unfold docs_in. cbn [omap list_omap fst snd].
  now rewrite ref_id_snoc, bool_decide_true.
Qed.

(** X30. [log] writes one entry, or none. Whenever it succeeds on a bound
    instance the audit log of the tenant is the one before with one entry
    appended, under the next id of the supply, which carries the tenant,
    the action, the module, the entity, the user and the time of the call.
    Through a client that refuses [undefined] it fails with
    invalid-argument, and writes nothing, as soon as one of the optional
    parameters is missing; [logCreate], which never passes an address or a
    user agent, always fails so. *)
Theorem log_writes_one_entry (this : t) (tid : string) (params : log_params) (w : world) :
  tenantId this = Some tid -> is_segment tid = true ->
  (forall w',
     log this params w = (Returns tt, w') ->
     exists entry,
       entries tid w' = entries tid w ++ [(auto_ids w (next_id w), entry)] /\
       entry !! "tenant_id" = Some (FStr tid) /\
       entry !! "action" = Some (FStr (action params)) /\
       entry !! "module" = Some (FStr (module params)) /\
       entry !! "entity_type" = Some (FStr (entityType params)) /\
       entry !! "entity_id" = Some (FStr (entityId params)) /\
       entry !! "user_id" = Some (FStr (userId params)) /\
       entry !! "created_at" = Some (FTime (clock w (ticks w)))) /\
  (ignoreUndefinedProperties w = false ->
   is_segment (auto_ids w (next_id w)) = true ->
   (entityName params = None \/ changes params = None \/
    ipAddress params = None \/ userAgent params = None ->
    fst (log this params w) = Throws (FirestoreError "invalid-argument") /\
    db (snd (log this params w)) = db w) /\
   (forall module entityType entityId entityName u organizationId,
      fst (logCreate this module entityType entityId entityName u organizationId w)
        = Throws (FirestoreError "invalid-argument") /\
      db (snd (logCreate this module entityType entityId entityName u organizationId w))
        = db w)).
Proof.
  intros Htid Hseg.
  assert (Hstrict : forall p k,
    ignoreUndefinedProperties w = false ->
    is_segment (auto_ids w (next_id w)) = true ->
    list_to_map (M := jsobject)
      [ ("tenant_id", BaseService.tenant_value (Some tid));
        ("organization_id", WVal (FStr (organizationId p)));
        ("action", WVal (FStr (action p)));
        ("module", WVal (FStr (module p)));
        ("entity_type", WVal (FStr (entityType p)));
        ("entity_id", WVal (FStr (entityId p)));
        ("entity_name", optional FStr (entityName p));
        ("description", WVal (FStr (description p)));
        ("changes", optional changes_value (changes p));
        ("user_id", WVal (FStr (userId p)));
        ("user_email", WVal (FStr (userEmail p)));
        ("user_name", WVal (FStr (userName p)));
        ("ip_address", optional FStr (ipAddress p));
        ("user_agent", optional FStr (userAgent p));
        ("created_at", WVal (FTime (clock w (ticks w)))) ] !! k = Some WUndefined ->
    fst (log this p w) = Throws (FirestoreError "invalid-argument") /\
    db (snd (log this p w)) = db w).
  { intros p k Hs Hauto Hk. unfold log, getCollectionRef.
    rewrite Htid, (is_segment_nonempty _ Hseg), collection_of_tenant
      by (assumption || reflexivity).
    erewrite mbind_ret by reflexivity.
    erewrite mbind_ret by reflexivity.
    erewrite (mbind_throw _ _ _ (take_id (tick w))); [split; reflexivity|].
    unfold addDoc. erewrite mbind_ret.
    2:{ unfold doc_auto. erewrite mbind_ret;
          [|unfold autoId; cbn [auto_ids next_id tick]; rewrite Hauto; reflexivity].
        unfold lift. rewrite doc_in_collection by assumption. reflexivity. }
    apply mbind_throw. apply (parseData_undefined _ _ k); [exact Hk|exact Hs]. }
  split.
  - intros w' H. unfold log, getCollectionRef in H.
    rewrite Htid, (is_segment_nonempty _ Hseg), collection_of_tenant in H
      by (assumption || reflexivity).
    apply mbind_Returns in H as (now & w1 & Hnow & H). injection Hnow as <- <-.
    apply mbind_Returns in H as (coll & w1 & Hc & H).
    apply lift_Returns in Hc as [[= <-] ->].
    apply mbind_Returns in H as (ref & w1 & Hadd & H). injection H as <-.
    apply addDoc_Returns in Hadd as (Hauto & Href & _ & Hdb & _).
    cbn [auto_ids next_id db tick] in Hauto, Href, Hdb.
    rewrite doc_in_collection in Href by assumption. injection Href as <-.
    eexists. split.
    { unfold entries. rewrite Hdb.
      apply (docs_in_snoc ["tenants"; tid; COLLECTIONS.AUDIT_LOGS]). }
    rewrite !apply_set_lookup. repeat split; vm_compute; reflexivity.
  - intros Hs Hauto. split.
    + intros [Hn|[Hn|[Hn|Hn]]].
      * apply (Hstrict params "entity_name" Hs Hauto). rewrite Hn. reflexivity.
      * apply (Hstrict params "changes" Hs Hauto). rewrite Hn. reflexivity.
      * apply (Hstrict params "ip_address" Hs Hauto). rewrite Hn. reflexivity.
      * apply (Hstrict params "user_agent" Hs Hauto). rewrite Hn. reflexivity.
    + intros module entityType entityId entityName u organizationId.
      unfold logCreate. now apply (Hstrict _ "ip_address" Hs Hauto).
Qed.

Lemma log_writes_one_entry_witness :
  tenantId (Instance (Some "t1")) = Some "t1" /\ is_segment "t1" = true /\
  exists w' entry,
    log (Instance (Some "t1")) sample_params lenient_world = (Returns tt, w') /\
    entries "t1" w' = [("id0", entry)] /\
    entry !! "action" = Some (FStr "create") /\
    entry !! "created_at" = Some (FTime 1000).
Proof.
  set (run := log (Instance (Some "t1")) sample_params lenient_world).
  assert (Hrun : run = (Returns tt, snd run)) by (vm_compute; reflexivity).
  split; [reflexivity|]. split; [reflexivity|].
  destruct (proj1 (log_writes_one_entry (Instance (Some "t1")) "t1" sample_params
                     lenient_world eq_refl eq_refl) (snd run) Hrun)
    as (entry & Hentries & _ & Haction & _ & _ & _ & _ & Hat).
  exists (snd run), entry. split; [exact Hrun|]. split; [exact Hentries|].
  split; [exact Haction|exact Hat].
Defined.

End AuditQueries.
